(** * Recommendation service: similarity engine, result cache, orchestrator

  A shallow embedding of the Python service under [python-service/]:
  - [utils/cache.py]                      ([InMemoryCache], [CacheManager])
  - [services/similarity_engine.py]       ([SimilarityEngine])
  - [services/recommendation_engine.py]   ([RecommendationEngine])
  - [services/embedding_service.py]       ([EmbeddingService])
  - [services/text_processor.py]          ([TextProcessor], Myanmar digits)

  Conventions of the embedding.
  - A Python [str] is a [string] of code points below 256; where the
    code reads Myanmar script, it is the list of its code points.
  - A float is a real number: the arithmetic of the model is exact.
  - A [datetime] is an integer number of microseconds ([Z]) since
    1970-01-01 00:00:00, between [datetime.min] and [datetime.max];
    [timedelta(seconds=n)] is [n * 1000000].  A sum outside the range is
    Python's [OverflowError].  Every call reads the clock once: the reading
    is the [now] argument of the operation.
  - A cached value may be Python's [None]: [is_none] tells.
  - A dict that is only looked up, inserted into and measured is a [gmap];
    a dict whose iteration order is observed is an association list in
    insertion order. *)

From Stdlib Require Import ZArith Lia List Reals Lra.
From Stdlib Require QArith.
From stdpp Require Import gmap strings list sorting pretty.

Import ListNotations.
Local Open Scope Z_scope.

(** * Part I: the program *)

(** ** Python values *)

(** What [d.get(k)] and [k in d] see of one key of a dict: the key is not
    there, or it maps to [None], or it maps to a value. *)
Inductive slot (A : Type) : Type :=
| Absent
| PyNone
| Val (a : A).
Arguments Absent {A}.
Arguments PyNone {A}.
Arguments Val {A} a.

(** [k in d] *)
Definition has_key {A} (s : slot A) : bool :=
  match s with Absent => false | _ => true end.

(** [d[k]] for a key that is there: [None] or the value. *)
Definition item {A} (s : slot A) : option A :=
  match s with Val a => Some a | _ => None end.

Inductive exn : Type :=
| TypeError
| AttributeError
| RuntimeError.

(** The result of a block that may raise. *)
Inductive outcome (A : Type) : Type :=
| Return (a : A)
| Raise (e : exn).
Arguments Return {A} a.
Arguments Raise {A} e.

Definition bind {A B} (m : outcome A) (k : A -> outcome B) : outcome B :=
  match m with
  | Return a => k a
  | Raise e => Raise e
  end.

Notation "x <- m ;; k" := (bind m (fun x => k))
  (at level 100, m at next level, right associativity).

(** [try: body except Exception: return default] *)
Definition try_except {A} (body : outcome A) (default : A) : outcome A :=
  match body with
  | Return a => Return a
  | Raise _ => Return default
  end.

(** Strings.  The characters are the code points below 256. *)
Module Str.

Definition lower_char (c : Ascii.ascii) : Ascii.ascii :=
  let n := Ascii.nat_of_ascii c in
  if ((65 <=? n) && (n <=? 90)
      || (192 <=? n) && (n <=? 222) && negb (n =? 215))%nat
  then Ascii.ascii_of_nat (n + 32) else c.

(** [s.lower()] *)
Fixpoint lower (s : string) : string :=
  match s with
  | EmptyString => EmptyString
  | String c s' => String (lower_char c) (lower s')
  end.

(** [sub in s] *)
Fixpoint contains (sub s : string) : bool :=
  String.prefix sub s
  || match s with
     | EmptyString => false
     | String _ s' => contains sub s'
     end.

(** [c.isspace()] *)
Definition is_space (c : Ascii.ascii) : bool :=
  let n := Ascii.nat_of_ascii c in
  ((9 <=? n) && (n <=? 13) || (28 <=? n) && (n <=? 32)
   || (n =? 133) || (n =? 160))%nat.

Fixpoint lstrip (s : string) : string :=
  match s with
  | EmptyString => EmptyString
  | String c s' => if is_space c then lstrip s' else s
  end.

Fixpoint rstrip (s : string) : string :=
  match s with
  | EmptyString => EmptyString
  | String c s' =>
      match rstrip s' with
      | EmptyString => if is_space c then EmptyString else String c EmptyString
      | r => String c r
      end
  end.

(** [not s] *)
Definition is_empty (s : string) : bool :=
  match s with EmptyString => true | _ => false end.

(** Every character is a space; so is the empty string. *)
Fixpoint all_space (s : string) : bool :=
  match s with
  | EmptyString => true
  | String c s' => is_space c && all_space s'
  end.

(** [s.strip()] *)
Definition strip (s : string) : string := rstrip (lstrip s).

(** [s.split()]: the maximal runs of characters that are not spaces.
    [cur] is the run being read. *)
Fixpoint split_go (cur : string) (s : string) : list string :=
  match s with
  | EmptyString =>
      match cur with EmptyString => [] | _ => [cur] end
  | String c s' =>
      if is_space c
      then match cur with
           | EmptyString => split_go EmptyString s'
           | _ => cur :: split_go EmptyString s'
           end
      else split_go (cur +:+ String c EmptyString) s'
  end.

Definition split (s : string) : list string := split_go EmptyString s.

End Str.

(** ** Insertion-ordered dictionaries *)

Module PyDict.
Section PyDict.
Context {K V : Type} `{EqDecision K}.

(** [d[k] = v]: an existing key keeps its position, a new key goes last. *)
Fixpoint setitem (k : K) (v : V) (d : list (K * V)) : list (K * V) :=
  match d with
  | [] => [(k, v)]
  | (k', v') :: d' =>
      if decide (k' = k) then (k, v) :: d' else (k', v') :: setitem k v d'
  end.

(** [d.pop(k, None)], result dropped. *)
Definition pop (k : K) (d : list (K * V)) : list (K * V) :=
  filter (fun kv => kv.1 <> k) d.

(** [d.get(k)] *)
Fixpoint getitem (k : K) (d : list (K * V)) : option V :=
  match d with
  | [] => None
  | (k', v') :: d' => if decide (k' = k) then Some v' else getitem k d'
  end.

Definition keys (d : list (K * V)) : list K := map fst d.

End PyDict.
End PyDict.

(** ** Stable sort by key, as [sorted(xs, key=f)] and [xs.sort(key=f)]

    [before k1 k2] says that key [k1] sorts strictly before key [k2]: [<]
    for an ascending sort, [>] for [reverse=True].  Elements with equal keys
    keep their order in both directions, as in Python. *)

Section StableSort.
Context {A B : Type} (before : B -> B -> bool) (key : A -> B).

Fixpoint insert_sorted (x : A) (l : list A) : list A :=
  match l with
  | [] => [x]
  | y :: l' =>
      if before (key y) (key x) then y :: insert_sorted x l' else x :: y :: l'
  end.

(** Elements are inserted from the right and an element goes in front of
    the equal keys already placed. *)
Definition sorted_by (l : list A) : list A := foldr insert_sorted [] l.

End StableSort.

(** ** Values that may be [None]

    [is_none v] is [v is None].  The lists, strings and numbers of the
    service are never [None]; an [option] is [None] or a value. *)

Class PyValue (V : Type) := is_none : V -> bool.

#[global] Instance list_py_value {A} : PyValue (list A) := fun _ => false.
#[global] Instance string_py_value : PyValue string := fun _ => false.
#[global] Instance Z_py_value : PyValue Z := fun _ => false.
#[global] Instance nat_py_value : PyValue nat := fun _ => false.
#[global] Instance option_py_value {A} : PyValue (option A) :=
  fun v => match v with None => true | Some _ => false end.

(** ** [utils/cache.py]: class [InMemoryCache] *)

Module InMemoryCache.

(** [datetime.min] and [datetime.max]: 0001-01-01 00:00:00 and 9999-12-31
    23:59:59.999999. *)
Definition datetime_min : Z := -62135596800000000.
Definition datetime_max : Z := 253402300799999999.

(** The seconds of [timedelta.min] and of [timedelta.max]: 999999999 days
    back, and 999999999 days and 86399 seconds on. *)
Definition timedelta_min_seconds : Z := -86399999913600.
Definition timedelta_max_seconds : Z := 86399999999999.

(** [timedelta(seconds=ttl)] in microseconds *)
Definition timedelta_seconds (ttl : Z) : Z := ttl * 1000000.

(** Whether [now + timedelta(seconds=ttl)] is a [datetime]: the
    [timedelta] is in its range and so is the sum. *)
Definition in_range (now ttl : Z) : bool :=
  (timedelta_min_seconds <=? ttl) && (ttl <=? timedelta_max_seconds)
  && (datetime_min <=? now + timedelta_seconds ttl)
  && (now + timedelta_seconds ttl <=? datetime_max).

(** [now + timedelta(seconds=ttl)]; [None] is the [OverflowError]. *)
Definition expiry (now ttl : Z) : option Z :=
  if in_range now ttl then Some (now + timedelta_seconds ttl) else None.

Section InMemoryCache.
Context {V : Type} `{PyValue V}.

(** One entry of [self.cache]: the dict with keys ['value'], ['expires_at']
    and ['created_at']. *)
Record entry := Entry {
  value : V;
  expires_at : Z;
  created_at : Z;
}.

(** The object: [self.cache], [self.max_size], [self.access_times]. *)
Record t := Make {
  cache : gmap string entry;
  max_size : Z;
  access_times : list (string * Z);
}.

(** [__init__(max_size)] *)
Definition init (max_size : Z) : t :=
  {| cache := ∅; max_size := max_size; access_times := [] |}.

(** [delete(key)] *)
Definition delete (key : string) (c : t) : bool * t :=
  match cache c !! key with
  | Some _ =>
      (true, {| cache := base.delete key (cache c);
                max_size := max_size c;
                access_times := PyDict.pop key (access_times c) |})
  | None => (false, c)
  end.

(** [get(key)]: the value of a live entry; an expired entry is deleted. *)
Definition get (key : string) (now : Z) (c : t) : option V * t :=
  match cache c !! key with
  | Some e =>
      if expires_at e >? now then
        (Some (value e),
         {| cache := cache c;
            max_size := max_size c;
            access_times := PyDict.setitem key now (access_times c) |})
      else (None, (delete key c).2)
  | None => (None, c)
  end.

(** [clear()] *)
Definition clear (c : t) : bool * t :=
  (true, {| cache := ∅; max_size := max_size c; access_times := [] |}).

(** [exists(key)]: [get(key) is not None]; the value of a live entry may
    be [None]. *)
Definition exists_ (key : string) (now : Z) (c : t) : bool * t :=
  let '(r, c') := get key now c in
  (match r with
   | Some v => negb (is_none v)
   | None => false
   end, c').

(** The keys [_evict_oldest] removes: the first [max(1, n // 10)] keys of
    the access times sorted by time. *)
Definition keys_to_remove (c : t) : list string :=
  let sorted_keys := sorted_by Z.ltb snd (access_times c) in
  map fst (take (Nat.max 1 (length sorted_keys / 10)) sorted_keys).

(** [_evict_oldest()] *)
Definition _evict_oldest (c : t) : t :=
  match access_times c with
  | [] => c
  | _ => foldl (fun c' key => (delete key c').2) c (keys_to_remove c)
  end.

(** [set(key, value, ttl)].  The entry is built after the eviction and
    before it is stored: when its expiry time overflows, the [except]
    branch returns [False] and nothing is stored. *)
Definition set (key : string) (v : V) (ttl : Z) (now : Z) (c : t) : bool * t :=
  let c1 :=
    if Z.of_nat (size (cache c)) >=? max_size c then _evict_oldest c else c in
  match expiry now ttl with
  | Some expires_at =>
      (true,
       {| cache := <[key := {| value := v;
                               expires_at := expires_at;
                               created_at := now |}]> (cache c1);
          max_size := max_size c1;
          access_times := PyDict.setitem key now (access_times c1) |})
  | None => (false, c1)
  end.

(** The public operations, for sequences of calls. *)
Inductive op :=
| Get (key : string) (now : Z)
| Set_ (key : string) (v : V) (ttl : Z) (now : Z)
| Delete (key : string)
| Clear
| Exists (key : string) (now : Z).

Definition step (c : t) (o : op) : t :=
  match o with
  | Get key now => (get key now c).2
  | Set_ key v ttl now => (set key v ttl now c).2
  | Delete key => (delete key c).2
  | Clear => (clear c).2
  | Exists key now => (exists_ key now c).2
  end.

Definition run (ops : list op) (c : t) : t := foldl step c ops.

(** [get(key)] at each of the times [ts] in turn: the results, and the
    final object. *)
Fixpoint gets (key : string) (ts : list Z) (c : t) : list (option V) * t :=
  match ts with
  | [] => ([], c)
  | now :: ts' =>
      let '(r, c1) := get key now c in
      let '(rs, c2) := gets key ts' c1 in
      (r :: rs, c2)
  end.

End InMemoryCache.
Arguments entry : clear implicits.
Arguments t : clear implicits.
Arguments op : clear implicits.
End InMemoryCache.

(** ** [utils/cache.py]: class [CacheManager]

    [CacheManager()] as [main.py] builds it has no [redis_url], so its
    backend is an [InMemoryCache]; [RedisCache] wraps an external service
    and is outside the embedding.  [format] renders a parameter value as
    the f-string does, and [md5_hexdigest s] is
    [hashlib.md5(s.encode()).hexdigest()]. *)

Module CacheManager.

Record stats := Stats {
  hits : Z;
  misses : Z;
  sets : Z;
  deletes : Z;
  errors : Z;
}.

Section CacheManager.
Context {P V : Type} `{PyValue V}.
Context (format : P -> string) (md5_hexdigest : string -> string).

(** ["&".join([f"{k}={v}" for k, v in sorted(params.items())])].  The keys
    of a dict are distinct, so the comparison of two pairs is decided by
    their keys, in the order of code points. *)
Definition param_string (params : list (string * P)) : string :=
  String.concat "&"
    (map (fun kv => kv.1 +:+ "=" +:+ format kv.2)
         (sorted_by String.ltb fst params)).

(** [_generate_cache_key(base_key, **params)]; [params] lists the keyword
    arguments in the order of the call. *)
Definition _generate_cache_key (base_key : string) (params : list (string * P))
  : string :=
  match params with
  | [] => base_key
  | _ =>
      let ps := param_string params in
      if (100 <? String.length ps)%nat
      then base_key +:+ ":" +:+ md5_hexdigest ps
      else base_key +:+ ":" +:+ ps
  end.

Record t := Make {
  stats_of : stats;
  cache : InMemoryCache.t V;
}.

(** [__init__] *)
Definition init : t :=
  {| stats_of := Stats 0 0 0 0 0; cache := InMemoryCache.init 1000 |}.

(** [get(key, **params)]: a hit is a result that [is not None].  The
    value returned is [None], Python's, for a miss and for a stored
    [None]. *)
Definition get (key : string) (params : list (string * P)) (now : Z) (m : t)
  : option V * t :=
  let cache_key := _generate_cache_key key params in
  let '(result, c) := InMemoryCache.get cache_key now (cache m) in
  let st := stats_of m in
  let hit :=
    match result with
    | Some v => negb (is_none v)
    | None => false
    end in
  if hit then
    (result, {| stats_of := Stats (hits st + 1) (misses st) (sets st)
                              (deletes st) (errors st);
                cache := c |})
  else
    (None, {| stats_of := Stats (hits st) (misses st + 1) (sets st)
                            (deletes st) (errors st);
              cache := c |}).

(** [set(key, value, ttl, **params)] *)
Definition set (key : string) (value : V) (ttl : Z) (params : list (string * P))
  (now : Z) (m : t) : bool * t :=
  let cache_key := _generate_cache_key key params in
  let '(result, c) := InMemoryCache.set cache_key value ttl now (cache m) in
  let st := stats_of m in
  (result,
   {| stats_of :=
        if result
        then Stats (hits st) (misses st) (sets st + 1) (deletes st) (errors st)
        else st;
      cache := c |}).

(** [delete(key, **params)] *)
Definition delete (key : string) (params : list (string * P)) (m : t)
  : bool * t :=
  let cache_key := _generate_cache_key key params in
  let '(result, c) := InMemoryCache.delete cache_key (cache m) in
  let st := stats_of m in
  (result,
   {| stats_of :=
        if result
        then Stats (hits st) (misses st) (sets st) (deletes st + 1) (errors st)
        else st;
      cache := c |}).

(** [exists(key, **params)] *)
Definition exists_ (key : string) (params : list (string * P)) (now : Z) (m : t)
  : bool * t :=
  let cache_key := _generate_cache_key key params in
  let '(result, c) := InMemoryCache.exists_ cache_key now (cache m) in
  (result, {| stats_of := stats_of m; cache := c |}).

(** [self.cache.clear(...)] on the in-memory backend, with the positional
    arguments of the call.  [InMemoryCache.clear] takes no argument besides
    [self]: a call with one raises [TypeError] before the body runs. *)
Definition cache_clear (args : list string) (c : InMemoryCache.t V)
  : outcome (bool * InMemoryCache.t V) :=
  match args with
  | [] => Return (InMemoryCache.clear c)
  | _ :: _ => Raise TypeError
  end.

(** [clear(pattern)] *)
Definition clear (pattern : string) (m : t) : bool * t :=
  let st := stats_of m in
  match cache_clear [pattern] (cache m) with
  | Return (result, c) => (result, {| stats_of := st; cache := c |})
  | Raise _ =>
      (false,
       {| stats_of :=
            Stats (hits st) (misses st) (sets st) (deletes st) (errors st + 1);
          cache := cache m |})
  end.



(** [reset_stats()] *)
Definition reset_stats (m : t) : t :=
  {| stats_of := Stats 0 0 0 0 0; cache := cache m |}.

(** The public methods, for sequences of calls. *)
Inductive op :=
| Get (key : string) (params : list (string * P)) (now : Z)
| Set_ (key : string) (value : V) (ttl : Z) (params : list (string * P)) (now : Z)
| Delete (key : string) (params : list (string * P))
| Exists (key : string) (params : list (string * P)) (now : Z)
| Clear (pattern : string).

Definition step (m : t) (o : op) : t :=
  match o with
  | Get key params now => (get key params now m).2
  | Set_ key value ttl params now => (set key value ttl params now m).2
  | Delete key params => (delete key params m).2
  | Exists key params now => (exists_ key params now m).2
  | Clear pattern => (clear pattern m).2
  end.

Definition run (ops : list op) (m : t) : t := foldl step m ops.

End CacheManager.
Arguments t : clear implicits.
Arguments op : clear implicits.

(** The specialised methods.  Their keyword parameters are strings, which
    an f-string renders as they are.  [V] is the type of the cached values. *)
Section Specialised.
Context {V : Type} `{PyValue V} (md5_hexdigest : string -> string).

Definition as_is (v : string) : string := v.

(** [cache_book_embedding(book_id, embedding, ttl=86400)] *)
Definition cache_book_embedding (book_id : string) (embedding : V) (ttl : Z)
  (now : Z) (m : t V) : bool * t V :=
  set as_is md5_hexdigest "book_embedding" embedding ttl
    [("book_id", book_id)] now m.

(** [get_book_embedding(book_id)] *)
Definition get_book_embedding (book_id : string) (now : Z) (m : t V)
  : option V * t V :=
  get as_is md5_hexdigest "book_embedding" [("book_id", book_id)] now m.

(** [cache_user_profile(user_id, profile, ttl=3600)] *)
Definition cache_user_profile (user_id : string) (profile : V) (ttl : Z)
  (now : Z) (m : t V) : bool * t V :=
  set as_is md5_hexdigest "user_profile" profile ttl
    [("user_id", user_id)] now m.

(** [get_user_profile(user_id)] *)
Definition get_user_profile (user_id : string) (now : Z) (m : t V)
  : option V * t V :=
  get as_is md5_hexdigest "user_profile" [("user_id", user_id)] now m.

(** [cache_recommendations(user_id, rec_type, recommendations, ttl=1800)] *)
Definition cache_recommendations (user_id rec_type : string)
  (recommendations : V) (ttl : Z) (now : Z) (m : t V) : bool * t V :=
  set as_is md5_hexdigest "recommendations" recommendations ttl
    [("user_id", user_id); ("type", rec_type)] now m.

(** [get_recommendations(user_id, rec_type)] *)
Definition get_recommendations (user_id rec_type : string) (now : Z) (m : t V)
  : option V * t V :=
  get as_is md5_hexdigest "recommendations"
    [("user_id", user_id); ("type", rec_type)] now m.

(** [cache_book_similarities(book_id, similarities, ttl=7200)] *)
Definition cache_book_similarities (book_id : string) (similarities : V)
  (ttl : Z) (now : Z) (m : t V) : bool * t V :=
  set as_is md5_hexdigest "book_similarities" similarities ttl
    [("book_id", book_id)] now m.

(** [get_book_similarities(book_id)] *)
Definition get_book_similarities (book_id : string) (now : Z) (m : t V)
  : option V * t V :=
  get as_is md5_hexdigest "book_similarities" [("book_id", book_id)] now m.

(** [invalidate_user_cache(user_id)] *)
Definition invalidate_user_cache (user_id : string) (m : t V) : t V :=
  let patterns :=
    ["user_profile:*user_id=" +:+ user_id +:+ "*";
     "recommendations:*user_id=" +:+ user_id +:+ "*"] in
  foldl (fun m' pattern => (clear pattern m').2) m patterns.

(** [invalidate_book_cache(book_id)] *)
Definition invalidate_book_cache (book_id : string) (m : t V) : t V :=
  let patterns :=
    ["book_embedding:*book_id=" +:+ book_id +:+ "*";
     "book_similarities:*book_id=" +:+ book_id +:+ "*"] in
  foldl (fun m' pattern => (clear pattern m').2) m patterns.

End Specialised.

End CacheManager.

(** ** The dicts of the service

    A book row and a user profile, with the keys the code reads.  Floats
    are real numbers: the arithmetic of the model is exact. *)

Record book := Book {
  book_id : string;
  name : slot string;
  author : slot string;
  description : slot string;
  category : slot string;
  tags : slot (list string);
  embedding : slot (list R);
  similarity_score : option R;
  recommendation_reason : option string;
}.

Record user_profile := Profile {
  preference_embedding : slot (list R);
  favorite_categories : slot (list string);
  favorite_authors : slot (list string);
  interaction_count : option Z;
}.

(** Equality of dicts, as [==] and [list.remove] use it. *)
#[global] Instance slot_eq_dec {A} `{EqDecision A} : EqDecision (slot A).
Proof. solve_decision. Defined.

#[global] Instance R_eq_dec : EqDecision R := Req_dec_T.

#[global] Instance book_eq_dec : EqDecision book.
Proof. solve_decision. Defined.

(** [x > y] on floats *)
Definition Rgtb (x y : R) : bool := if Rlt_dec y x then true else false.

(** [xs[:n]] *)
Definition py_take {A} (n : Z) (xs : list A) : list A :=
  if 0 <=? n then take (Z.to_nat n) xs
  else take (length xs - Z.to_nat (- n)) xs.

(** ** [services/similarity_engine.py]: class [SimilarityEngine]

    The counters of [self.stats] are not part of the embedding. *)

Module SimilarityEngine.

(** [np.array(v, dtype=np.float32)]: of [None] it is a 0-dimensional
    array, of a list of floats the 1-dimensional array of its elements. *)
Inductive ndarray : Type :=
| Array0
| Array1 (xs : list R).

Definition np_array (v : option (list R)) : ndarray :=
  match v with
  | None => Array0
  | Some xs => Array1 xs
  end.

(** [len(a)]: a 0-dimensional array has no length. *)
Definition len (a : ndarray) : outcome nat :=
  match a with
  | Array0 => Raise TypeError
  | Array1 xs => Return (length xs)
  end.

Definition dot (u v : list R) : R := foldr Rplus 0%R (zip_with Rmult u v).

(** [scipy.spatial.distance.cosine(u, v)] on two arrays of one length:
    [1 - u.v / sqrt((u.u) * (v.v))].  The result is [None] where the
    floating-point quotient is NaN, that is where a norm is zero. *)
Definition cosine (u v : list R) : option R :=
  let uv := dot u v in
  let uu := dot u u in
  let vv := dot v v in
  if Req_dec_T (uu * vv) 0 then None else Some (1 - uv / sqrt (uu * vv))%R.

(** The [try] block of [cosine_similarity]. *)
Definition cosine_similarity_try (vector_a vector_b : option (list R))
  : outcome R :=
  let a := np_array vector_a in
  let b := np_array vector_b in
  la <- len a ;;
  if (la =? 0)%nat then Return 0%R else
  lb <- len b ;;
  if (lb =? 0)%nat then Return 0%R else
  if negb (la =? lb)%nat then Return 0%R else
  match a, b with
  | Array1 xs, Array1 ys =>
      match cosine xs ys with
      | None => Return 0%R
      | Some d =>
          let similarity := (1 - d)%R in
          Return (Rmax 0 (Rmin 1 similarity))
      end
  | _, _ => Raise TypeError
  end.

(** [cosine_similarity(vector_a, vector_b)] *)
Definition cosine_similarity (vector_a vector_b : option (list R)) : outcome R :=
  try_except (cosine_similarity_try vector_a vector_b) 0%R.

(** The loop over the favourites in [calculate_user_book_affinity]:
    an exact match ends it with 1.0, a match of one string inside the
    other raises the running value to [partial]. *)
Fixpoint best_match (partial : R) (target : string) (favourites : list string)
  (current : R) : R :=
  match favourites with
  | [] => current
  | fav :: rest =>
      if String.eqb (Str.lower fav) target then 1%R
      else if Str.contains (Str.lower fav) target
              || Str.contains target (Str.lower fav)
      then best_match partial target rest (Rmax current partial)
      else best_match partial target rest current
  end.

(** [v.lower()] of a dict value: [None] has no such method. *)
Definition lower_of (v : option string) : outcome string :=
  match v with
  | Some s => Return (Str.lower s)
  | None => Raise AttributeError
  end.

(** [for fav in v]: [None] is not iterable. *)
Definition iterate {A} (v : option (list A)) : outcome (list A) :=
  match v with
  | Some l => Return l
  | None => Raise TypeError
  end.

(** The three blocks of [calculate_user_book_affinity]; each takes and
    returns [(affinity_score, total_factors)]. *)
Definition content_term (p : user_profile) (b : book) (acc : R * R)
  : outcome (R * R) :=
  if has_key (preference_embedding p) && has_key (embedding b) then
    content_sim <- cosine_similarity (item (preference_embedding p))
                     (item (embedding b)) ;;
    Return (acc.1 + content_sim * 0.5, acc.2 + 0.5)%R
  else Return acc.

Definition category_term (p : user_profile) (b : book) (acc : R * R)
  : outcome (R * R) :=
  if has_key (favorite_categories p) && has_key (category b) then
    book_category <- lower_of (item (category b)) ;;
    favourites <- iterate (item (favorite_categories p)) ;;
    let category_match := best_match 0.7 book_category favourites 0 in
    Return (acc.1 + category_match * 0.3, acc.2 + 0.3)%R
  else Return acc.

Definition author_term (p : user_profile) (b : book) (acc : R * R)
  : outcome (R * R) :=
  if has_key (favorite_authors p) && has_key (author b) then
    book_author <- lower_of (item (author b)) ;;
    favourites <- iterate (item (favorite_authors p)) ;;
    let author_match := best_match 0.8 book_author favourites 0 in
    Return (acc.1 + author_match * 0.2, acc.2 + 0.2)%R
  else Return acc.

Definition calculate_user_book_affinity_try (p : user_profile) (b : book)
  : outcome R :=
  acc1 <- content_term p b (0, 0)%R ;;
  acc2 <- category_term p b acc1 ;;
  acc3 <- author_term p b acc2 ;;
  let '(affinity_score, total_factors) := acc3 in
  if Rlt_dec 0 total_factors
  then Return (affinity_score / total_factors)%R
  else Return 0%R.

(** [calculate_user_book_affinity(user_profile, book)] *)
Definition calculate_user_book_affinity (p : user_profile) (b : book)
  : outcome R :=
  try_except (calculate_user_book_affinity_try p b) 0%R.

(** *** [diversify_results]

    The function reads two things of a candidate, its category and its
    score, compares scores, and compares candidates for equality; it is
    stated over any type [C] of candidates and any type [S] of scores.
    [score x] is [x.get("similarity_score", 0)] and [gt] is [>] on scores.
    A category is [None] or a string. *)

Section Diversify.
Context {C S : Type} `{EqDecision C}.
Context (category_of : C -> slot string) (score : C -> S) (gt : S -> S -> bool).

(** [candidate.get("category", "uncategorized")] *)
Definition group_key (x : C) : option string :=
  match category_of x with
  | Absent => Some "uncategorized"
  | PyNone => None
  | Val s => Some s
  end.

(** [item.get("category")] *)
Definition get_category (x : C) : option string :=
  match category_of x with
  | Val s => Some s
  | _ => None
  end.

(** The grouping loop: [category_groups], in order of first appearance. *)
Definition group_candidates (candidates : list C)
  : list (option string * list C) :=
  foldl (fun groups candidate =>
           let k := group_key candidate in
           let items := default [] (PyDict.getitem k groups) in
           PyDict.setitem k (items ++ [candidate]) groups)
        [] candidates.

(** [max(items, key=score)] of [best :: items]: the first of the greatest. *)
Fixpoint max_by (best : C) (items : list C) : C :=
  match items with
  | [] => best
  | x :: rest => if gt (score x) (score best) then max_by x rest else max_by best rest
  end.

(** [items.remove(x)] *)
Fixpoint remove_first (x : C) (items : list C) : list C :=
  match items with
  | [] => []
  | y :: rest => if decide (y = x) then rest else y :: remove_first x rest
  end.

(** [sum(1 for item in diversified if item.get("category") == category)] *)
Definition category_count (category : option string) (diversified : list C) : Z :=
  Z.of_nat (length (filter (fun item => get_category item = category) diversified)).

(** The variables of the selection loop. *)
Record selection := Selection {
  category_groups : list (option string * list C);
  diversified : list C;
  remaining_slots : Z;
  added_in_round : Z;
}.

(** One pass of [for category, items in category_groups.items()] over the
    entries [todo]; the result lists the entries as the pass leaves them. *)
Fixpoint for_groups (max_per_category : Z) (todo : list (option string * list C))
  (chosen : list C) (slots added : Z) : selection :=
  match todo with
  | [] => Selection [] chosen slots added
  | (category, items) :: todo' =>
      match items with
      | first :: others =>
          if slots <=? 0 then
            let r := for_groups max_per_category todo' chosen slots added in
            Selection ((category, items) :: category_groups r) (diversified r)
              (remaining_slots r) (added_in_round r)
          else
            let best_item := max_by first others in
            let chosen1 := chosen ++ [best_item] in
            let items1 := remove_first best_item items in
            let items2 :=
              if category_count category chosen1 >=? max_per_category
              then [] else items1 in
            let r := for_groups max_per_category todo' chosen1
                       (slots - 1) (added + 1) in
            Selection ((category, items2) :: category_groups r) (diversified r)
              (remaining_slots r) (added_in_round r)
      | [] =>
          let r := for_groups max_per_category todo' chosen slots added in
          Selection ((category, items) :: category_groups r) (diversified r)
            (remaining_slots r) (added_in_round r)
      end
  end.

(** [any(category_groups.values())] *)
Definition any_items (groups : list (option string * list C)) : bool :=
  existsb (fun g => match g.2 with [] => false | _ => true end) groups.

(** The [while] loop; [fuel] bounds the number of rounds. *)
Fixpoint select_rounds (fuel : nat) (max_per_category : Z)
  (groups : list (option string * list C)) (chosen : list C)
  (slots : Z) : list C :=
  match fuel with
  | O => chosen
  | Datatypes.S fuel' =>
      if (slots >? 0) && any_items groups then
        let r := for_groups max_per_category groups chosen slots 0 in
        if added_in_round r =? 0 then diversified r
        else select_rounds fuel' max_per_category (category_groups r)
               (diversified r) (remaining_slots r)
      else chosen
  end.

(** [diversify_results(candidates, diversity_factor, max_per_category)].
    A round that does not end the loop lowers [remaining_slots], which
    starts at [len(candidates)], so that many rounds are enough.  No
    statement of the [try] block raises on candidates with scores. *)
Definition diversify_results (candidates : list C) (diversity_factor : R)
  (max_per_category : Z) : list C :=
  match candidates with
  | [] => candidates
  | _ =>
      let chosen :=
        select_rounds (length candidates) max_per_category
          (group_candidates candidates) [] (Z.of_nat (length candidates)) in
      sorted_by gt score chosen
  end.

End Diversify.

(** *** [category_similarity], [author_similarity], [tags_similarity]

    An argument is [None] or a string (a list of strings for the tags). *)

(** The dict [category_relations], in the order of its literal. *)
Definition category_relations : list (string * list string) :=
  [("information technology", ["computer"; "networking"; "internet"]);
   ("learning", ["education"; "tutorial"; "guide"]);
   ("fiction", ["novel"; "story"]);
   ("non-fiction", ["biography"; "history"; "science"])].

(** [x in related] *)
Definition in_list (x : string) (related : list string) : bool :=
  bool_decide (x ∈ related).

(** The loop over [category_relations.items()], and the [return 0.0] after
    it. *)
Fixpoint related_score (cat_a_lower cat_b_lower : string)
  (relations : list (string * list string)) : R :=
  match relations with
  | [] => 0%R
  | (main_category, related) :: rest =>
      if String.eqb cat_a_lower main_category && in_list cat_b_lower related
         || String.eqb cat_b_lower main_category && in_list cat_a_lower related
      then 0.7%R
      else if in_list cat_a_lower related && in_list cat_b_lower related
      then 0.6%R
      else related_score cat_a_lower cat_b_lower rest
  end.

(** [category_similarity(category_a, category_b)] *)
Definition category_similarity (category_a category_b : option string) : R :=
  match category_a, category_b with
  | Some (String _ _ as a), Some (String _ _ as b) =>
      if String.eqb (Str.lower a) (Str.lower b) then 1%R
      else related_score (Str.lower a) (Str.lower b) category_relations
  | _, _ => 0%R
  end.

(** [set(s.split())] *)
Definition word_set (s : string) : gset string := list_to_set (Str.split s).

(** [author_similarity(author_a, author_b)] *)
Definition author_similarity (author_a author_b : option string) : R :=
  match author_a, author_b with
  | Some (String _ _ as a), Some (String _ _ as b) =>
      if String.eqb (Str.lower a) (Str.lower b) then 1%R
      else
        let words_a := word_set (Str.lower a) in
        let words_b := word_set (Str.lower b) in
        if bool_decide (words_a ∩ words_b <> ∅) then
          let overlap := size (words_a ∩ words_b) in
          let total := size (words_a ∪ words_b) in
          if (0 <? total)%nat then (INR overlap / INR total)%R else 0%R
        else 0%R
  | _, _ => 0%R
  end.

(** [tags_similarity(tags_a, tags_b)] *)
Definition tags_similarity (tags_a tags_b : option (list string)) : R :=
  match tags_a, tags_b with
  | Some ((_ :: _) as ta), Some ((_ :: _) as tb) =>
      let set_a : gset string := list_to_set (map Str.lower ta) in
      let set_b : gset string := list_to_set (map Str.lower tb) in
      let intersection := size (set_a ∩ set_b) in
      let union := size (set_a ∪ set_b) in
      if (union =? 0)%nat then 0%R else (INR intersection / INR union)%R
  | _, _ => 0%R
  end.

(** *** [semantic_similarity]

    [weights] is [None] or a dict with the four keys. *)

Record weights := Weights {
  w_embedding : R;
  w_category : R;
  w_author : R;
  w_tags : R;
}.

Definition default_weights : weights := Weights 0.6 0.2 0.1 0.1.

(** The [try] block; [(total_similarity, total_weight)] is threaded
    through the four blocks. *)
Definition semantic_similarity_try (book_a book_b : book) (w : weights)
  : outcome R :=
  acc1 <-
    (if has_key (embedding book_a) && has_key (embedding book_b) then
       embedding_sim <- cosine_similarity (item (embedding book_a))
                          (item (embedding book_b)) ;;
       Return (0 + embedding_sim * w_embedding w, 0 + w_embedding w)%R
     else Return (0, 0)%R) ;;
  let acc2 :=
    if has_key (category book_a) && has_key (category book_b) then
      let category_sim :=
        category_similarity (item (category book_a)) (item (category book_b)) in
      (acc1.1 + category_sim * w_category w, acc1.2 + w_category w)%R
    else acc1 in
  let acc3 :=
    if has_key (author book_a) && has_key (author book_b) then
      let author_sim :=
        author_similarity (item (author book_a)) (item (author book_b)) in
      (acc2.1 + author_sim * w_author w, acc2.2 + w_author w)%R
    else acc2 in
  let acc4 :=
    if has_key (tags book_a) && has_key (tags book_b) then
      let tags_sim := tags_similarity (item (tags book_a)) (item (tags book_b)) in
      (acc3.1 + tags_sim * w_tags w, acc3.2 + w_tags w)%R
    else acc3 in
  let '(total_similarity, total_weight) := acc4 in
  if Rlt_dec 0 total_weight
  then Return (total_similarity / total_weight)%R
  else Return 0%R.

(** [semantic_similarity(book_a, book_b, weights)] *)
Definition semantic_similarity (book_a book_b : book) (weights : option weights)
  : outcome R :=
  let w := default default_weights weights in
  try_except (semantic_similarity_try book_a book_b w) 0%R.

(** *** [rank_by_similarity] *)

(** [x["similarity_score"]] of a scored candidate *)
Definition score (x : book) : R := default 0%R (similarity_score x).

(** [candidate.copy()] with ["similarity_score"] set *)
Definition with_similarity_score (candidate : book) (similarity : R) : book :=
  Book (book_id candidate) (name candidate) (author candidate)
    (description candidate) (category candidate) (tags candidate)
    (embedding candidate) (Some similarity) (recommendation_reason candidate).

(** The loop over the candidates: [scored_candidates]. *)
Fixpoint scored_candidates (query_vector : option (list R)) (min_similarity : R)
  (candidates : list book) : outcome (list book) :=
  match candidates with
  | [] => Return []
  | candidate :: rest =>
      if negb (has_key (embedding candidate))
      then scored_candidates query_vector min_similarity rest
      else
        similarity <- cosine_similarity query_vector (item (embedding candidate)) ;;
        more <- scored_candidates query_vector min_similarity rest ;;
        Return (if Rge_dec similarity min_similarity
                then with_similarity_score candidate similarity :: more
                else more)
  end.

(** [rank_by_similarity(query_vector, candidates, top_k, min_similarity)] *)
Definition rank_by_similarity (query_vector : option (list R))
  (candidates : list book) (top_k : Z) (min_similarity : R)
  : outcome (list book) :=
  match candidates with
  | [] => Return []
  | _ =>
      try_except
        (scored <- scored_candidates query_vector min_similarity candidates ;;
         Return (py_take top_k (sorted_by Rgtb score scored)))
        []
  end.

(** *** [batch_cosine_similarity]

    In the [try] block [None] stands for a raised exception. *)

(** [np.array(rows, dtype=np.float32).shape[1]] for the non-empty list
    [first :: others] of lists of floats: the length of the rows when they
    have one length; numpy raises [ValueError] when they do not. *)
Definition columns (first : list R) (others : list (list R)) : option nat :=
  if forallb (fun row => (length row =? length first)%nat) others
  then Some (length first) else None.

Definition returned {A} (m : outcome A) : option A :=
  match m with
  | Return a => Some a
  | Raise _ => None
  end.

(** [a.tolist()] of a 1-dimensional array; of a 0-dimensional array it is
    a scalar, which [np.array] turns into a 0-dimensional array again. *)
Definition tolist (a : ndarray) : option (list R) :=
  match a with
  | Array0 => None
  | Array1 xs => Some xs
  end.

Definition batch_cosine_similarity_try (query_vector : option (list R))
  (first : list R) (others : list (list R)) : option (list R) :=
  let query := np_array query_vector in
  n ← columns first others;
  lq ← returned (len query);
  if (lq =? 0)%nat then Some (replicate (length (first :: others)) 0%R)
  else if negb (n =? lq)%nat
  then Some (replicate (length (first :: others)) 0%R)
  else
    mapM (fun candidate =>
            returned (cosine_similarity (tolist query) (Some candidate)))
         (first :: others).

(** [batch_cosine_similarity(query_vector, candidate_vectors)] *)
Definition batch_cosine_similarity (query_vector : option (list R))
  (candidate_vectors : list (list R)) : list R :=
  match candidate_vectors with
  | [] => []
  | first :: others =>
      default (replicate (length candidate_vectors) 0%R)
        (batch_cosine_similarity_try query_vector first others)
  end.

End SimilarityEngine.

(** ** [services/embedding_service.py]: class [EmbeddingService]

    The sentence-transformer model, [hashlib.md5] and
    [unicodedata.normalize] are parameters.  The object records, besides
    its Python attributes, the memo table of [lru_cache] on
    [_cached_encode] and the list of texts handed to [self.model.encode],
    so that a call of the model shows in the state.  [elapsed] is the
    difference of the two [time.time()] readings around the encoding. *)

Module EmbeddingService.
Section EmbeddingService.
Context (model_encode : string -> list R).
Context (md5_hexdigest : string -> string).
Context (normalize_nfc : string -> string).

Record stats := Stats {
  embeddings_generated : Z;
  cache_hits : Z;
  cache_misses : Z;
  total_processing_time : R;
  model_load_time : R;
}.

Record t := Make {
  model_name : string;
  model : bool;                      (* [self.model is not None] *)
  model_loaded : bool;
  embedding_dimension : nat;
  cache : gmap string (list R);
  stats_of : stats;
  lru : list (string * list R);      (* least recently used first *)
  encode_calls : list string;        (* oldest first *)
}.

(** [is_ready()] *)
Definition is_ready (s : t) : bool := model_loaded s && model s.

(** [_generate_cache_key(text, model_version)] *)
Definition _generate_cache_key (s : t) (text : string)
  (model_version : option string) : string :=
  let version :=
    match model_version with
    | Some (String c v) => String c v
    | _ => model_name s
    end in
  md5_hexdigest (text +:+ "_" +:+ version).

(** [_prepare_text(text)] *)
Definition _prepare_text (text : string) : string :=
  match text with
  | EmptyString => EmptyString
  | _ =>
      let cleaned := Str.strip text in
      let cleaned := normalize_nfc cleaned in
      String.concat " " (Str.split cleaned)
  end.

(** [_cached_encode(text)] under [lru_cache(maxsize=1000)]. *)
Definition _cached_encode (text : string) (s : t) : outcome (list R) * t :=
  match PyDict.getitem text (lru s) with
  | Some e =>
      (Return e,
       Make (model_name s) (model s) (model_loaded s) (embedding_dimension s)
         (cache s) (stats_of s)
         (PyDict.pop text (lru s) ++ [(text, e)]) (encode_calls s))
  | None =>
      if is_ready s then
        let e := model_encode text in
        let kept := if (1000 <=? length (lru s))%nat then tail (lru s) else lru s in
        (Return e,
         Make (model_name s) (model s) (model_loaded s) (embedding_dimension s)
           (cache s) (stats_of s) (kept ++ [(text, e)])
           (encode_calls s ++ [text]))
      else (Raise RuntimeError, s)
  end.

(** [np.zeros(n)] *)
Definition np_zeros (n : nat) : list R := replicate n 0%R.

(** [generate_embedding(text, model_version, use_cache)] *)
Definition generate_embedding (text : string) (model_version : option string)
  (use_cache : bool) (elapsed : R) (s : t) : outcome (list R) * t :=
  if negb (is_ready s) then (Raise RuntimeError, s) else
  if Str.is_empty text || Str.is_empty (Str.strip text)
  then (Return (np_zeros (embedding_dimension s)), s)
  else
      let cleaned_text := _prepare_text text in
      let cache_key := _generate_cache_key s cleaned_text model_version in
      let st := stats_of s in
      match (if use_cache then cache s !! cache_key else None) with
      | Some e =>
          (Return e,
           Make (model_name s) (model s) (model_loaded s) (embedding_dimension s)
             (cache s)
             (Stats (embeddings_generated st) (cache_hits st + 1) (cache_misses st)
                (total_processing_time st) (model_load_time st))
             (lru s) (encode_calls s))
      | None =>
          let s1 :=
            Make (model_name s) (model s) (model_loaded s) (embedding_dimension s)
              (cache s)
              (Stats (embeddings_generated st) (cache_hits st) (cache_misses st + 1)
                 (total_processing_time st) (model_load_time st))
              (lru s) (encode_calls s) in
          match _cached_encode cleaned_text s1 with
          | (Return e, s2) =>
              let st2 := stats_of s2 in
              (Return e,
               Make (model_name s2) (model s2) (model_loaded s2)
                 (embedding_dimension s2)
                 (if use_cache then <[cache_key := e]> (cache s2) else cache s2)
                 (Stats (embeddings_generated st2 + 1) (cache_hits st2)
                    (cache_misses st2) (total_processing_time st2 + elapsed)%R
                    (model_load_time st2))
                 (lru s2) (encode_calls s2))
          | (Raise e, s2) => (Raise e, s2)
          end
      end.

(** [clear_cache()] *)
Definition clear_cache (s : t) : t :=
  Make (model_name s) (model s) (model_loaded s) (embedding_dimension s)
    ∅ (stats_of s) [] (encode_calls s).

(** [cleanup()] *)
Definition cleanup (s : t) : t :=
  let s1 := clear_cache s in
  Make (model_name s1) false false (embedding_dimension s1)
    (cache s1) (stats_of s1) (lru s1) (encode_calls s1).

(** [[f"{label}{book_data[key]}"]] when [book_data.get(key)] is true, that
    is a string that is not empty; [[]] otherwise. *)
Definition text_part (label : string) (v : slot string) : list string :=
  match v with
  | Val (String c v') => [label +:+ String c v']
  | _ => []
  end.

(** The [Tags: ...] part, for a list of tags that is not empty. *)
Definition tags_part (v : slot (list string)) : list string :=
  match v with
  | Val (tag :: more) => ["Tags: " +:+ String.concat ", " (tag :: more)]
  | _ => []
  end.

(** [combined_text] of [generate_book_embedding] *)
Definition combined_text (book_data : book) : string :=
  String.concat ". "
    (text_part "Title: " (name book_data)
     ++ text_part "Author: " (author book_data)
     ++ text_part "Description: " (description book_data)
     ++ text_part "Category: " (category book_data)
     ++ tags_part (tags book_data)).

(** [generate_book_embedding(book_data)] *)
Definition generate_book_embedding (book_data : book) (elapsed : R) (s : t)
  : outcome (list R) * t :=
  generate_embedding (combined_text book_data) None true elapsed s.

End EmbeddingService.
End EmbeddingService.

(** ** [services/recommendation_engine.py]: class [RecommendationEngine]

    The methods that query Supabase, the text processor and the embedding
    service stand outside the engine: what they return to the engine is
    given by a record of functions.  Each of the querying methods catches
    its own exceptions and returns a value.  The two helpers that can
    raise into the caller's [try] block return an [outcome]. *)

Module RecommendationEngine.

Record stats := Stats {
  recommendations_generated : Z;
  cache_hits : Z;
  cache_misses : Z;
  similar_book_requests : Z;
  personalized_requests : Z;
  trending_requests : Z;
}.

(** One entry of the list [_get_user_interactions] builds. *)
Record interaction := Interaction {
  interaction_book_id : string;
  interaction_book : option book;     (* [None] for [None] and for [{}] *)
  interaction_type : string;
  timestamp : string;
  weight : R;
}.

(** One row of the trending query. *)
Record trending_row := TrendingRow {
  row_book : book;
  purchase_count : Z;
  interaction_count : Z;
  trend_score : R;
}.

Record services := Services {
  (* [self.supabase] is not [None] *)
  supabase : bool;
  _get_book_data : string -> option book;
  (* [exclude_book_id], [exclude_book_ids], [exclude_categories] *)
  _get_candidate_books :
    option string -> option (list string) -> option (list string) -> list book;
  _get_or_generate_book_embedding : book -> option (list R);
  _get_user_interactions : string -> list interaction;
  _get_user_purchased_books : string -> list string;
  (* the query of [get_trending_books] for a cutoff date, [min_interactions]
     and [limit]: [result.data or []], or the exception *)
  trending_query : Z -> Z -> Z -> outcome (list trending_row);
  _generate_similarity_reason : book -> book -> outcome string;
  (* [(now - datetime.fromisoformat(timestamp.replace("Z", "+00:00"))).days] *)
  days_old : Z -> string -> outcome Z;
  (* [self.text_processor.process_book_text(book)] *)
  process_book_text : book -> string;
  (* [self.embedding_service.generate_user_preference_embedding], on the
     texts of the pool; [.tolist()] of its result *)
  generate_user_preference_embedding : list string -> outcome (list R);
}.

(** The engine: [self.stats] and [self.cache_manager]. *)
Record t := Make {
  stats_of : stats;
  cache_manager : option (CacheManager.t (list book));
}.

Section RecommendationEngine.
(** [str_of_float x] is [f"{x}"] of a float. *)
Context (str_of_float : R -> string).
Context (svc : services).

Definition update_stats (f : stats -> stats) (e : t) : t :=
  {| stats_of := f (stats_of e); cache_manager := cache_manager e |}.

Definition count_hit (st : stats) : stats :=
  Stats (recommendations_generated st) (cache_hits st + 1) (cache_misses st)
    (similar_book_requests st) (personalized_requests st) (trending_requests st).

Definition count_miss (st : stats) : stats :=
  Stats (recommendations_generated st) (cache_hits st) (cache_misses st + 1)
    (similar_book_requests st) (personalized_requests st) (trending_requests st).

Definition count_generated (st : stats) : stats :=
  Stats (recommendations_generated st + 1) (cache_hits st) (cache_misses st)
    (similar_book_requests st) (personalized_requests st) (trending_requests st).

Definition count_similar (st : stats) : stats :=
  Stats (recommendations_generated st) (cache_hits st) (cache_misses st)
    (similar_book_requests st + 1) (personalized_requests st) (trending_requests st).

Definition count_personalized (st : stats) : stats :=
  Stats (recommendations_generated st) (cache_hits st) (cache_misses st)
    (similar_book_requests st) (personalized_requests st + 1) (trending_requests st).

Definition count_trending (st : stats) : stats :=
  Stats (recommendations_generated st) (cache_hits st) (cache_misses st)
    (similar_book_requests st) (personalized_requests st) (trending_requests st + 1).

(** The manager is called without keyword parameters. *)
Definition no_params : list (string * string) := [].

(** [_get_from_cache(key)] *)
Definition _get_from_cache (key : string) (now : Z) (e : t)
  : option (list book) * t :=
  match cache_manager e with
  | Some m =>
      let '(r, m') := CacheManager.get (fun v => v) (fun v => v) key no_params now m in
      (r, {| stats_of := stats_of e; cache_manager := Some m' |})
  | None => (None, e)
  end.

(** [_set_cache(key, data, ttl)] *)
Definition _set_cache (key : string) (data : list book) (ttl : Z) (now : Z)
  (e : t) : t :=
  match cache_manager e with
  | Some m =>
      let '(_, m') :=
        CacheManager.set (fun v => v) (fun v => v) key data ttl no_params now m in
      {| stats_of := stats_of e; cache_manager := Some m' |}
  | None => e
  end.

(** [if cached_result:] *)
Definition truthy (cached_result : option (list book)) : bool :=
  match cached_result with
  | Some (_ :: _) => true
  | _ => false
  end.

(** [x.get("similarity_score", 0)] and [x["similarity_score"]] of a scored
    book *)
Definition score_of (b : book) : R := default 0%R (similarity_score b).

Definition with_score (b : book) (score : R) (reason : string) : book :=
  Book (book_id b) (name b) (author b) (description b) (category b) (tags b)
    (embedding b) (Some score) (Some reason).

Definition with_embedding (b : book) (e : list R) : book :=
  Book (book_id b) (name b) (author b) (description b) (category b) (tags b)
    (Val e) (similarity_score b) (recommendation_reason b).

(** [diversify_results(candidates, diversity_factor)] on books, with the
    default [max_per_category=3]. *)
Definition diversify (candidates : list book) (diversity_factor : R) : list book :=
  SimilarityEngine.diversify_results category score_of Rgtb candidates
    diversity_factor 3.

(** The value of [cosine_similarity], which has caught its exceptions. *)
Definition similarity_value (a b : list R) : R :=
  match SimilarityEngine.cosine_similarity (Some a) (Some b) with
  | Return r => r
  | Raise _ => 0%R
  end.

(** *** [get_trending_books] *)

Definition trending_key (limit time_window_days min_interactions : Z) : string :=
  "trending_" +:+ pretty limit +:+ "_" +:+ pretty time_window_days
  +:+ "_" +:+ pretty min_interactions.

Definition trending_book (row : trending_row) : book :=
  with_score (row_book row) (Rmin 1 (trend_score row / 100))
    ("Trending with " +:+ pretty (purchase_count row) +:+ " recent purchases").

(** [datetime.now() - timedelta(days=time_window_days)]; [None] is the
    [OverflowError] of a [timedelta] above 999999999 days or of a date out
    of range. *)
Definition cutoff (now time_window_days : Z) : option Z :=
  let date := now - time_window_days * 86400000000 in
  if (-999999999 <=? time_window_days) && (time_window_days <=? 999999999)
     && (InMemoryCache.datetime_min <=? date)
     && (date <=? InMemoryCache.datetime_max)
  then Some date else None.

Definition get_trending_books (limit time_window_days min_interactions : Z)
  (now : Z) (e : t) : list book * t :=
  let e := update_stats count_trending e in
  let cache_key := trending_key limit time_window_days min_interactions in
  let '(cached_result, e) := _get_from_cache cache_key now e in
  if truthy cached_result then (default [] cached_result, update_stats count_hit e)
  else
    let e := update_stats count_miss e in
    if negb (supabase svc) then ([], e)
    else
      match cutoff now time_window_days with
      | None => ([], e)
      | Some cutoff_date =>
          match trending_query svc cutoff_date min_interactions limit with
          | Raise _ => ([], e)
          | Return rows =>
              let trending_books := map trending_book rows in
              let e := _set_cache cache_key trending_books 1800 now e in
              (trending_books, update_stats count_generated e)
          end
      end.

(** *** [get_similar_books] *)

Definition similar_key (book_id : string) (limit : Z) (min_similarity : R) : string :=
  "similar_" +:+ book_id +:+ "_" +:+ pretty limit +:+ "_"
  +:+ str_of_float min_similarity.

(** The loop over the candidates. *)
Fixpoint similar_books_of (target_book : book) (target_embedding : list R)
  (min_similarity : R) (candidates : list book) : outcome (list book) :=
  match candidates with
  | [] => Return []
  | candidate :: rest =>
      match _get_or_generate_book_embedding svc candidate with
      | None => similar_books_of target_book target_embedding min_similarity rest
      | Some candidate_embedding =>
          let similarity := similarity_value target_embedding candidate_embedding in
          if Rge_dec similarity min_similarity then
            reason <- _generate_similarity_reason svc target_book candidate ;;
            more <- similar_books_of target_book target_embedding min_similarity rest ;;
            Return (with_score candidate similarity reason :: more)
          else similar_books_of target_book target_embedding min_similarity rest
      end
  end.

Definition get_similar_books (book_id : string) (limit : Z) (min_similarity : R)
  (exclude_categories : option (list string)) (now : Z) (e : t) : list book * t :=
  let e := update_stats count_similar e in
  let cache_key := similar_key book_id limit min_similarity in
  let '(cached_result, e) := _get_from_cache cache_key now e in
  if truthy cached_result then (default [] cached_result, update_stats count_hit e)
  else
    let e := update_stats count_miss e in
    match _get_book_data svc book_id with
    | None => ([], e)
    | Some target_book =>
        match _get_or_generate_book_embedding svc target_book with
        | None => ([], e)
        | Some target_embedding =>
            let candidates :=
              _get_candidate_books svc (Some book_id) None exclude_categories in
            match similar_books_of target_book target_embedding min_similarity
                    candidates with
            | Raise _ => ([], e)
            | Return similar_books =>
                let similar_books := sorted_by Rgtb score_of similar_books in
                let diversified_books :=
                  py_take limit (diversify (py_take (limit * 2) similar_books) 0.3) in
                let e := _set_cache cache_key diversified_books 3600 now e in
                (diversified_books, update_stats count_generated e)
            end
        end
    end.

(** *** [_build_user_profile] *)

(** The tallies [categories] and [authors], and [interaction_texts]. *)
Record tallies := Tallies {
  categories : list (string * R);
  authors : list (string * R);
  interaction_texts : list string;
}.

(** [d[k] = d.get(k, 0) + w] when [v] is a non-empty string *)
Definition tally (v : slot string) (w : R) (d : list (string * R))
  : list (string * R) :=
  match v with
  | Val (String c k) =>
      let key := String c k in
      PyDict.setitem key (default 0%R (PyDict.getitem key d) + w)%R d
  | _ => d
  end.

(** [int(x)] of a float that is not negative *)
Definition int_of (x : R) : nat := Z.to_nat (Int_part x).

Fixpoint collect (time_decay_factor : R) (now : Z) (interactions : list interaction)
  (acc : tallies) : outcome tallies :=
  match interactions with
  | [] => Return acc
  | i :: rest =>
      match interaction_book i with
      | None => collect time_decay_factor now rest acc
      | Some bk =>
          days <- days_old svc now (timestamp i) ;;
          let time_weight :=
            Rmax 0.1 (1 - IZR days * time_decay_factor / 365) in
          let final_weight := (weight i * time_weight)%R in
          let texts :=
            if Rlt_dec 0.5 final_weight
            then interaction_texts acc
                 ++ replicate (int_of final_weight) (process_book_text svc bk)
            else interaction_texts acc in
          collect time_decay_factor now rest
            (Tallies (tally (category bk) final_weight (categories acc))
               (tally (author bk) final_weight (authors acc)) texts)
      end
  end.

Definition top (n : nat) (d : list (string * R)) : list string :=
  map fst (take n (sorted_by Rgtb snd d)).

Definition _build_user_profile_try (interactions : list interaction)
  (time_decay_factor : R) (now : Z) : outcome user_profile :=
  acc <- collect time_decay_factor now interactions (Tallies [] [] []) ;;
  preference_embedding <-
    match interaction_texts acc with
    | [] => Return PyNone
    | texts =>
        v <- generate_user_preference_embedding svc texts ;;
        Return (Val v)
    end ;;
  Return (Profile preference_embedding
            (Val (top 5 (categories acc)))
            (Val (top 3 (authors acc)))
            (Some (Z.of_nat (length interactions)))).

(** [_build_user_profile(interactions, time_decay_factor)]; the [except]
    branch returns the empty dict. *)
Definition _build_user_profile (interactions : list interaction)
  (time_decay_factor : R) (now : Z) : user_profile :=
  match _build_user_profile_try interactions time_decay_factor now with
  | Return p => p
  | Raise _ => Profile Absent Absent Absent None
  end.

(** *** [get_personalized_recommendations] *)

Definition personalized_key (user_id : string) (limit : Z)
  (exclude_purchased : bool) : string :=
  "personalized_" +:+ user_id +:+ "_" +:+ pretty limit +:+ "_"
  +:+ (if exclude_purchased then "True" else "False").

(** [x in v] for the list under a key of the profile, [[]] when the key
    is not there; [None] is not a container. *)
Definition member_of (x : option string) (v : slot (list string)) : outcome bool :=
  match v with
  | Absent => Return false
  | PyNone => Raise TypeError
  | Val l =>
      Return (match x with
              | Some s => bool_decide (s ∈ l)
              | None => false
              end)
  end.

(** [f"{v}"] of a string or [None] *)
Definition str_of (v : option string) : string := default "None" v.

(** [_generate_personalized_reason(user_profile, book)] *)
Definition _generate_personalized_reason (p : user_profile) (b : book)
  : outcome string :=
  likes_category <- member_of (item (category b)) (favorite_categories p) ;;
  likes_author <- member_of (item (author b)) (favorite_authors p) ;;
  let reasons :=
    (if likes_category
     then ["you enjoy " +:+ str_of (item (category b)) +:+ " books"] else [])
    ++ (if likes_author
        then ["you like books by " +:+ str_of (item (author b))] else []) in
  let reasons :=
    match reasons with
    | [] => ["matches your reading preferences"]
    | _ => reasons
    end in
  Return ("Recommended because " +:+ String.concat ", " reasons).

(** The loop over the candidates. *)
Fixpoint recommendations_of (p : user_profile) (candidates : list book)
  : outcome (list book) :=
  match candidates with
  | [] => Return []
  | candidate :: rest =>
      match _get_or_generate_book_embedding svc candidate with
      | None => recommendations_of p rest
      | Some candidate_embedding =>
          affinity <- SimilarityEngine.calculate_user_book_affinity p
                        (with_embedding candidate candidate_embedding) ;;
          if Rlt_dec 0.2 affinity then
            reason <- _generate_personalized_reason p candidate ;;
            more <- recommendations_of p rest ;;
            Return (with_score candidate affinity reason :: more)
          else recommendations_of p rest
      end
  end.

Definition get_personalized_recommendations (user_id : string) (limit : Z)
  (exclude_purchased : bool) (time_decay_factor : R) (now : Z) (e : t)
  : list book * t :=
  let e := update_stats count_personalized e in
  let cache_key := personalized_key user_id limit exclude_purchased in
  let '(cached_result, e) := _get_from_cache cache_key now e in
  if truthy cached_result then (default [] cached_result, update_stats count_hit e)
  else
    let e := update_stats count_miss e in
    match _get_user_interactions svc user_id with
    | [] => get_trending_books limit 30 5 now e
    | user_interactions =>
        let user_profile :=
          _build_user_profile user_interactions time_decay_factor now in
        let exclude_book_ids :=
          if exclude_purchased then _get_user_purchased_books svc user_id else [] in
        let candidates :=
          _get_candidate_books svc None (Some exclude_book_ids) None in
        match recommendations_of user_profile candidates with
        | Raise _ => ([], e)
        | Return recommendations =>
            let recommendations := sorted_by Rgtb score_of recommendations in
            let diversified_recs :=
              py_take limit (diversify (py_take (limit * 2) recommendations) 0.4) in
            let e := _set_cache cache_key diversified_recs 1800 now e in
            (diversified_recs, update_stats count_generated e)
        end
    end.

End RecommendationEngine.
End RecommendationEngine.

(** ** [services/text_processor.py]: class [TextProcessor]

    The two methods on Myanmar script read a [str] one character at a
    time: here a text is the list of its code points. *)

Module TextProcessor.

Definition myanmar_unicode_range : Z * Z := (0x1000, 0x109F).
Definition myanmar_extended_range : Z * Z := (0xAA60, 0xAA7F).

(** [contains_myanmar(text)] *)
Fixpoint contains_myanmar (text : list Z) : bool :=
  match text with
  | [] => false
  | char_code :: rest =>
      if (myanmar_unicode_range.1 <=? char_code)
         && (char_code <=? myanmar_unicode_range.2)
         || (myanmar_extended_range.1 <=? char_code)
            && (char_code <=? myanmar_extended_range.2)
      then true
      else contains_myanmar rest
  end.

(** [text.replace(old, new)] for two strings of one character each *)
Definition replace (old new : Z) (text : list Z) : list Z :=
  map (fun c => if decide (c = old) then new else c) text.

(** The items of the dict [myanmar_to_ascii], in their order: the Myanmar
    digits U+1040 to U+1049, each with the character ['0'] to ['9']. *)
Definition myanmar_to_ascii : list (Z * Z) :=
  [(0x1040, 0x30); (0x1041, 0x31); (0x1042, 0x32); (0x1043, 0x33);
   (0x1044, 0x34); (0x1045, 0x35); (0x1046, 0x36); (0x1047, 0x37);
   (0x1048, 0x38); (0x1049, 0x39)].

(** [normalize_myanmar_text(text)] *)
Definition normalize_myanmar_text (text : list Z) : list Z :=
  if negb (contains_myanmar text) then text
  else
    foldl (fun text '(mm_digit, ascii_digit) => replace mm_digit ascii_digit text)
      text myanmar_to_ascii.

End TextProcessor.

(** * Part II: properties *)

Section PyDictFacts.
Context {K V : Type} `{EqDecision K}.
Implicit Types (d : list (K * V)).

Lemma keys_setitem k v d x :
  x ∈ PyDict.keys (PyDict.setitem k v d) <-> x = k \/ x ∈ PyDict.keys d.
Proof.
  unfold PyDict.keys. induction d as [|[k' v'] d IH]; simpl.
  - rewrite elem_of_cons, elem_of_nil. tauto.
  - destruct (decide (k' = k)) as [->|Hne]; simpl.
    + rewrite !elem_of_cons. tauto.
    + rewrite !elem_of_cons, IH. tauto.
Qed.

Lemma keys_pop k d x :
  x ∈ PyDict.keys (PyDict.pop k d) <-> x <> k /\ x ∈ PyDict.keys d.
Proof.
  unfold PyDict.keys, PyDict.pop. induction d as [|[k' v'] d IH]; simpl.
  - rewrite elem_of_nil. tauto.
  - rewrite filter_cons. simpl. destruct (decide (k' <> k)) as [Hne|Heq]; simpl.
    + rewrite !elem_of_cons, IH. split; [intros [->|[? ?]]|]; tauto.
    + apply dec_stable in Heq. subst k'.
      rewrite elem_of_cons, IH. split; [tauto|]. intros [? [?|?]]; tauto.
Qed.

End PyDictFacts.

Section StableSortFacts.
Context {A B : Type} (before : B -> B -> bool) (key : A -> B).

Lemma insert_sorted_perm x l : insert_sorted before key x l ≡ₚ x :: l.
Proof.
  induction l as [|y l IH]; simpl; [done|].
  destruct (before (key y) (key x)); [|done].
  rewrite IH. apply Permutation_swap.
Qed.

Lemma sorted_by_perm l : sorted_by before key l ≡ₚ l.
Proof.
  induction l as [|x l IH]; simpl; [done|].
  rewrite insert_sorted_perm. by rewrite IH.
Qed.

End StableSortFacts.

(** ** The in-memory cache *)

Section InMemoryCacheFacts.
Context {V : Type}.
Implicit Types (c : InMemoryCache.t V) (key : string).

(** The two dicts of the object hold the same keys. *)
Definition wf c : Prop :=
  forall k, k ∈ PyDict.keys (InMemoryCache.access_times c)
            <-> is_Some (InMemoryCache.cache c !! k).

Lemma wf_init m : wf (InMemoryCache.init m).
Proof.
  intros k. simpl. rewrite elem_of_nil, lookup_empty.
  split; [tauto|]. by intros [? ?].
Qed.

Lemma max_size_delete key c :
  InMemoryCache.max_size (InMemoryCache.delete key c).2 = InMemoryCache.max_size c.
Proof. unfold InMemoryCache.delete. by destruct (_ !! key). Qed.

Lemma wf_delete key c : wf c -> wf (InMemoryCache.delete key c).2.
Proof.
  intros Hwf k. unfold InMemoryCache.delete.
  destruct (InMemoryCache.cache c !! key) eqn:E; simpl; [|apply Hwf].
  rewrite keys_pop, (Hwf k). destruct (decide (k = key)) as [->|Hne].
  - rewrite lookup_delete_eq. split; [tauto|]. by intros [? ?].
  - rewrite lookup_delete_ne by done. tauto.
Qed.

Lemma size_delete_le key c :
  (size (InMemoryCache.cache (InMemoryCache.delete key c).2)
   <= size (InMemoryCache.cache c))%nat.
Proof.
  unfold InMemoryCache.delete.
  destruct (InMemoryCache.cache c !! key) eqn:E; simpl; [|lia].
  rewrite map_size_delete, E. lia.
Qed.

Lemma size_delete_present key c :
  is_Some (InMemoryCache.cache c !! key) ->
  S (size (InMemoryCache.cache (InMemoryCache.delete key c).2))
  = size (InMemoryCache.cache c).
Proof.
  intros [e E]. unfold InMemoryCache.delete. rewrite E. simpl.
  rewrite map_size_delete, E.
  assert (size (InMemoryCache.cache c) <> 0%nat); [|lia].
  apply map_size_non_empty_iff. intros Hempty.
  rewrite Hempty, lookup_empty in E. discriminate.
Qed.

(** Deleting a list of keys one after the other, as the loop of
    [_evict_oldest] does. *)
Lemma delete_all_props (ks : list string) c :
  wf c ->
  let c' := foldl (fun c' key => (InMemoryCache.delete key c').2) c ks in
  wf c'
  /\ InMemoryCache.max_size c' = InMemoryCache.max_size c
  /\ (size (InMemoryCache.cache c') <= size (InMemoryCache.cache c))%nat.
Proof.
  revert c. induction ks as [|k ks IH]; intros c Hwf; simpl.
  - split; [done|]. split; [done|lia].
  - destruct (IH (InMemoryCache.delete k c).2 (wf_delete k c Hwf)) as (H1 & H2 & H3).
    split; [done|]. split; [by rewrite H2, max_size_delete|].
    pose proof (size_delete_le k c). lia.
Qed.

Lemma keys_to_remove_head c :
  InMemoryCache.access_times c <> [] ->
  exists k ks, InMemoryCache.keys_to_remove c = k :: ks
               /\ k ∈ PyDict.keys (InMemoryCache.access_times c).
Proof.
  intros Hne. unfold InMemoryCache.keys_to_remove.
  pose proof (sorted_by_perm Z.ltb snd (InMemoryCache.access_times c)) as Hp.
  destruct (sorted_by Z.ltb snd (InMemoryCache.access_times c)) as [|[k v] l] eqn:E.
  - symmetry in Hp. apply Permutation_nil_r in Hp. done.
  - destruct (Nat.max 1 (length ((k, v) :: l) / 10)) as [|n] eqn:En; [lia|].
    simpl. exists k, (map fst (take n l)). split; [done|].
    unfold PyDict.keys. rewrite <- Hp. simpl. left.
Qed.

Lemma evict_oldest_props c :
  wf c ->
  wf (InMemoryCache._evict_oldest c)
  /\ InMemoryCache.max_size (InMemoryCache._evict_oldest c) = InMemoryCache.max_size c
  /\ (size (InMemoryCache.cache (InMemoryCache._evict_oldest c))
      <= size (InMemoryCache.cache c))%nat
  /\ (InMemoryCache.cache c <> ∅ ->
      (size (InMemoryCache.cache (InMemoryCache._evict_oldest c))
       < size (InMemoryCache.cache c))%nat).
Proof.
  intros Hwf. unfold InMemoryCache._evict_oldest.
  destruct (InMemoryCache.access_times c) as [|kv l] eqn:E.
  - split; [done|]. split; [done|]. split; [lia|]. intros Hne.
    apply map_size_non_empty_iff, map_size_ne_0_lookup in Hne as [k Hk].
    apply Hwf in Hk. rewrite E in Hk. by apply elem_of_nil in Hk.
  - destruct (keys_to_remove_head c) as (k & ks & Hks & Hk); [by rewrite E|].
    rewrite Hks. simpl. apply Hwf in Hk.
    destruct (delete_all_props ks _ (wf_delete k c Hwf)) as (H1 & H2 & H3).
    pose proof (size_delete_present k c Hk).
    split; [done|]. split; [by rewrite H2, max_size_delete|]. split; lia.
Qed.

(** [_evict_oldest] removes the entries under [keys_to_remove] and no
    other. *)
Lemma delete_all_lookup (ks : list string) c k :
  InMemoryCache.cache (foldl (fun c' key => (InMemoryCache.delete key c').2) c ks)
  !! k
  = if bool_decide (k ∈ ks) then None else InMemoryCache.cache c !! k.
Proof.
  revert c. induction ks as [|key ks IH]; intros c; simpl.
  - destruct (bool_decide_reflect (k ∈ [])) as [Hin|_]; [|done].
    by apply elem_of_nil in Hin.
  - rewrite IH. unfold InMemoryCache.delete.
    destruct (bool_decide_reflect (k ∈ ks)) as [Hks|Hks];
      destruct (bool_decide_reflect (k ∈ key :: ks)) as [Hin|Hin]; try done.
    + exfalso. apply Hin. by right.
    + apply elem_of_cons in Hin as [->|Hin]; [|done].
      destruct (InMemoryCache.cache c !! key) eqn:E; simpl; [|done].
      apply lookup_delete_eq.
    + assert (k <> key) as Hne by (intros ->; apply Hin; left).
      destruct (InMemoryCache.cache c !! key) eqn:E; simpl; [|done].
      by apply lookup_delete_ne.
Qed.

Lemma evict_oldest_lookup c k :
  InMemoryCache.cache (InMemoryCache._evict_oldest c) !! k
  = if bool_decide (k ∈ InMemoryCache.keys_to_remove c) then None
    else InMemoryCache.cache c !! k.
Proof.
  unfold InMemoryCache._evict_oldest.
  destruct (InMemoryCache.access_times c) eqn:E; [|apply delete_all_lookup].
  unfold InMemoryCache.keys_to_remove. rewrite E. simpl.
  destruct (bool_decide_reflect (k ∈ [])) as [Hin|_]; [|done].
  by apply elem_of_nil in Hin.
Qed.

Lemma insert_sorted_time_HdRel (a x : string * Z) l :
  a.2 <= x.2 -> HdRel (fun p q : string * Z => p.2 <= q.2) a l ->
  HdRel (fun p q : string * Z => p.2 <= q.2) a (insert_sorted Z.ltb snd x l).
Proof.
  intros Hax Hl. destruct l as [|y l]; simpl; [by constructor|].
  inversion Hl; subst. destruct (y.2 <? x.2); by constructor.
Qed.

Lemma sorted_by_time_Sorted (l : list (string * Z)) :
  Sorted (fun p q : string * Z => p.2 <= q.2) (sorted_by Z.ltb snd l).
Proof.
  induction l as [|x l IH]; simpl; [constructor|].
  induction IH as [|y l' Hl' IH' Hy]; simpl; [by repeat constructor|].
  destruct (Z.ltb_spec y.2 x.2).
  - constructor; [done|]. apply insert_sorted_time_HdRel; [lia|done].
  - constructor; [by constructor|]. by constructor.
Qed.

(** The keys removed are those of the first [max(1, n // 10)] pairs of the
    access times in order of time, and no pair after them is older. *)
Lemma keys_to_remove_oldest c :
  let sorted_keys := sorted_by Z.ltb snd (InMemoryCache.access_times c) in
  let n := Nat.max 1 (length sorted_keys / 10) in
  sorted_keys ≡ₚ InMemoryCache.access_times c
  /\ InMemoryCache.keys_to_remove c = (take n sorted_keys).*1
  /\ (forall removed kept, removed ∈ take n sorted_keys ->
        kept ∈ drop n sorted_keys -> removed.2 <= kept.2).
Proof.
  intros sorted_keys n. split; [apply sorted_by_perm|]. split; [done|].
  intros removed kept Hr Hk.
  assert (Transitive (fun p q : string * Z => p.2 <= q.2)) as Htrans.
  { intros x y z ??. lia. }
  pose proof (Sorted_StronglySorted _ _ (sorted_by_time_Sorted
                                           (InMemoryCache.access_times c))) as Hs.
  fold sorted_keys in Hs. rewrite <- (take_drop n sorted_keys) in Hs.
  by apply (StronglySorted_app_1_elem_of _ _ _ _ _ Hs).
Qed.

End InMemoryCacheFacts.

Section InMemoryCacheClaims.
Context {V : Type} `{PyValue V}.
Implicit Types (c : InMemoryCache.t V) (key : string).

(** What a sequence of calls preserves, for a capacity [m] of at least 1. *)
Definition bounded (m : Z) c : Prop :=
  wf c /\ InMemoryCache.max_size c = m
  /\ Z.of_nat (size (InMemoryCache.cache c)) <= m.

Lemma bounded_delete m key c :
  bounded m c -> bounded m (InMemoryCache.delete key c).2.
Proof.
  intros (Hwf & Hm & Hs). split; [by apply wf_delete|].
  split; [by rewrite max_size_delete|].
  pose proof (size_delete_le key c). lia.
Qed.

Lemma bounded_get m key now c :
  bounded m c -> bounded m (InMemoryCache.get key now c).2.
Proof.
  intros Hb. unfold InMemoryCache.get.
  destruct (InMemoryCache.cache c !! key) as [e|] eqn:E; [|done].
  destruct (InMemoryCache.expires_at e >? now); [|by apply bounded_delete].
  destruct Hb as (Hwf & Hm & Hs). split; [|done].
  intros k. simpl. rewrite keys_setitem, (Hwf k).
  split; [intros [->|?]; [by rewrite E|done]|tauto].
Qed.

Lemma bounded_set m key (v : V) ttl now c :
  1 <= m -> bounded m c -> bounded m (InMemoryCache.set key v ttl now c).2.
Proof.
  intros Hm1 (Hwf & Hm & Hs). unfold InMemoryCache.set.
  set (c1 := if _ >=? _ then _ else c).
  assert (wf c1 /\ InMemoryCache.max_size c1 = m
          /\ Z.of_nat (size (InMemoryCache.cache c1)) < m) as (Hwf1 & Hm1' & Hs1).
  { subst c1. destruct (Z.geb_spec (Z.of_nat (size (InMemoryCache.cache c)))
                          (InMemoryCache.max_size c)) as [Hge|Hlt].
    - destruct (evict_oldest_props c Hwf) as (H1 & H2 & _ & H4).
      split; [done|]. split; [congruence|].
      assert (InMemoryCache.cache c <> ∅) as Hne.
      { apply map_size_non_empty_iff. lia. }
      specialize (H4 Hne). lia.
    - split; [done|]. split; [done|lia]. }
  clearbody c1.
  destruct (InMemoryCache.expiry now ttl) as [expires_at|];
    [|split; [done|]; split; [done|]; cbn [snd]; lia].
  split; [|split; [done|]]; cbn [snd InMemoryCache.cache InMemoryCache.access_times].
  - intros k. cbn [InMemoryCache.cache InMemoryCache.access_times].
    rewrite keys_setitem, (Hwf1 k).
    destruct (decide (k = key)) as [->|Hne].
    + rewrite lookup_insert_eq. split; [eauto|tauto].
    + rewrite lookup_insert_ne by done. tauto.
  - rewrite map_size_insert.
    destruct (InMemoryCache.cache c1 !! key); simpl; lia.
Qed.

Lemma bounded_step m c (o : InMemoryCache.op V) :
  1 <= m -> bounded m c -> bounded m (InMemoryCache.step c o).
Proof.
  intros Hm Hb. destruct o as [key now|key v ttl now|key| |key now]; simpl.
  - by apply bounded_get.
  - by apply bounded_set.
  - by apply bounded_delete.
  - destruct Hb as (_ & Hmax & _). split; [apply (wf_init 0)|].
    split; [done|]. simpl. rewrite map_size_empty. lia.
  - unfold InMemoryCache.exists_.
    pose proof (bounded_get m key now c Hb) as Hg.
    by destruct (InMemoryCache.get key now c).
Qed.

Lemma bounded_run m (ops : list (InMemoryCache.op V)) c :
  1 <= m -> bounded m c -> bounded m (InMemoryCache.run ops c).
Proof.
  intros Hm. revert c. unfold InMemoryCache.run.
  induction ops as [|o ops IH]; intros c Hb; simpl; [done|].
  apply IH. by apply bounded_step.
Qed.

(** C8 (as amended).  For a capacity of at least 1 and every sequence of
    [get], [set], [delete], [clear] and [exists] calls on a new cache, the
    number of stored entries never exceeds the capacity.  In every state so
    reached in which [set] finds the store at capacity, [_evict_oldest]
    leaves strictly fewer entries than it found, before [set] inserts;
    the entries it removes are those of the first [max(1, n // 10)] keys
    in order of access time, and no key it keeps was accessed earlier. *)
Theorem capacity_bound (max_size : Z) (ops : list (InMemoryCache.op V)) :
  1 <= max_size ->
  let c := InMemoryCache.run ops (InMemoryCache.init max_size) in
  let sorted_keys := sorted_by Z.ltb snd (InMemoryCache.access_times c) in
  let n := Nat.max 1 (length sorted_keys / 10) in
  Z.of_nat (size (InMemoryCache.cache c)) <= max_size
  /\ (Z.of_nat (size (InMemoryCache.cache c)) >= InMemoryCache.max_size c ->
      (size (InMemoryCache.cache (InMemoryCache._evict_oldest c))
       < size (InMemoryCache.cache c))%nat)
  /\ (forall k,
        InMemoryCache.cache (InMemoryCache._evict_oldest c) !! k
        = if bool_decide (k ∈ (take n sorted_keys).*1) then None
          else InMemoryCache.cache c !! k)
  /\ (forall removed kept, removed ∈ take n sorted_keys ->
        kept ∈ drop n sorted_keys -> removed.2 <= kept.2).
Proof.
  intros Hm c sorted_keys n.
  assert (bounded max_size c) as (Hwf & Hmax & Hs).
  { apply bounded_run; [done|]. split; [apply wf_init|].
    split; [done|]. simpl. rewrite map_size_empty. lia. }
  split; [done|]. split.
  { intros Hfull.
    destruct (evict_oldest_props c Hwf) as (_ & _ & _ & H4). apply H4.
    apply map_size_non_empty_iff. lia. }
  destruct (keys_to_remove_oldest c) as (_ & Hkeys & Hold).
  split; [|exact Hold].
  intros k. rewrite evict_oldest_lookup. by rewrite Hkeys.
Qed.

Lemma gets_hits key (v : V) exp ts c :
  (exists e, InMemoryCache.cache c !! key = Some e
             /\ InMemoryCache.value e = v /\ InMemoryCache.expires_at e = exp) ->
  Forall (fun t => t < exp) ts ->
  (InMemoryCache.gets key ts c).1 = replicate (length ts) (Some v)
  /\ InMemoryCache.cache (InMemoryCache.gets key ts c).2 = InMemoryCache.cache c.
Proof.
  intros He Hts. revert c He.
  induction Hts as [|t ts Ht Hts IH]; intros c (e & E & Hv & Hexp); simpl; [done|].
  unfold InMemoryCache.get. rewrite E.
  destruct (Z.gtb_spec (InMemoryCache.expires_at e) t) as [_|Hle]; [|lia].
  set (c1 := InMemoryCache.Make _ _ _).
  destruct (IH c1) as [H1 H2]; [by exists e|].
  destruct (InMemoryCache.gets key ts c1) as [rs c2]. simpl in *.
  by rewrite H1, H2, Hv.
Qed.

(** What [set] does when the expiry time is not a [datetime]: it returns
    [False] and stores nothing; the eviction, if the store was full, has
    taken place. *)
Lemma set_out_of_range key (v : V) (ttl now : Z) c :
  InMemoryCache.in_range now ttl = false ->
  InMemoryCache.set key v ttl now c
  = (false,
     if Z.of_nat (size (InMemoryCache.cache c)) >=? InMemoryCache.max_size c
     then InMemoryCache._evict_oldest c else c).
Proof.
  intros Hrange. unfold InMemoryCache.set, InMemoryCache.expiry.
  by rewrite Hrange.
Qed.

Lemma set_in_range key (v : V) (ttl now : Z) c :
  InMemoryCache.in_range now ttl = true ->
  let c1 :=
    if Z.of_nat (size (InMemoryCache.cache c)) >=? InMemoryCache.max_size c
    then InMemoryCache._evict_oldest c else c in
  InMemoryCache.set key v ttl now c
  = (true,
     InMemoryCache.Make
       (<[key := InMemoryCache.Entry v (now + InMemoryCache.timedelta_seconds ttl)
                   now]> (InMemoryCache.cache c1))
       (InMemoryCache.max_size c1)
       (PyDict.setitem key now (InMemoryCache.access_times c1))).
Proof.
  intros Hrange. unfold InMemoryCache.set, InMemoryCache.expiry.
  by rewrite Hrange.
Qed.

(** C4 (as amended).  After [set(key, v, ttl)] at time [now], with a
    positive [ttl] whose expiry time [now + ttl] is a [datetime]: [set]
    returns [True]; [get(key)] at once returns [v]; every [get(key)] at a
    time before [ttl] seconds have passed returns [v], however many there
    are; and the first [get(key)] at a time when [ttl] seconds have passed
    is a miss that removes the entry from both dicts of the store. *)
Theorem set_then_get key (v : V) (ttl now : Z) c (ts : list Z) (late : Z) :
  0 < ttl ->
  InMemoryCache.in_range now ttl = true ->
  Forall (fun t => t < now + InMemoryCache.timedelta_seconds ttl) ts ->
  now + InMemoryCache.timedelta_seconds ttl <= late ->
  let c1 := (InMemoryCache.set key v ttl now c).2 in
  let c2 := (InMemoryCache.gets key ts c1).2 in
  let c3 := (InMemoryCache.get key late c2).2 in
  (InMemoryCache.set key v ttl now c).1 = true
  /\ (InMemoryCache.get key now c1).1 = Some v
  /\ (InMemoryCache.gets key ts c1).1 = replicate (length ts) (Some v)
  /\ (InMemoryCache.get key late c2).1 = None
  /\ InMemoryCache.cache c3 !! key = None
  /\ key ∉ PyDict.keys (InMemoryCache.access_times c3).
Proof.
  intros Httl Hrange Hts Hlate c1 c2 c3.
  set (e := InMemoryCache.Entry v (now + InMemoryCache.timedelta_seconds ttl) now).
  assert (InMemoryCache.cache c1 !! key = Some e) as E1.
  { subst c1. rewrite set_in_range by done. simpl. by rewrite lookup_insert_eq. }
  destruct (gets_hits key v _ ts c1 (ex_intro _ e (conj E1 (conj eq_refl eq_refl))) Hts)
    as [Hrs Hc2].
  fold c2 in Hc2.
  assert (InMemoryCache.cache c2 !! key = Some e) as E2 by (by rewrite Hc2).
  split; [by rewrite set_in_range|]. split.
  { unfold InMemoryCache.get. rewrite E1. simpl.
    unfold InMemoryCache.timedelta_seconds in *.
    destruct (Z.gtb_spec (now + ttl * 1000000) now); [done|lia]. }
  split; [done|].
  subst c3. unfold InMemoryCache.get. rewrite E2. simpl.
  destruct (Z.gtb_spec (now + InMemoryCache.timedelta_seconds ttl) late); [lia|].
  unfold InMemoryCache.delete. rewrite E2. simpl.
  split; [done|]. split; [apply lookup_delete_eq|].
  rewrite keys_pop. tauto.
Qed.

End InMemoryCacheClaims.

(** A one-second entry read at once, half a second later, and after two
    seconds. *)
Lemma set_then_get_witness :
  let c1 := (InMemoryCache.set "k" 7%nat 1 0 (InMemoryCache.init 1000)).2 in
  let c2 := (InMemoryCache.gets "k" [0; 500000] c1).2 in
  let c3 := (InMemoryCache.get "k" 2000000 c2).2 in
  (InMemoryCache.set "k" 7%nat 1 0 (InMemoryCache.init 1000)).1 = true
  /\ (InMemoryCache.get "k" 0 c1).1 = Some 7%nat
  /\ (InMemoryCache.gets "k" [0; 500000] c1).1 = replicate 2 (Some 7%nat)
  /\ (InMemoryCache.get "k" 2000000 c2).1 = None
  /\ InMemoryCache.cache c3 !! "k" = None
  /\ "k" ∉ PyDict.keys (InMemoryCache.access_times c3).
Proof.
  apply (set_then_get "k" 7%nat 1 0 (InMemoryCache.init 1000) [0; 500000] 2000000).
  - lia.
  - reflexivity.
  - repeat constructor; unfold InMemoryCache.timedelta_seconds; lia.
  - unfold InMemoryCache.timedelta_seconds; lia.
Defined.

(** C4 as stated fails for a [ttl] of 10^12 seconds: in 1970, and in every
    year since, the expiry time is past [datetime.max], the year 9999.
    [set] returns [False], nothing is stored, and [get] at once is a
    miss. *)
Lemma set_ttl_overflow :
  let r := InMemoryCache.set "k" 7%nat 1000000000000 0 (InMemoryCache.init 1000) in
  0 < 1000000000000
  /\ r.1 = false
  /\ InMemoryCache.cache r.2 !! "k" = None
  /\ (InMemoryCache.get "k" 0 r.2).1 = None.
Proof. split; [lia|]. vm_compute. done. Qed.

Lemma capacity_bound_witness :
  let c := InMemoryCache.run
             [InMemoryCache.Set_ "a" 1%nat 60 0; InMemoryCache.Set_ "b" 2%nat 60 1;
              InMemoryCache.Set_ "c" 3%nat 60 2]
             (InMemoryCache.init 2) in
  let sorted_keys := sorted_by Z.ltb snd (InMemoryCache.access_times c) in
  let n := Nat.max 1 (length sorted_keys / 10) in
  Z.of_nat (size (InMemoryCache.cache c)) <= 2
  /\ (Z.of_nat (size (InMemoryCache.cache c)) >= InMemoryCache.max_size c ->
      (size (InMemoryCache.cache (InMemoryCache._evict_oldest c))
       < size (InMemoryCache.cache c))%nat)
  /\ (forall k,
        InMemoryCache.cache (InMemoryCache._evict_oldest c) !! k
        = if bool_decide (k ∈ (take n sorted_keys).*1) then None
          else InMemoryCache.cache c !! k)
  /\ (forall removed kept, removed ∈ take n sorted_keys ->
        kept ∈ drop n sorted_keys -> removed.2 <= kept.2).
Proof.
  apply (capacity_bound 2
           [InMemoryCache.Set_ "a" 1%nat 60 0; InMemoryCache.Set_ "b" 2%nat 60 1;
            InMemoryCache.Set_ "c" 3%nat 60 2]).
  lia.
Defined.

(** The third [set] of this run finds two entries, evicts the one under
    ["a"], the oldest, and stores its own. *)
Example capacity_two_run :
  let c := InMemoryCache.run
             [InMemoryCache.Set_ "a" 1%nat 60 0; InMemoryCache.Set_ "b" 2%nat 60 1;
              InMemoryCache.Set_ "c" 3%nat 60 2]
             (InMemoryCache.init 2) in
  PyDict.keys (InMemoryCache.access_times c) = ["b"; "c"]
  /\ size (InMemoryCache.cache c) = 2%nat.
Proof. vm_compute. done. Qed.

(** C8 as stated fails for a capacity of 0: the first [set] finds the
    empty store at capacity, has nothing to evict, and stores its entry. *)
Lemma capacity_zero_exceeded :
  let c := InMemoryCache.run [InMemoryCache.Set_ "a" 1%nat 60 0]
             (InMemoryCache.init 0) in
  InMemoryCache._evict_oldest (InMemoryCache.init (V:=nat) 0) = InMemoryCache.init 0
  /\ ~ (Z.of_nat (size (InMemoryCache.cache c)) <= 0).
Proof.
  split; [reflexivity|]. vm_compute. intros H. apply H. reflexivity.
Qed.

(** ** Cache keys *)

Lemma string_length_app (s1 s2 : string) :
  String.length (s1 +:+ s2) = (String.length s1 + String.length s2)%nat.
Proof. induction s1 as [|a s1 IH]; simpl; [done|]. by rewrite IH. Qed.

Section CacheKeyFacts.
Context {P : Type} (format : P -> string) (md5_hexdigest : string -> string).

Definition key_le (x y : string * P) : Prop := String.le x.1 y.1.

Lemma ltb_false_le (s1 s2 : string) : String.ltb s1 s2 = false -> String.le s2 s1.
Proof.
  unfold String.ltb, String.le, String.leb. rewrite (String.compare_antisym s1 s2).
  destruct (String.compare s2 s1); simpl; done.
Qed.

Lemma ltb_true_le (s1 s2 : string) : String.ltb s1 s2 = true -> String.le s1 s2.
Proof.
  unfold String.ltb, String.le, String.leb.
  destruct (String.compare s1 s2); simpl; done.
Qed.

Lemma key_le_trans : Transitive key_le.
Proof. intros x y z. unfold key_le. apply transitivity. Qed.

Lemma insert_sorted_HdRel (a x : string * P) l :
  key_le a x -> HdRel key_le a l ->
  HdRel key_le a (insert_sorted String.ltb fst x l).
Proof.
  intros Hax Hl. destruct l as [|y l]; simpl; [by constructor|].
  inversion Hl; subst. destruct (String.ltb y.1 x.1); by constructor.
Qed.

Lemma insert_sorted_Sorted (x : string * P) l :
  Sorted key_le l -> Sorted key_le (insert_sorted String.ltb fst x l).
Proof.
  induction 1 as [|y l Hl IH Hy]; simpl; [by repeat constructor|].
  destruct (String.ltb y.1 x.1) eqn:E.
  - constructor; [done|]. apply insert_sorted_HdRel; [|done].
    by apply ltb_true_le.
  - constructor; [by constructor|]. constructor. by apply ltb_false_le.
Qed.

Lemma sorted_by_Sorted (l : list (string * P)) :
  Sorted key_le (sorted_by String.ltb fst l).
Proof.
  induction l as [|x l IH]; simpl; [constructor|]. by apply insert_sorted_Sorted.
Qed.

(** Two listings of one dict sort to the same list. *)
Lemma sorted_by_order_independent (l1 l2 : list (string * P)) :
  NoDup (PyDict.keys l1) -> l1 ≡ₚ l2 ->
  sorted_by String.ltb fst l1 = sorted_by String.ltb fst l2.
Proof.
  intros Hnd Hp.
  pose proof key_le_trans as Htrans.
  apply (Sorted_unique_strong key_le); [|apply sorted_by_Sorted..|].
  - intros x1 x2 Hx1 Hx2 H12 H21.
    rewrite sorted_by_perm in Hx1. rewrite sorted_by_perm, <- Hp in Hx2.
    assert (x1.1 = x2.1) as Hk by (by apply (anti_symm String.le)).
    apply list_elem_of_lookup in Hx1 as [i Hi], Hx2 as [j Hj].
    assert (i = j) as ->.
    { eapply (NoDup_lookup (PyDict.keys l1)); [done| |];
        unfold PyDict.keys; rewrite list_lookup_fmap.
      - by rewrite Hi.
      - rewrite Hj. simpl. by rewrite Hk. }
    congruence.
  - by rewrite !sorted_by_perm.
Qed.

(** C7.  The key does not depend on the order in which the parameters of
    one dict are listed; and when the encoded parameter string is longer
    than 100 characters the key is the base key, a colon and the 32
    characters of the digest of that string. *)
Theorem generate_cache_key_canonical (base_key : string)
  (params1 params2 : list (string * P)) :
  (forall s, String.length (md5_hexdigest s) = 32%nat) ->
  NoDup (PyDict.keys params1) ->
  params1 ≡ₚ params2 ->
  CacheManager._generate_cache_key format md5_hexdigest base_key params1
  = CacheManager._generate_cache_key format md5_hexdigest base_key params2
  /\ ((100 < String.length (CacheManager.param_string format params1))%nat ->
      CacheManager._generate_cache_key format md5_hexdigest base_key params1
      = base_key +:+ ":" +:+ md5_hexdigest (CacheManager.param_string format params1)
      /\ String.length
           (CacheManager._generate_cache_key format md5_hexdigest base_key params1)
         = (String.length base_key + 33)%nat).
Proof.
  intros Hmd5 Hnd Hp.
  assert (CacheManager.param_string format params1
          = CacheManager.param_string format params2) as Hps.
  { unfold CacheManager.param_string.
    by rewrite (sorted_by_order_independent params1 params2). }
  split.
  - unfold CacheManager._generate_cache_key. rewrite Hps.
    destruct params1 as [|p1 l1], params2 as [|p2 l2]; try done.
    + by apply Permutation_nil_cons in Hp.
    + symmetry in Hp. by apply Permutation_nil_cons in Hp.
  - intros Hlong.
    assert (CacheManager._generate_cache_key format md5_hexdigest base_key params1
            = base_key +:+ ":" +:+
              md5_hexdigest (CacheManager.param_string format params1)) as Hkey.
    { unfold CacheManager._generate_cache_key.
      destruct params1 as [|p1 l1]; [simpl in Hlong; lia|].
      destruct (Nat.ltb_spec 100
                  (String.length (CacheManager.param_string format (p1 :: l1))));
        [done|lia]. }
    split; [done|]. rewrite Hkey.
    rewrite !string_length_app, Hmd5. simpl. lia.
Qed.

End CacheKeyFacts.

(** A long value: the parameters [{q: "xx..x", b: 2}] with 101 times [x],
    listed in both orders. *)
Definition long_query : string :=
  "xxxxxxxxxxxxxxxxxxxxxxxxxxxxxxxxxxxxxxxxxxxxxxxxxxxxxxxxxxxxxxxxxxxxxxxxxxxxxxxxxxxxxxxxxxxxxxxxxxxxx".

Lemma generate_cache_key_canonical_witness :
  let md5 := fun _ : string => "d41d8cd98f00b204e9800998ecf8427e" in
  let same := fun v : string => v in
  CacheManager._generate_cache_key same md5 "recs" [("q", long_query); ("b", "2")]
  = CacheManager._generate_cache_key same md5 "recs" [("b", "2"); ("q", long_query)]
  /\ CacheManager._generate_cache_key same md5 "recs" [("q", long_query); ("b", "2")]
     = "recs" +:+ ":" +:+
       md5 (CacheManager.param_string same [("q", long_query); ("b", "2")])
  /\ String.length
       (CacheManager._generate_cache_key same md5 "recs"
          [("q", long_query); ("b", "2")])
     = (String.length "recs" + 33)%nat.
Proof.
  intros md5 same.
  destruct (generate_cache_key_canonical same md5 "recs"
              [("q", long_query); ("b", "2")] [("b", "2"); ("q", long_query)])
    as [Hsame Hlong].
  - intros s. reflexivity.
  - apply NoDup_cons. split; [|apply NoDup_singleton].
    intros H. apply list_elem_of_singleton in H. discriminate.
  - apply Permutation_swap.
  - split; [exact Hsame|]. apply Hlong. vm_compute. lia.
Defined.

Example generate_cache_key_ab :
  CacheManager._generate_cache_key (fun v : string => v) (fun v : string => v) "recs" [("b", "2"); ("a", "1")]
  = "recs:a=1&b=2".
Proof. reflexivity. Qed.

Example generate_cache_key_no_params :
  CacheManager._generate_cache_key (fun v : string => v) (fun v : string => v) "recs" [] = "recs".
Proof. reflexivity. Qed.

(** ** Diversification *)

(** The number of results in one bucket of the grouping. *)
Definition bucket_size {C} (category_of : C -> slot string)
  (bucket : option string) (results : list C) : nat :=
  length (filter (fun x => SimilarityEngine.group_key category_of x = bucket) results).

(** A candidate dict with an id, a score and possibly a category; the
    scores of the examples are rationals. *)
Record scored := Scored {
  scored_id : string;
  scored_category : slot string;
  scored_score : QArith_base.Q;
}.

Definition Qgtb (x y : QArith_base.Q) : bool := negb (QArith_base.Qle_bool x y).

#[local] Instance Q_eq_dec : EqDecision QArith_base.Q.
Proof. solve_decision. Defined.

#[local] Instance scored_eq_dec : EqDecision scored.
Proof. solve_decision. Defined.

Definition diversify_scored (candidates : list scored) (max_per_category : Z)
  : list scored :=
  SimilarityEngine.diversify_results scored_category scored_score Qgtb
    candidates 0.3%R max_per_category.

(** C1, at the failing input.  Two candidates without a ["category"] key
    and [max_per_category = 1]: both are grouped under ["uncategorized"],
    and both are returned. *)
Theorem diversify_uncategorized_not_capped :
  let a := Scored "a" Absent (QArith_base.Qmake 9 10) in
  let b := Scored "b" Absent (QArith_base.Qmake 8 10) in
  SimilarityEngine.group_candidates scored_category [a; b]
  = [(Some "uncategorized", [a; b])]
  /\ diversify_scored [a; b] 1 = [a; b]
  /\ bucket_size scored_category (Some "uncategorized")
       (diversify_scored [a; b] 1) = 2%nat.
Proof. vm_compute. done. Qed.

(** The same two candidates with the category ["x"]: one is returned. *)
Example diversify_categorized_capped :
  let a := Scored "a" (Val "x") (QArith_base.Qmake 9 10) in
  let b := Scored "b" (Val "x") (QArith_base.Qmake 8 10) in
  diversify_scored [a; b] 1 = [a].
Proof. vm_compute. done. Qed.

(** With [max_per_category = 0] every category still yields one result:
    the count is compared after the item is taken. *)
Example diversify_zero_per_category :
  let a := Scored "a" (Val "x") (QArith_base.Qmake 9 10) in
  let b := Scored "b" (Val "y") (QArith_base.Qmake 8 10) in
  diversify_scored [a; b] 0 = [a; b].
Proof. vm_compute. done. Qed.

Section DiversifyFacts.
Context {C S : Type} `{EqDecision C}.
Context (category_of : C -> slot string) (score : C -> S) (gt : S -> S -> bool).

Local Abbreviation for_groups := (SimilarityEngine.for_groups category_of score gt).
Local Abbreviation select_rounds :=
  (SimilarityEngine.select_rounds category_of score gt).

(** A pass lowers [remaining_slots] by the number of items it adds. *)
Lemma for_groups_slots k todo chosen slots added :
  let r := for_groups k todo chosen slots added in
  SimilarityEngine.remaining_slots r
  = slots - (SimilarityEngine.added_in_round r - added)
  /\ added <= SimilarityEngine.added_in_round r.
Proof.
  revert chosen slots added.
  induction todo as [|[category items] todo IH]; intros chosen slots added; simpl.
  - lia.
  - destruct items as [|first others]; simpl; [apply IH|].
    destruct (slots <=? 0); simpl; [apply IH|].
    match goal with
    | |- context [for_groups k todo ?c ?s ?a] => destruct (IH c s a) as [H1 H2]
    end.
    lia.
Qed.

(** The loop is over after at most [remaining_slots] rounds: more fuel
    than that does not change what it returns. *)
Lemma select_rounds_fuel fuel extra k groups chosen slots :
  slots <= Z.of_nat fuel ->
  select_rounds (fuel + extra) k groups chosen slots
  = select_rounds fuel k groups chosen slots.
Proof.
  revert groups chosen slots.
  induction fuel as [|fuel IH]; intros groups chosen slots Hslots.
  - destruct extra as [|extra]; simpl; [done|].
    destruct (Z.gtb_spec slots 0); [lia|done].
  - simpl. destruct (Z.gtb_spec slots 0); simpl; [|done].
    destruct (SimilarityEngine.any_items groups); [|done].
    destruct (for_groups_slots k groups chosen slots 0) as [H1 H2].
    destruct (Z.eqb_spec (SimilarityEngine.added_in_round
                            (for_groups k groups chosen slots 0)) 0); [done|].
    apply IH. lia.
Qed.

Lemma max_by_elem_of (best : C) (items : list C) :
  SimilarityEngine.max_by score gt best items ∈ best :: items.
Proof.
  revert best. induction items as [|x items IH]; intros best; simpl; [left|].
  destruct (gt (score x) (score best)).
  - right. apply IH.
  - specialize (IH best). apply elem_of_cons in IH as [->|Hin]; [left|].
    right. by right.
Qed.

Lemma remove_first_perm (x : C) (items : list C) :
  x ∈ items -> x :: SimilarityEngine.remove_first x items ≡ₚ items.
Proof.
  induction items as [|y items IH]; simpl; [by intros ?%elem_of_nil|].
  intros Hin. destruct (decide (y = x)) as [->|Hne]; [done|].
  apply elem_of_cons in Hin as [->|Hin]; [done|].
  rewrite Permutation_swap. by rewrite IH.
Qed.

Lemma group_candidates_one_bucket (g : option string) (candidates : list C) :
  candidates <> [] ->
  Forall (fun c => SimilarityEngine.group_key category_of c = g) candidates ->
  SimilarityEngine.group_candidates category_of candidates = [(g, candidates)].
Proof.
  intros Hne Hall. unfold SimilarityEngine.group_candidates.
  destruct candidates as [|c0 rest]; [done|]. clear Hne.
  apply Forall_cons in Hall as [H0 Hrest]. simpl. rewrite H0.
  change [(g, [c0])] with [(g, [] ++ [c0])].
  change (c0 :: rest) with ([c0] ++ rest). change ([] ++ [c0]) with [c0].
  generalize [c0]. induction Hrest as [|c rest Hc Hrest IH]; intros acc; simpl.
  - by rewrite app_nil_r.
  - rewrite Hc. destruct (decide (g = g)); [|done]. simpl.
    rewrite IH. by rewrite <- app_assoc.
Qed.

Lemma category_count_none (g : option string) (taken : list C) :
  Forall (fun c => SimilarityEngine.get_category category_of c <> g) taken ->
  SimilarityEngine.category_count category_of g taken = 0.
Proof.
  intros Hall. unfold SimilarityEngine.category_count.
  induction Hall as [|c taken Hc Hall IH]; [done|].
  rewrite filter_cons. destruct (decide _); [done|exact IH].
Qed.

(** With one bucket whose items the count does not see, the loop takes
    the items one by one until none is left. *)
Lemma select_rounds_one_bucket fuel k g items chosen :
  1 <= k ->
  Forall (fun c => SimilarityEngine.get_category category_of c <> g)
    (chosen ++ items) ->
  (length items <= fuel)%nat ->
  select_rounds fuel k [(g, items)] chosen (Z.of_nat (length items))
  ≡ₚ chosen ++ items.
Proof.
  intros Hk. revert items chosen.
  induction fuel as [|fuel IH]; intros items chosen Hall Hfuel.
  - destruct items; [|simpl in Hfuel; lia]. simpl. by rewrite app_nil_r.
  - destruct items as [|first others].
    { simpl. by rewrite app_nil_r. }
    cbn [SimilarityEngine.select_rounds SimilarityEngine.any_items existsb snd orb].
    destruct (Z.gtb_spec (Z.of_nat (length (first :: others))) 0) as [_|Hn];
      [|simpl in Hn; lia].
    cbn [andb SimilarityEngine.for_groups].
    destruct (Z.leb_spec (Z.of_nat (length (first :: others))) 0) as [Hn|_];
      [simpl in Hn; lia|].
    set (best := SimilarityEngine.max_by score gt first others).
    assert (best ∈ first :: others) as Hin by apply max_by_elem_of.
    pose proof (remove_first_perm best (first :: others) Hin) as Hperm.
    set (items1 := SimilarityEngine.remove_first best (first :: others)) in *.
    assert (chosen ++ first :: others ≡ₚ (chosen ++ [best]) ++ items1) as Hall1.
    { rewrite <- app_assoc. simpl. by rewrite Hperm. }
    rewrite category_count_none.
    2:{ rewrite Hall1 in Hall. by apply Forall_app in Hall as [? _]. }
    destruct (Z.geb_spec 0 k) as [Hn|_]; [lia|].
    cbn [SimilarityEngine.added_in_round SimilarityEngine.diversified
         SimilarityEngine.remaining_slots SimilarityEngine.category_groups].
    change (0 + 1 =? 0) with false. cbn iota.
    assert (length (first :: others) = Datatypes.S (length items1)) as Hlen.
    { by rewrite <- Hperm. }
    replace (Z.of_nat (length (first :: others)) - 1)
      with (Z.of_nat (length items1)) by lia.
    rewrite IH; [by rewrite Hall1|by rewrite <- Hall1|].
    clearbody items1. simpl in Hfuel, Hlen. lia.
Qed.

(** The defect behind C1, for every input: when no candidate has a
    ["category"] key, [diversify_results] with a cap of at least 1 returns
    all the candidates, so the bucket ["uncategorized"] holds
    [len(candidates)] results whatever the cap. *)
Lemma diversify_uncategorized_all (candidates : list C) (diversity_factor : R)
  (k : Z) :
  1 <= k ->
  Forall (fun c => category_of c = Absent) candidates ->
  SimilarityEngine.diversify_results category_of score gt candidates
    diversity_factor k ≡ₚ candidates.
Proof.
  intros Hk Hall. unfold SimilarityEngine.diversify_results.
  destruct candidates as [|c0 rest] eqn:E; [done|]. rewrite <- E in *.
  rewrite sorted_by_perm.
  rewrite (group_candidates_one_bucket (Some "uncategorized")).
  - rewrite select_rounds_one_bucket; [done|done| |done].
    simpl. eapply Forall_impl; [exact Hall|]. intros c Hc.
    unfold SimilarityEngine.get_category. by rewrite Hc.
  - by rewrite E.
  - eapply Forall_impl; [exact Hall|]. intros c Hc.
    unfold SimilarityEngine.group_key. by rewrite Hc.
Qed.

(** *** The cap on buckets whose candidates have the key *)

Local Abbreviation count := (SimilarityEngine.category_count category_of).
Local Abbreviation get_category := (SimilarityEngine.get_category category_of).

Lemma category_count_snoc (g : option string) (taken : list C) (x : C) :
  count g (taken ++ [x])
  = count g taken + (if decide (get_category x = g) then 1 else 0).
Proof.
  unfold SimilarityEngine.category_count.
  rewrite filter_app, length_app, filter_cons, filter_nil.
  destruct (decide (get_category x = g)); simpl; lia.
Qed.

Lemma category_count_nonneg (g : option string) (taken : list C) :
  0 <= count g taken.
Proof. unfold SimilarityEngine.category_count. lia. Qed.

Lemma remove_first_elem_of (x y : C) (items : list C) :
  y ∈ SimilarityEngine.remove_first x items -> y ∈ items.
Proof.
  induction items as [|z items IH]; simpl; [done|].
  destruct (decide (z = x)); [by right|].
  intros [->|Hin]%elem_of_cons; [left|right; by apply IH].
Qed.

(** The groups hold candidates under their own category, with the key. *)
Definition groups_ok (groups : list (option string * list C)) : Prop :=
  forall g items, (g, items) ∈ groups ->
    Forall (fun c => get_category c = g /\ category_of c <> Absent) items.

(** A bucket that has reached the cap has been emptied. *)
Definition capped (k : Z) (groups : list (option string * list C))
  (taken : list C) : Prop :=
  forall g items, (g, items) ∈ groups -> count g taken >= k -> items = [].

Lemma for_groups_inv k todo chosen slots added :
  NoDup todo.*1 ->
  groups_ok todo ->
  (forall g, count g chosen <= k) ->
  capped k todo chosen ->
  Forall (fun c => category_of c <> Absent) chosen ->
  let r := for_groups k todo chosen slots added in
  (SimilarityEngine.category_groups r).*1 = todo.*1
  /\ groups_ok (SimilarityEngine.category_groups r)
  /\ (forall g, count g (SimilarityEngine.diversified r) <= k)
  /\ capped k (SimilarityEngine.category_groups r) (SimilarityEngine.diversified r)
  /\ Forall (fun c => category_of c <> Absent) (SimilarityEngine.diversified r)
  /\ (forall g, g ∉ todo.*1 ->
        count g (SimilarityEngine.diversified r) = count g chosen).
Proof.
  revert chosen slots added.
  induction todo as [|[category items] todo IH];
    intros chosen slots added Hnd Hok Hle Hcap Hpresent.
  { simpl. repeat split; try done; intros g items Hin; by apply elem_of_nil in Hin. }
  rewrite fmap_cons in Hnd. cbn [fst] in Hnd.
  apply NoDup_cons in Hnd as [Hfresh Hnd].
  assert (groups_ok todo) as Hok'.
  { intros g its Hin. apply (Hok g its). by right. }
  assert (capped k todo chosen) as Hcap'.
  { intros g its Hin. apply (Hcap g its). by right. }
  assert (forall chosen' slots' added' items',
            (forall g, count g chosen' <= k) ->
            capped k todo chosen' ->
            Forall (fun c => category_of c <> Absent) chosen' ->
            Forall (fun c => get_category c = category /\ category_of c <> Absent)
              items' ->
            (count category chosen' >= k -> items' = []) ->
            (forall g, g <> category -> count g chosen' = count g chosen) ->
            let r := for_groups k todo chosen' slots' added' in
            let r' :=
              SimilarityEngine.Selection
                ((category, items') :: SimilarityEngine.category_groups r)
                (SimilarityEngine.diversified r) (SimilarityEngine.remaining_slots r)
                (SimilarityEngine.added_in_round r) in
            (SimilarityEngine.category_groups r').*1 = ((category, items) :: todo).*1
            /\ groups_ok (SimilarityEngine.category_groups r')
            /\ (forall g, count g (SimilarityEngine.diversified r') <= k)
            /\ capped k (SimilarityEngine.category_groups r')
                 (SimilarityEngine.diversified r')
            /\ Forall (fun c => category_of c <> Absent)
                 (SimilarityEngine.diversified r')
            /\ (forall g, g ∉ ((category, items) :: todo).*1 ->
                  count g (SimilarityEngine.diversified r') = count g chosen))
    as Hstep.
  { intros chosen' slots' added' items' Hle' Hcapped' Hpresent' Hitems' Hfull Hother.
    destruct (IH chosen' slots' added' Hnd Hok' Hle' Hcapped' Hpresent')
      as (H1 & H2 & H3 & H4 & H5 & H6).
    cbn [SimilarityEngine.category_groups SimilarityEngine.diversified].
    split; [by rewrite !fmap_cons, H1|].
    split.
    { intros g its [Heq|Hin]%elem_of_cons; [by simplify_eq|by apply (H2 g its)]. }
    split; [done|].
    split.
    { intros g its [Heq|Hin]%elem_of_cons; [|by apply (H4 g its)].
      simplify_eq. rewrite H6 by done. exact Hfull. }
    split; [done|].
    intros g Hg. rewrite fmap_cons in Hg. cbn [fst] in Hg.
    apply not_elem_of_cons in Hg as [Hne Hg].
    rewrite H6 by done. by apply Hother. }
  cbn [SimilarityEngine.for_groups].
  assert (Forall (fun c => get_category c = category /\ category_of c <> Absent)
            items) as Hitems.
  { apply (Hok category items). left. }
  assert (count category chosen >= k -> items = []) as Hfull.
  { apply (Hcap category items). left. }
  destruct items as [|first others]; [by apply Hstep|].
  destruct (slots <=? 0); [by apply Hstep|].
  set (best := SimilarityEngine.max_by score gt first others).
  assert (best ∈ first :: others) as Hbest by apply max_by_elem_of.
  assert (get_category best = category /\ category_of best <> Absent)
    as [Hbest_cat Hbest_present].
  { by apply (proj1 (Forall_forall _ _) Hitems). }
  assert (count category chosen < k) as Hroom.
  { destruct (Z_lt_ge_dec (count category chosen) k) as [?|Hge]; [done|].
    by specialize (Hfull Hge). }
  apply Hstep.
  - intros g. rewrite category_count_snoc. specialize (Hle g).
    destruct (decide (get_category best = g)); [|lia]. simplify_eq. lia.
  - intros g its Hin. rewrite category_count_snoc.
    destruct (decide (get_category best = g)) as [Heq|Hne].
    + exfalso. apply Hfresh. rewrite <- Hbest_cat, Heq.
      apply list_elem_of_fmap. by exists (g, its).
    + rewrite Z.add_0_r. by apply (Hcap' g its).
  - apply Forall_app. split; [done|]. by apply Forall_singleton.
  - destruct (_ >=? k); [done|].
    apply Forall_forall. intros c Hc. apply remove_first_elem_of in Hc.
    by apply (proj1 (Forall_forall _ _) Hitems).
  - intros Hge. destruct (Z.geb_spec (count category (chosen ++ [best])) k); [done|lia].
  - intros g Hne. rewrite category_count_snoc.
    destruct (decide (get_category best = g)); [congruence|lia].
Qed.

Lemma select_rounds_inv fuel k groups chosen slots :
  NoDup groups.*1 ->
  groups_ok groups ->
  (forall g, count g chosen <= k) ->
  capped k groups chosen ->
  Forall (fun c => category_of c <> Absent) chosen ->
  let out := select_rounds fuel k groups chosen slots in
  (forall g, count g out <= k) /\ Forall (fun c => category_of c <> Absent) out.
Proof.
  revert groups chosen slots.
  induction fuel as [|fuel IH]; intros groups chosen slots Hnd Hok Hle Hcap Hpresent;
    simpl; [done|].
  destruct ((slots >? 0) && SimilarityEngine.any_items groups); [|done].
  destruct (for_groups_inv k groups chosen slots 0 Hnd Hok Hle Hcap Hpresent)
    as (H1 & H2 & H3 & H4 & H5 & _).
  destruct (_ =? 0); [done|].
  apply IH; [by rewrite H1|done..].
Qed.

Lemma setitem_keys_NoDup {V} (k : option string) (v : V)
  (d : list (option string * V)) :
  NoDup d.*1 -> NoDup (PyDict.setitem k v d).*1.
Proof.
  induction d as [|[k' v'] d IH]; simpl.
  - intros _. apply NoDup_singleton.
  - intros [Hfresh Hnd]%NoDup_cons.
    destruct (decide (k' = k)) as [->|Hne]; simpl.
    + by apply NoDup_cons.
    + apply NoDup_cons. split; [|by apply IH].
      intros Hin.
      pose proof (proj1 (keys_setitem k v d k') Hin) as [Heq|Hin'];
        [congruence|done].
Qed.

Lemma setitem_elem_of {V} (k g : option string) (v w : V)
  (d : list (option string * V)) :
  (g, w) ∈ PyDict.setitem k v d -> (g = k /\ w = v) \/ (g, w) ∈ d.
Proof.
  induction d as [|[k' v'] d IH]; simpl.
  - intros Hin%list_elem_of_singleton. left. by simplify_eq.
  - destruct (decide (k' = k)) as [->|Hne].
    + intros [Heq|Hin]%elem_of_cons; [left; by simplify_eq|right; by right].
    + intros [Heq|Hin]%elem_of_cons; [right; rewrite Heq; left|].
      destruct (IH Hin) as [?|?]; [by left|right; by right].
Qed.

Lemma getitem_elem_of {V} (k : option string) (v : V)
  (d : list (option string * V)) :
  PyDict.getitem k d = Some v -> (k, v) ∈ d.
Proof.
  induction d as [|[k' v'] d IH]; simpl; [done|].
  destruct (decide (k' = k)) as [->|Hne].
  - intros [= ->]. left.
  - intros H'. right. by apply IH.
Qed.

Lemma group_candidates_inv (candidates : list C) :
  Forall (fun c => category_of c <> Absent) candidates ->
  NoDup (SimilarityEngine.group_candidates category_of candidates).*1
  /\ groups_ok (SimilarityEngine.group_candidates category_of candidates).
Proof.
  intros Hall. unfold SimilarityEngine.group_candidates.
  assert (NoDup ([] : list (option string * list C)).*1 /\ groups_ok []) as Hinit.
  { split; [apply NoDup_nil_2|]. intros g items Hin. by apply elem_of_nil in Hin. }
  revert Hinit. generalize ([] : list (option string * list C)).
  induction Hall as [|c candidates Hc Hall IH]; intros groups [Hnd Hok]; simpl;
    [done|].
  apply IH. split; [by apply setitem_keys_NoDup|].
  intros g items Hin. apply setitem_elem_of in Hin as [[-> ->]|Hin];
    [|by apply (Hok g items)].
  apply Forall_app. split.
  - destruct (PyDict.getitem _ groups) as [its|] eqn:E; simpl; [|done].
    apply getitem_elem_of in E. by apply (Hok _ its) in E.
  - apply Forall_singleton. split; [|done].
    unfold SimilarityEngine.group_key, SimilarityEngine.get_category.
    by destruct (category_of c).
Qed.

(** What the loop does guarantee: when every candidate has the
    ["category"] key (with a string or [None]) and the cap is at least 1,
    no bucket of the result holds more than [max_per_category] items. *)
Lemma diversify_cap_with_categories (candidates : list C) (diversity_factor : R)
  (k : Z) (bucket : option string) :
  1 <= k ->
  Forall (fun c => category_of c <> Absent) candidates ->
  Z.of_nat (bucket_size category_of bucket
              (SimilarityEngine.diversify_results category_of score gt candidates
                 diversity_factor k)) <= k.
Proof.
  intros Hk Hall. unfold SimilarityEngine.diversify_results.
  destruct candidates as [|c0 rest] eqn:E; [unfold bucket_size; simpl; lia|].
  rewrite <- E in *.
  destruct (group_candidates_inv candidates Hall) as [Hnd Hok].
  destruct (select_rounds_inv (length candidates) k
              (SimilarityEngine.group_candidates category_of candidates) []
              (Z.of_nat (length candidates)) Hnd Hok) as [Hle Hpresent].
  - intros g. unfold SimilarityEngine.category_count. simpl. lia.
  - intros g items _ Hge. unfold SimilarityEngine.category_count in Hge.
    simpl in Hge. lia.
  - done.
  - set (out := select_rounds _ _ _ _ _) in *.
    specialize (Hle bucket). unfold SimilarityEngine.category_count in Hle.
    unfold bucket_size.
    assert (length (filter (fun x => SimilarityEngine.group_key category_of x = bucket)
                      (sorted_by gt score out))
            = length (filter (fun item => get_category item = bucket) out)) as ->;
      [|exact Hle].
    rewrite (sorted_by_perm gt score out).
    clear Hle. induction Hpresent as [|c out' Hc Hout IH]; [done|].
    rewrite !filter_cons.
    assert (SimilarityEngine.group_key category_of c = get_category c) as Hkey.
    { unfold SimilarityEngine.group_key, SimilarityEngine.get_category.
      by destruct (category_of c). }
    rewrite Hkey. destruct (decide (get_category c = bucket)); simpl; by rewrite IH.
Qed.

End DiversifyFacts.

(** ** Cosine similarity *)

Section CosineFacts.
Local Open Scope R_scope.

Lemma dot_comm (u v : list R) : SimilarityEngine.dot u v = SimilarityEngine.dot v u.
Proof.
  unfold SimilarityEngine.dot. revert v.
  induction u as [|x u IH]; intros [|y v]; simpl; try done.
  rewrite IH. lra.
Qed.

Lemma dot_self_nonneg (u : list R) : 0 <= SimilarityEngine.dot u u.
Proof.
  unfold SimilarityEngine.dot. induction u as [|x u IH]; simpl; [lra|].
  pose proof (Rle_0_sqr x) as Hx. unfold Rsqr in Hx. lra.
Qed.

Lemma cosine_comm (u v : list R) :
  SimilarityEngine.cosine u v = SimilarityEngine.cosine v u.
Proof.
  unfold SimilarityEngine.cosine.
  rewrite (dot_comm u v),
    (Rmult_comm (SimilarityEngine.dot u u) (SimilarityEngine.dot v v)).
  done.
Qed.

Lemma clamp_range (x : R) : 0 <= Rmax 0 (Rmin 1 x) <= 1.
Proof.
  split; [apply Rmax_l|]. apply Rmax_lub; [lra|apply Rmin_l].
Qed.

(** C6.  [cosine_similarity] returns on every pair of arguments, [None]
    included; what it returns lies in [[0, 1]]; and it is exactly 0 when
    either vector is empty or the lengths differ. *)
Theorem cosine_similarity_total (vector_a vector_b : option (list R)) :
  exists r,
    SimilarityEngine.cosine_similarity vector_a vector_b = Return r
    /\ 0 <= r <= 1
    /\ (vector_a = Some [] \/ vector_b = Some []
        \/ (exists xs ys, vector_a = Some xs /\ vector_b = Some ys
                          /\ length xs <> length ys)
        -> r = 0).
Proof.
  unfold SimilarityEngine.cosine_similarity, SimilarityEngine.cosine_similarity_try.
  destruct vector_a as [xs|]; simpl.
  2:{ exists 0. split; [done|]. split; [lra|done]. }
  destruct (Nat.eqb_spec (length xs) 0) as [Hxs|Hxs]; simpl.
  { exists 0. split; [done|]. split; [lra|done]. }
  destruct vector_b as [ys|]; simpl.
  2:{ exists 0. split; [done|]. split; [lra|done]. }
  destruct (Nat.eqb_spec (length ys) 0) as [Hys|Hys]; simpl.
  { exists 0. split; [done|]. split; [lra|done]. }
  destruct (Nat.eqb_spec (length xs) (length ys)) as [Hlen|Hlen]; simpl.
  2:{ exists 0. split; [done|]. split; [lra|done]. }
  assert (forall r : R,
    (Some xs = Some [] \/ Some ys = Some []
     \/ (exists xs0 ys0, Some xs = Some xs0 /\ Some ys = Some ys0
                         /\ length xs0 <> length ys0)) -> r = 0) as Hguard.
  { intros r [H|[H|(xs0 & ys0 & H1 & H2 & H3)]]; simplify_eq; done. }
  destruct (SimilarityEngine.cosine xs ys) as [d|]; simpl.
  - eexists. split; [done|]. split; [apply clamp_range|apply Hguard].
  - exists 0. split; [done|]. split; [lra|done].
Qed.


Lemma cosine_similarity_self (a : list R) :
  SimilarityEngine.dot a a <> 0 ->
  SimilarityEngine.cosine_similarity (Some a) (Some a) = Return 1.
Proof.
  intros Hnz.
  unfold SimilarityEngine.cosine_similarity, SimilarityEngine.cosine_similarity_try.
  simpl.
  destruct (Nat.eqb_spec (length a) 0) as [Ha|Ha].
  { destruct a; [|done]. unfold SimilarityEngine.dot in Hnz. simpl in Hnz. done. }
  simpl. rewrite Nat.eqb_refl. simpl.
  unfold SimilarityEngine.cosine.
  pose proof (dot_self_nonneg a) as Hpos.
  set (uu := SimilarityEngine.dot a a) in *.
  destruct (Req_dec_T (uu * uu) 0) as [H0|H0].
  { apply Rmult_integral in H0. tauto. }
  simpl. rewrite sqrt_square by done.
  replace (1 - (1 - uu / uu)) with 1 by (field; done).
  rewrite Rmin_left by lra. rewrite Rmax_right by lra. done.
Qed.

Lemma cosine_similarity_sym (x y : option (list R)) :
  SimilarityEngine.cosine_similarity x y = SimilarityEngine.cosine_similarity y x.
Proof.
  unfold SimilarityEngine.cosine_similarity, SimilarityEngine.cosine_similarity_try.
  destruct x as [xs|], y as [ys|]; simpl; try done.
  - destruct (Nat.eqb_spec (length xs) 0) as [Hxs|Hxs],
             (Nat.eqb_spec (length ys) 0) as [Hys|Hys]; simpl; try done.
    rewrite (Nat.eqb_sym (length ys) (length xs)).
    destruct (Nat.eqb_spec (length xs) (length ys)); simpl; [|done].
    by rewrite (cosine_comm xs ys).
  - by destruct (length xs =? 0)%nat.
  - by destruct (length ys =? 0)%nat.
Qed.




Example dot_3_4 : SimilarityEngine.dot [3; 4] [3; 4] = 25.
Proof. unfold SimilarityEngine.dot. simpl. lra. Qed.

End CosineFacts.

(** ** User-book affinity *)

Section AffinityFacts.
Local Open Scope R_scope.

(** A favourite matches the target exactly, or one contains the other. *)
Definition matches (target fav : string) : bool :=
  String.eqb (Str.lower fav) target
  || Str.contains (Str.lower fav) target
  || Str.contains target (Str.lower fav).

Lemma best_match_cases (partial : R) (target : string) (favs : list string) (cur : R) :
  0 <= cur <= partial -> partial <= 1 ->
  let r := SimilarityEngine.best_match partial target favs cur in
  (r = cur \/ r = partial \/ r = 1)
  /\ (existsb (matches target) favs = true -> r = partial \/ r = 1)
  /\ (existsb (fun fav => String.eqb (Str.lower fav) target) favs = true -> r = 1).
Proof.
  intros Hcur Hpartial. revert cur Hcur.
  induction favs as [|fav favs IH]; intros cur Hcur; simpl.
  - split; [by left|]. split; intros ?; discriminate.
  - unfold matches at 1.
    destruct (String.eqb (Str.lower fav) target); simpl.
    { split; [by right; right|]. split; intros _; [by right|done]. }
    destruct (Str.contains (Str.lower fav) target
              || Str.contains target (Str.lower fav)) eqn:E; simpl.
    + destruct (IH (Rmax cur partial)) as (H1 & H2 & H3).
      { rewrite Rmax_right by lra. lra. }
      rewrite Rmax_right in * by lra.
      split; [destruct H1 as [-> | [-> | ->] ]; tauto|].
      split; [intros _; destruct H1 as [-> | [-> | ->] ]; tauto|done].
    + destruct (IH cur Hcur) as (H1 & H2 & H3). done.
Qed.

(** C2 (as amended).  A profile without the ["preference_embedding"] key,
    scored against a book with a category when the author term is not
    evaluated (no ["favorite_authors"] in the profile or no ["author"] in
    the book): the affinity is the category-match value itself, which is
    1.0 or 0.7, so not zero, when a favourite category matches. *)
Theorem affinity_category_only (p : user_profile) (b : book)
  (favs : list string) (cat : string) :
  preference_embedding p = Absent ->
  favorite_categories p = Val favs ->
  category b = Val cat ->
  favorite_authors p = Absent \/ author b = Absent ->
  let category_match := SimilarityEngine.best_match 0.7 (Str.lower cat) favs 0 in
  SimilarityEngine.calculate_user_book_affinity p b = Return category_match
  /\ (existsb (matches (Str.lower cat)) favs = true ->
      (category_match = 0.7 \/ category_match = 1) /\ category_match <> 0)
  /\ (existsb (fun fav => String.eqb (Str.lower fav) (Str.lower cat)) favs = true ->
      category_match = 1).
Proof.
  intros Hpe Hfc Hcat Hauth m.
  destruct (best_match_cases 0.7 (Str.lower cat) favs 0) as (H1 & H2 & H3);
    [lra..|].
  fold m in H1, H2, H3.
  split; [|split; [|done]].
  - unfold SimilarityEngine.calculate_user_book_affinity,
      SimilarityEngine.calculate_user_book_affinity_try,
      SimilarityEngine.content_term, SimilarityEngine.category_term,
      SimilarityEngine.author_term.
    rewrite Hpe, Hfc, Hcat. simpl. fold m.
    assert (has_key (favorite_authors p) && has_key (author b) = false) as ->.
    { destruct Hauth as [-> | ->]; simpl; [done|]. apply andb_false_r. }
    simpl. destruct (Rlt_dec 0 (0 + 0.3)) as [_|Hn]; [|lra].
    simpl. f_equal. clearbody m. field. lra.
  - intros Hex. specialize (H2 Hex). split; [done|]. lra.
Qed.

Definition fiction_fan : user_profile :=
  {| preference_embedding := Absent;
     favorite_categories := Val ["Fiction"];
     favorite_authors := Absent;
     interaction_count := None |}.

Definition a_novel : book :=
  {| book_id := "b1"; name := Val "A Novel"; author := Val "Bob";
     description := Absent; category := Val "fiction"; tags := Absent;
     embedding := Val [1; 0]; similarity_score := None;
     recommendation_reason := None |}.

Lemma affinity_category_only_witness :
  let category_match :=
    SimilarityEngine.best_match 0.7 (Str.lower "fiction") ["Fiction"] 0 in
  SimilarityEngine.calculate_user_book_affinity fiction_fan a_novel
  = Return category_match
  /\ (existsb (matches (Str.lower "fiction")) ["Fiction"] = true ->
      (category_match = 0.7 \/ category_match = 1) /\ category_match <> 0)
  /\ (existsb (fun fav => String.eqb (Str.lower fav) (Str.lower "fiction"))
        ["Fiction"] = true ->
      category_match = 1).
Proof.
  apply (affinity_category_only fiction_fan a_novel ["Fiction"] "fiction").
  - reflexivity.
  - reflexivity.
  - reflexivity.
  - left. reflexivity.
Defined.

(** C2 as stated fails when the author term is evaluated too: the profile
    has no preference embedding, its favourite category matches the book
    exactly (category-match value 1.0), the book is by an author who is
    not a favourite, and the affinity is [0.3 / (0.3 + 0.2) = 0.6]. *)
Lemma affinity_author_term_counts :
  let p := {| preference_embedding := Absent;
              favorite_categories := Val ["Fiction"];
              favorite_authors := Val ["Alice"];
              interaction_count := None |} in
  SimilarityEngine.best_match 0.7 (Str.lower "fiction") ["Fiction"] 0 = 1
  /\ SimilarityEngine.calculate_user_book_affinity p a_novel = Return (3 / 5)
  /\ 3 / 5 <> 1.
Proof.
  split; [reflexivity|]. split; [|lra].
  unfold SimilarityEngine.calculate_user_book_affinity,
    SimilarityEngine.calculate_user_book_affinity_try,
    SimilarityEngine.content_term, SimilarityEngine.category_term,
    SimilarityEngine.author_term.
  simpl. destruct (Rlt_dec _ _) as [_|Hn]; [|lra].
  simpl. f_equal. lra.
Qed.

(** The profile that [_build_user_profile] returns when no interaction
    reaches the text pool has the key ["preference_embedding"] with the
    value [None]. *)
Lemma build_user_profile_without_texts (svc : RecommendationEngine.services)
  (interactions : list RecommendationEngine.interaction)
  (time_decay_factor : R) (now : Z) (acc : RecommendationEngine.tallies) :
  RecommendationEngine.collect svc time_decay_factor now interactions
    (RecommendationEngine.Tallies [] [] []) = Return acc ->
  RecommendationEngine.interaction_texts acc = [] ->
  RecommendationEngine._build_user_profile svc interactions time_decay_factor now
  = {| preference_embedding := PyNone;
       favorite_categories :=
         Val (RecommendationEngine.top 5 (RecommendationEngine.categories acc));
       favorite_authors :=
         Val (RecommendationEngine.top 3 (RecommendationEngine.authors acc));
       interaction_count := Some (Z.of_nat (length interactions)) |}.
Proof.
  intros Hacc Htexts.
  unfold RecommendationEngine._build_user_profile,
    RecommendationEngine._build_user_profile_try.
  rewrite Hacc. simpl. by rewrite Htexts.
Qed.

(** For such a profile the key test of the content term passes,
    [cosine_similarity] of [None] is 0.0, and the weight 0.5 enters the
    divisor with the weights of the category and author terms: the
    affinity of a book with an embedding, a category and an author is
    [0.3 * category_match + 0.2 * author_match]. *)
Lemma affinity_none_embedding (p : user_profile) (b : book) (emb : list R)
  (favs afavs : list string) (cat auth : string) :
  preference_embedding p = PyNone ->
  favorite_categories p = Val favs ->
  favorite_authors p = Val afavs ->
  embedding b = Val emb ->
  category b = Val cat ->
  author b = Val auth ->
  SimilarityEngine.calculate_user_book_affinity p b
  = Return (0.3 * SimilarityEngine.best_match 0.7 (Str.lower cat) favs 0
            + 0.2 * SimilarityEngine.best_match 0.8 (Str.lower auth) afavs 0).
Proof.
  intros Hpe Hfc Hfa Hemb Hcat Hauth.
  unfold SimilarityEngine.calculate_user_book_affinity,
    SimilarityEngine.calculate_user_book_affinity_try,
    SimilarityEngine.content_term, SimilarityEngine.category_term,
    SimilarityEngine.author_term.
  rewrite Hpe, Hfc, Hfa, Hemb, Hcat, Hauth. simpl.
  set (cm := SimilarityEngine.best_match _ (Str.lower cat) favs 0).
  set (am := SimilarityEngine.best_match _ (Str.lower auth) afavs 0).
  destruct (Rlt_dec _ _) as [_|Hn]; [|lra].
  simpl. f_equal. lra.
Qed.

(** One viewed book (weight 0.5, so outside the text pool) of the
    category of [a_novel]: the profile built from it scores [a_novel] at
    0.3 + 0.2, where the category-match value is 1.0. *)
Example affinity_of_built_profile :
  let svc :=
    {| RecommendationEngine.supabase := true;
       RecommendationEngine._get_book_data := fun _ => None;
       RecommendationEngine._get_candidate_books := fun _ _ _ => [];
       RecommendationEngine._get_or_generate_book_embedding := fun _ => None;
       RecommendationEngine._get_user_interactions := fun _ => [];
       RecommendationEngine._get_user_purchased_books := fun _ => [];
       RecommendationEngine.trending_query := fun _ _ _ => Return [];
       RecommendationEngine._generate_similarity_reason := fun _ _ => Return "";
       RecommendationEngine.days_old := fun _ _ => Return 0%Z;
       RecommendationEngine.process_book_text := fun _ => "";
       RecommendationEngine.generate_user_preference_embedding :=
         fun _ => Return [1] |} in
  let viewed :=
    RecommendationEngine.Interaction "b1" (Some a_novel) "view"
      "2024-01-01T00:00:00" 0.5 in
  let p := RecommendationEngine._build_user_profile svc [viewed] 0.1 0 in
  p = {| preference_embedding := PyNone;
         favorite_categories := Val ["fiction"];
         favorite_authors := Val ["Bob"];
         interaction_count := Some 1%Z |}
  /\ SimilarityEngine.calculate_user_book_affinity p a_novel = Return (1 / 2).
Proof.
  intros svc viewed p.
  assert (p = {| preference_embedding := PyNone;
                 favorite_categories := Val ["fiction"];
                 favorite_authors := Val ["Bob"];
                 interaction_count := Some 1%Z |}) as Hp.
  { subst p. unfold RecommendationEngine._build_user_profile,
      RecommendationEngine._build_user_profile_try.
    cbn [RecommendationEngine.collect viewed svc
         RecommendationEngine.interaction_book RecommendationEngine.days_old
         RecommendationEngine.timestamp bind].
    destruct (Rlt_dec 0.5 _) as [Hlt|_].
    { exfalso. revert Hlt. unfold viewed. cbn [RecommendationEngine.weight].
      rewrite Rmax_right; lra. }
    reflexivity. }
  split; [exact Hp|]. rewrite Hp.
  rewrite (affinity_none_embedding _ a_novel [1; 0] ["fiction"] ["Bob"]
             "fiction" "Bob") by reflexivity.
  f_equal. replace (SimilarityEngine.best_match 0.7 _ _ 0) with 1 by reflexivity.
  replace (SimilarityEngine.best_match 0.8 _ _ 0) with 1 by reflexivity.
  lra.
Qed.

End AffinityFacts.

(** ** Embeddings of blank text *)

Lemma lstrip_all_space (text : string) :
  Str.all_space text = true -> Str.lstrip text = EmptyString.
Proof.
  induction text as [|c text IH]; simpl; [done|].
  intros [Hc Htext]%andb_true_iff. rewrite Hc. by apply IH.
Qed.

Lemma strip_all_space (text : string) :
  Str.all_space text = true -> Str.strip text = EmptyString.
Proof. intros H. unfold Str.strip. by rewrite lstrip_all_space. Qed.

(** C10.  With the model initialised, [generate_embedding] of a text that
    is empty or made of whitespace only returns the vector of
    [embedding_dimension] zeros and leaves the object as it was: the model
    is not called, and neither cache nor counters change. *)
Theorem generate_embedding_blank (model_encode : string -> list R)
  (md5_hexdigest normalize_nfc : string -> string)
  (s : EmbeddingService.t) (text : string) (model_version : option string)
  (use_cache : bool) (elapsed : R) :
  EmbeddingService.is_ready s = true ->
  Str.all_space text = true ->
  EmbeddingService.generate_embedding model_encode md5_hexdigest normalize_nfc
    text model_version use_cache elapsed s
  = (Return (replicate (EmbeddingService.embedding_dimension s) 0%R), s)
  /\ Forall (fun x => x = 0%R)
       (replicate (EmbeddingService.embedding_dimension s) 0%R)
  /\ length (replicate (EmbeddingService.embedding_dimension s) 0%R)
     = EmbeddingService.embedding_dimension s.
Proof.
  intros Hready Hblank. split; [|split].
  - unfold EmbeddingService.generate_embedding.
    rewrite Hready, (strip_all_space text Hblank). simpl.
    by rewrite orb_true_r.
  - by apply Forall_replicate.
  - apply length_replicate.
Qed.

Definition a_service : EmbeddingService.t :=
  EmbeddingService.Make "paraphrase-multilingual-MiniLM-L12-v2" true true 384
    ∅ (EmbeddingService.Stats 0 0 0 0 0) [] [].

Lemma generate_embedding_blank_witness :
  let text := String (Ascii.ascii_of_nat 32) (String (Ascii.ascii_of_nat 10) "") in
  EmbeddingService.generate_embedding (fun _ => [1%R]) (fun t => t) (fun t => t)
    text None true 0%R a_service
  = (Return (replicate (EmbeddingService.embedding_dimension a_service) 0%R),
     a_service)
  /\ Forall (fun x => x = 0%R)
       (replicate (EmbeddingService.embedding_dimension a_service) 0%R)
  /\ length (replicate (EmbeddingService.embedding_dimension a_service) 0%R)
     = EmbeddingService.embedding_dimension a_service.
Proof.
  intros text.
  apply (generate_embedding_blank (fun _ => [1%R]) (fun t => t) (fun t => t)
           a_service text None true 0%R).
  - reflexivity.
  - reflexivity.
Defined.

(** A text that is not blank reaches the model. *)
Example generate_embedding_calls_model :
  EmbeddingService.encode_calls
    (EmbeddingService.generate_embedding (fun _ => [1%R]) (fun t => t) (fun t => t)
       " a  b " None true 0%R a_service).2
  = ["a b"].
Proof. reflexivity. Qed.

(** ** The orchestrator and its cache *)

Section CacheFrame.
Context {V : Type}.
Implicit Types (c : InMemoryCache.t V) (key k : string).

(** An operation leaves the entry under [k] as it was or removes it. *)
Definition kept_or_gone (k : string) c c' : Prop :=
  InMemoryCache.cache c' !! k = None
  \/ InMemoryCache.cache c' !! k = InMemoryCache.cache c !! k.

Lemma kept_or_gone_refl k c : kept_or_gone k c c.
Proof. by right. Qed.

Lemma kept_or_gone_trans k c1 c2 c3 :
  kept_or_gone k c1 c2 -> kept_or_gone k c2 c3 -> kept_or_gone k c1 c3.
Proof.
  unfold kept_or_gone. intros [H1|H1] [H2|H2]; rewrite ?H2, ?H1; tauto.
Qed.

Lemma kept_or_gone_delete k key c :
  kept_or_gone k c (InMemoryCache.delete key c).2.
Proof.
  unfold kept_or_gone, InMemoryCache.delete.
  destruct (InMemoryCache.cache c !! key) eqn:E; simpl; [|by right].
  destruct (decide (key = k)) as [->|Hne].
  - left. apply lookup_delete_eq.
  - right. by apply lookup_delete_ne.
Qed.

Lemma kept_or_gone_evict k c :
  kept_or_gone k c (InMemoryCache._evict_oldest c).
Proof.
  unfold InMemoryCache._evict_oldest.
  destruct (InMemoryCache.access_times c); [apply kept_or_gone_refl|].
  generalize (InMemoryCache.keys_to_remove c). intros ks.
  assert (forall c0, kept_or_gone k c c0 ->
            kept_or_gone k c
              (foldl (fun c' key => (InMemoryCache.delete key c').2) c0 ks)) as H.
  { induction ks as [|key ks IH]; intros c0 H0; simpl; [done|].
    apply IH. eapply kept_or_gone_trans; [done|apply kept_or_gone_delete]. }
  apply H, kept_or_gone_refl.
Qed.

Lemma kept_or_gone_get k key now c :
  kept_or_gone k c (InMemoryCache.get key now c).2.
Proof.
  unfold InMemoryCache.get.
  destruct (InMemoryCache.cache c !! key) as [e|]; [|apply kept_or_gone_refl].
  destruct (InMemoryCache.expires_at e >? now);
    [by right|apply kept_or_gone_delete].
Qed.

Lemma kept_or_gone_set k key (v : V) ttl now c :
  k <> key -> kept_or_gone k c (InMemoryCache.set key v ttl now c).2.
Proof.
  intros Hne. unfold InMemoryCache.set.
  set (c1 := if _ >=? _ then _ else c).
  assert (kept_or_gone k c c1) as H1.
  { subst c1. destruct (_ >=? _); [apply kept_or_gone_evict|apply kept_or_gone_refl]. }
  clearbody c1. destruct (InMemoryCache.expiry now ttl); [|exact H1].
  unfold kept_or_gone in *. simpl.
  rewrite lookup_insert_ne by done. done.
Qed.

Lemma get_other k key now c :
  k <> key ->
  InMemoryCache.cache (InMemoryCache.get key now c).2 !! k
  = InMemoryCache.cache c !! k.
Proof.
  intros Hne. unfold InMemoryCache.get, InMemoryCache.delete.
  destruct (InMemoryCache.cache c !! key) as [e|]; [|done].
  destruct (InMemoryCache.expires_at e >? now); simpl; [done|].
  by apply lookup_delete_ne.
Qed.

(** What [get] returns is read off the entry under the key. *)
Lemma get_result key now c :
  (InMemoryCache.get key now c).1
  = match InMemoryCache.cache c !! key with
    | Some e =>
        if InMemoryCache.expires_at e >? now
        then Some (InMemoryCache.value e) else None
    | None => None
    end.
Proof.
  unfold InMemoryCache.get.
  destruct (InMemoryCache.cache c !! key) as [e|]; [|done].
  by destruct (InMemoryCache.expires_at e >? now).
Qed.

(** A live entry is read back. *)
Lemma get_set_live key (v : V) ttl now now' c :
  InMemoryCache.in_range now ttl = true ->
  now' < now + InMemoryCache.timedelta_seconds ttl ->
  (InMemoryCache.get key now' (InMemoryCache.set key v ttl now c).2).1 = Some v.
Proof.
  intros Hrange Hlive. rewrite set_in_range by done.
  unfold InMemoryCache.get. simpl.
  rewrite lookup_insert_eq. simpl.
  destruct (Z.gtb_spec (now + InMemoryCache.timedelta_seconds ttl) now'); [done|lia].
Qed.

End CacheFrame.

Section OrchestratorFacts.
Context (str_of_float : R -> string).
Implicit Types (e : RecommendationEngine.t) (svc : RecommendationEngine.services).

(** The entry of the in-memory store under a key, if the engine has a
    cache manager. *)
Definition cached_entry e (k : string)
  : option (InMemoryCache.entry (list book)) :=
  match RecommendationEngine.cache_manager e with
  | Some m => InMemoryCache.cache (CacheManager.cache m) !! k
  | None => None
  end.

(** Between [e] and [e'] nothing was written under [k]: the entry is the
    one that was there, or there is none. *)
Definition not_written (k : string) e e' : Prop :=
  cached_entry e' k = None \/ cached_entry e' k = cached_entry e k.

Lemma not_written_refl k e : not_written k e e.
Proof. by right. Qed.

Lemma not_written_trans k e1 e2 e3 :
  not_written k e1 e2 -> not_written k e2 e3 -> not_written k e1 e3.
Proof.
  unfold not_written. intros [H1|H1] [H2|H2]; rewrite ?H2, ?H1; tauto.
Qed.

Lemma not_written_update_stats k f e :
  not_written k e (RecommendationEngine.update_stats f e).
Proof. by right. Qed.

Lemma not_written_get_from_cache k key now e :
  not_written k e (RecommendationEngine._get_from_cache key now e).2.
Proof.
  unfold RecommendationEngine._get_from_cache, not_written, cached_entry.
  destruct (RecommendationEngine.cache_manager e) as [m|] eqn:E; simpl;
    [|rewrite E; by left].
  unfold CacheManager.get. simpl.
  pose proof (kept_or_gone_get k key now (CacheManager.cache m)) as H.
  destruct (InMemoryCache.get key now (CacheManager.cache m)) as [[r|] c]; exact H.
Qed.

Lemma not_written_set_cache k key data ttl now e :
  k <> key ->
  not_written k e (RecommendationEngine._set_cache key data ttl now e).
Proof.
  intros Hne.
  unfold RecommendationEngine._set_cache, not_written, cached_entry.
  destruct (RecommendationEngine.cache_manager e) as [m|] eqn:E; simpl;
    [|rewrite E; by left].
  unfold CacheManager.set. simpl.
  pose proof (kept_or_gone_set k key data ttl now (CacheManager.cache m) Hne) as H.
  destruct (InMemoryCache.set key data ttl now (CacheManager.cache m)) as [ok c].
  exact H.
Qed.

Lemma not_written_trending svc k limit days min_interactions now e :
  k <> RecommendationEngine.trending_key limit days min_interactions ->
  not_written k e
    (RecommendationEngine.get_trending_books svc limit days min_interactions now e).2.
Proof.
  intros Hne. unfold RecommendationEngine.get_trending_books.
  set (e0 := RecommendationEngine.update_stats _ e).
  pose proof (not_written_get_from_cache k
                (RecommendationEngine.trending_key limit days min_interactions)
                now e0) as Hget.
  destruct (RecommendationEngine._get_from_cache _ now e0) as [cached e1].
  simpl in Hget.
  assert (not_written k e e1) as H1.
  { eapply not_written_trans; [apply not_written_update_stats|exact Hget]. }
  destruct (RecommendationEngine.truthy cached); simpl.
  { eapply not_written_trans; [exact H1|apply not_written_update_stats]. }
  assert (not_written k e
            (RecommendationEngine.update_stats RecommendationEngine.count_miss e1))
    as H2.
  { eapply not_written_trans; [exact H1|apply not_written_update_stats]. }
  destruct (RecommendationEngine.supabase svc); simpl; [|exact H2].
  destruct (RecommendationEngine.cutoff now days) as [cutoff_date|]; [|exact H2].
  destruct (RecommendationEngine.trending_query svc _ _ _) as [rows|]; simpl;
    [|exact H2].
  eapply not_written_trans; [exact H2|].
  eapply not_written_trans; [|apply not_written_update_stats].
  by apply not_written_set_cache.
Qed.

Lemma get_from_cache_result key now e :
  (RecommendationEngine._get_from_cache key now e).1
  = match cached_entry e key with
    | Some en =>
        if InMemoryCache.expires_at en >? now
        then Some (InMemoryCache.value en) else None
    | None => None
    end.
Proof.
  unfold RecommendationEngine._get_from_cache, cached_entry.
  destruct (RecommendationEngine.cache_manager e) as [m|]; [|done].
  unfold CacheManager.get. simpl.
  pose proof (get_result key now (CacheManager.cache m)) as H.
  destruct (InMemoryCache.get key now (CacheManager.cache m)) as [[r|] c];
    simpl in *; exact H.
Qed.

Lemma cached_entry_get_from_cache_other k key now e :
  k <> key ->
  cached_entry (RecommendationEngine._get_from_cache key now e).2 k
  = cached_entry e k.
Proof.
  intros Hne. unfold RecommendationEngine._get_from_cache, cached_entry.
  destruct (RecommendationEngine.cache_manager e) as [m|] eqn:E; simpl;
    [|by rewrite E].
  unfold CacheManager.get. simpl.
  pose proof (get_other k key now (CacheManager.cache m) Hne) as H.
  destruct (InMemoryCache.get key now (CacheManager.cache m)) as [[r|] c];
    simpl in *; exact H.
Qed.

(** The list [get_trending_books] returns depends on the engine only
    through the entry under the trending key. *)
Lemma trending_result_frame svc limit days min_interactions now e e' :
  cached_entry e (RecommendationEngine.trending_key limit days min_interactions)
  = cached_entry e' (RecommendationEngine.trending_key limit days min_interactions) ->
  (RecommendationEngine.get_trending_books svc limit days min_interactions now e).1
  = (RecommendationEngine.get_trending_books svc limit days min_interactions now e').1.
Proof.
  intros Hentry. unfold RecommendationEngine.get_trending_books.
  set (k := RecommendationEngine.trending_key limit days min_interactions) in *.
  pose proof (get_from_cache_result k now
                (RecommendationEngine.update_stats
                   RecommendationEngine.count_trending e)) as H1.
  pose proof (get_from_cache_result k now
                (RecommendationEngine.update_stats
                   RecommendationEngine.count_trending e')) as H2.
  change (cached_entry (RecommendationEngine.update_stats _ e) k)
    with (cached_entry e k) in H1.
  change (cached_entry (RecommendationEngine.update_stats _ e') k)
    with (cached_entry e' k) in H2.
  rewrite Hentry, <- H2 in H1.
  destruct (RecommendationEngine._get_from_cache k now
              (RecommendationEngine.update_stats _ e)) as [c1 e1].
  destruct (RecommendationEngine._get_from_cache k now
              (RecommendationEngine.update_stats _ e')) as [c2 e2].
  simpl in H1. subst c2.
  destruct (RecommendationEngine.truthy c1); [done|].
  destruct (RecommendationEngine.supabase svc); simpl; [|done].
  destruct (RecommendationEngine.cutoff now days) as [cutoff_date|]; [|done].
  by destruct (RecommendationEngine.trending_query svc _ _ _).
Qed.

Lemma app_head (a : Ascii.ascii) (s1 s2 : string) :
  String a s1 +:+ s2 = String a (s1 +:+ s2).
Proof. reflexivity. Qed.

Lemma personalized_key_not_trending user_id limit exclude_purchased l d m :
  RecommendationEngine.personalized_key user_id limit exclude_purchased
  <> RecommendationEngine.trending_key l d m.
Proof.
  unfold RecommendationEngine.personalized_key, RecommendationEngine.trending_key.
  rewrite !app_head. discriminate.
Qed.

(** C5 (as amended).  A user without interactions.  The cache is read
    before the history.  When the lookup of the personalized key is a miss,
    the call is the call of [get_trending_books(limit)] on the engine as
    the lookup left it, and the list it returns is the list that
    [get_trending_books(limit)] returns on the engine as it was before the
    call, in the same order.  When the lookup is a hit, the call returns
    the cached list.  Hit or miss, the call leaves under the personalized
    key the entry that was there or none: nothing is written under it. *)
Theorem personalized_cold_start svc (user_id : string) (limit : Z)
  (exclude_purchased : bool) (time_decay_factor : R) (now : Z) e :
  let key := RecommendationEngine.personalized_key user_id limit exclude_purchased in
  let looked_up :=
    RecommendationEngine._get_from_cache key now
      (RecommendationEngine.update_stats RecommendationEngine.count_personalized e) in
  let called :=
    RecommendationEngine.get_personalized_recommendations svc user_id limit
      exclude_purchased time_decay_factor now e in
  RecommendationEngine._get_user_interactions svc user_id = [] ->
  (RecommendationEngine.truthy looked_up.1 = false ->
   called
   = RecommendationEngine.get_trending_books svc limit 30 5 now
       (RecommendationEngine.update_stats RecommendationEngine.count_miss
          looked_up.2)
   /\ called.1 = (RecommendationEngine.get_trending_books svc limit 30 5 now e).1)
  /\ (RecommendationEngine.truthy looked_up.1 = true ->
      called.1 = default [] looked_up.1)
  /\ not_written key e called.2.
Proof.
  intros key looked_up called Hnone.
  assert (not_written key e looked_up.2) as Hlooked.
  { eapply not_written_trans; [apply not_written_update_stats|].
    apply not_written_get_from_cache. }
  assert (RecommendationEngine.truthy looked_up.1 = false ->
          called
          = RecommendationEngine.get_trending_books svc limit 30 5 now
              (RecommendationEngine.update_stats RecommendationEngine.count_miss
                 looked_up.2)) as Heq.
  { intros Hmiss. subst called.
    unfold RecommendationEngine.get_personalized_recommendations.
    fold key. fold looked_up.
    destruct looked_up as [cached e1] eqn:E. simpl in Hmiss |- *.
    by rewrite Hmiss, Hnone. }
  split.
  - intros Hmiss. split; [by apply Heq|]. rewrite (Heq Hmiss).
    apply trending_result_frame. subst looked_up.
    change (cached_entry (RecommendationEngine.update_stats ?f ?x) ?k)
      with (cached_entry x k).
    rewrite cached_entry_get_from_cache_other; [done|].
    intros H. symmetry in H. by apply personalized_key_not_trending in H.
  - split.
    { intros Hhit. subst called.
      unfold RecommendationEngine.get_personalized_recommendations.
      fold key. fold looked_up.
      destruct looked_up as [cached e1] eqn:E. simpl in Hhit |- *.
      by rewrite Hhit. }
    destruct (RecommendationEngine.truthy looked_up.1) eqn:Hlook.
    + subst called.
      unfold RecommendationEngine.get_personalized_recommendations.
      fold key. fold looked_up.
      destruct looked_up as [cached e1] eqn:E. simpl in Hlook, Hlooked |- *.
      rewrite Hlook. simpl.
      eapply not_written_trans; [exact Hlooked|apply not_written_update_stats].
    + rewrite (Heq eq_refl).
      eapply not_written_trans; [|apply not_written_trending,
                                   personalized_key_not_trending].
      eapply not_written_trans; [exact Hlooked|apply not_written_update_stats].
Qed.

Lemma get_from_cache_keeps_manager key now e :
  RecommendationEngine.cache_manager e <> None ->
  RecommendationEngine.cache_manager
    (RecommendationEngine._get_from_cache key now e).2 <> None.
Proof.
  unfold RecommendationEngine._get_from_cache.
  destruct (RecommendationEngine.cache_manager e) as [m|]; [|done].
  intros _. by destruct (CacheManager.get _ _ key _ now m).
Qed.

(** What [_set_cache] stores is what [_get_from_cache] reads while the
    entry lives. *)
Lemma get_after_set_cache key (data : list book) ttl now now' e e' :
  RecommendationEngine.cache_manager e <> None ->
  InMemoryCache.in_range now ttl = true ->
  now' < now + InMemoryCache.timedelta_seconds ttl ->
  RecommendationEngine.cache_manager e'
  = RecommendationEngine.cache_manager
      (RecommendationEngine._set_cache key data ttl now e) ->
  (RecommendationEngine._get_from_cache key now' e').1 = Some data.
Proof.
  intros Hm Hrange Hlive He'.
  unfold RecommendationEngine._get_from_cache. rewrite He'.
  unfold RecommendationEngine._set_cache.
  destruct (RecommendationEngine.cache_manager e) as [m|]; [|done]. simpl.
  unfold CacheManager.get, CacheManager.set. simpl.
  pose proof (get_set_live key data ttl now now' (CacheManager.cache m)
                Hrange Hlive) as H.
  destruct (InMemoryCache.set key data ttl now (CacheManager.cache m)) as [ok c0].
  simpl in *.
  destruct (InMemoryCache.get key now' c0) as [[r|] c]; simpl in *; congruence.
Qed.

(** C9.  The key of [get_similar_books] is made of [book_id], [limit] and
    [min_similarity] alone.  So, for two exclusion lists (and whatever the
    store holds): when the lookup is a hit, the two calls return the same
    list and leave the same engine; and when a first call misses, computes
    a list that is not empty and caches it (the expiry time, an hour
    later, is a [datetime]), a second call with the other exclusion list
    within the hour returns that list. *)
Theorem similar_books_cache_ignores_exclusions
  (svc1 svc2 : RecommendationEngine.services) (book_id : string) (limit : Z)
  (min_similarity : R) (exclude1 exclude2 : option (list string))
  (now1 now2 : Z) e :
  let key := RecommendationEngine.similar_key str_of_float book_id limit min_similarity in
  let looked_up :=
    RecommendationEngine._get_from_cache key now1
      (RecommendationEngine.update_stats RecommendationEngine.count_similar e) in
  let first :=
    RecommendationEngine.get_similar_books str_of_float svc1 book_id limit
      min_similarity exclude1 now1 e in
  (RecommendationEngine.truthy looked_up.1 = true ->
   first = RecommendationEngine.get_similar_books str_of_float svc2 book_id limit
             min_similarity exclude2 now1 e
   /\ Some first.1 = looked_up.1)
  /\ (RecommendationEngine.cache_manager e <> None ->
      RecommendationEngine.truthy looked_up.1 = false ->
      first.1 <> [] ->
      InMemoryCache.in_range now1 3600 = true ->
      now2 < now1 + InMemoryCache.timedelta_seconds 3600 ->
      (RecommendationEngine.get_similar_books str_of_float svc2 book_id limit
         min_similarity exclude2 now2 first.2).1 = first.1).
Proof.
  intros key looked_up first. split.
  - intros Hhit. subst first.
    unfold RecommendationEngine.get_similar_books. fold key. fold looked_up.
    destruct looked_up as [cached e1]. simpl in Hhit |- *. rewrite Hhit.
    split; [done|]. by destruct cached as [[|b l]|].
  - intros Hm Hmiss Hne Hrange Hlive.
    assert (RecommendationEngine.cache_manager looked_up.2 <> None) as Hm1.
    { by apply get_from_cache_keeps_manager. }
    assert (exists data e0,
              RecommendationEngine.cache_manager e0 <> None
              /\ first.1 = data
              /\ RecommendationEngine.cache_manager first.2
                 = RecommendationEngine.cache_manager
                     (RecommendationEngine._set_cache key data 3600 now1 e0))
      as (data & e0 & Hm0 & Hdata & Hcm).
    { subst first. revert Hne.
      unfold RecommendationEngine.get_similar_books. fold key. fold looked_up.
      destruct looked_up as [cached e1]. simpl in Hmiss, Hm1 |- *. rewrite Hmiss.
      destruct (RecommendationEngine._get_book_data svc1 book_id) as [target|];
        [|done].
      destruct (RecommendationEngine._get_or_generate_book_embedding svc1 target)
        as [emb|]; [|done].
      destruct (RecommendationEngine.similar_books_of svc1 target emb
                  min_similarity _) as [books|]; [|done].
      intros _. simpl. eexists _, _. split; [|split; reflexivity]. exact Hm1. }
    unfold RecommendationEngine.get_similar_books at 1. fold key.
    pose proof (get_after_set_cache key data 3600 now1 now2 e0
                  (RecommendationEngine.update_stats
                     RecommendationEngine.count_similar first.2)
                  Hm0 Hrange Hlive Hcm) as Hget.
    destruct (RecommendationEngine._get_from_cache key now2 _) as [cached e2].
    simpl in Hget. subst cached. rewrite <- Hdata in *.
    destruct first.1 as [|b l] eqn:E; [done|]. done.
Qed.

End OrchestratorFacts.

(** A store with one book, one candidate, one trending row and a user
    without interactions; and a new engine with its cache manager. *)
Definition demo_store : RecommendationEngine.services :=
  {| RecommendationEngine.supabase := true;
     RecommendationEngine._get_book_data := fun _ => Some a_novel;
     RecommendationEngine._get_candidate_books := fun _ _ _ => [a_novel];
     RecommendationEngine._get_or_generate_book_embedding := fun _ => Some [1%R];
     RecommendationEngine._get_user_interactions := fun _ => [];
     RecommendationEngine._get_user_purchased_books := fun _ => [];
     RecommendationEngine.trending_query :=
       fun _ _ _ => Return [RecommendationEngine.TrendingRow a_novel 7 3 17%R];
     RecommendationEngine._generate_similarity_reason :=
       fun _ _ => Return "Recommended because of similar content themes";
     RecommendationEngine.days_old := fun _ _ => Return 0;
     RecommendationEngine.process_book_text := fun _ => "";
     RecommendationEngine.generate_user_preference_embedding :=
       fun _ => Return [1%R] |}.

Definition new_engine : RecommendationEngine.t :=
  {| RecommendationEngine.stats_of := RecommendationEngine.Stats 0 0 0 0 0 0;
     RecommendationEngine.cache_manager := Some CacheManager.init |}.

Lemma personalized_cold_start_witness :
  let called :=
    RecommendationEngine.get_personalized_recommendations demo_store "u1" 10 true
      0.1%R 0 new_engine in
  called
  = RecommendationEngine.get_trending_books demo_store 10 30 5 0
      (RecommendationEngine.update_stats RecommendationEngine.count_miss
         (RecommendationEngine._get_from_cache
            (RecommendationEngine.personalized_key "u1" 10 true) 0
            (RecommendationEngine.update_stats
               RecommendationEngine.count_personalized new_engine)).2)
  /\ called.1
     = (RecommendationEngine.get_trending_books demo_store 10 30 5 0 new_engine).1
  /\ not_written (RecommendationEngine.personalized_key "u1" 10 true) new_engine
       called.2.
Proof.
  intros called.
  destruct (personalized_cold_start demo_store "u1" 10 true 0.1%R 0 new_engine)
    as [Hmiss [_ Hkey]].
  - reflexivity.
  - destruct Hmiss as [Hcall Hlist]; [reflexivity|].
    split; [exact Hcall|]. split; [exact Hlist|exact Hkey].
Defined.

Example trending_of_demo_store :
  (RecommendationEngine.get_trending_books demo_store 10 30 5 0 new_engine).1
  = [RecommendationEngine.with_score a_novel (Rmin 1 (17 / 100))
       "Trending with 7 recent purchases"].
Proof. reflexivity. Qed.

Lemma diversify_singleton {C S : Type} `{EqDecision C}
  (category_of : C -> slot string) (score : C -> S) (gt : S -> S -> bool)
  (x : C) (diversity_factor : R) (max_per_category : Z) :
  SimilarityEngine.diversify_results category_of score gt [x] diversity_factor
    max_per_category = [x].
Proof. reflexivity. Qed.

Lemma similarity_value_self_1 :
  RecommendationEngine.similarity_value [1%R] [1%R] = 1%R.
Proof.
  unfold RecommendationEngine.similarity_value.
  rewrite cosine_similarity_self; [done|].
  unfold SimilarityEngine.dot. simpl. lra.
Qed.

Lemma similar_books_of_demo_store :
  (RecommendationEngine.get_similar_books (fun _ => "0.3") demo_store "b0" 1 0%R
     (Some ["fiction"]) 0 new_engine).1
  = [RecommendationEngine.with_score a_novel 1%R
       "Recommended because of similar content themes"].
Proof.
  unfold RecommendationEngine.get_similar_books.
  set (looked_up := RecommendationEngine._get_from_cache _ _ _).
  assert (looked_up.1 = None) as Hmiss by reflexivity.
  destruct looked_up as [cached e1]. simpl in Hmiss. subst cached.
  cbn [RecommendationEngine.truthy]. cbn [demo_store RecommendationEngine._get_book_data
    RecommendationEngine._get_or_generate_book_embedding
    RecommendationEngine._get_candidate_books].
  unfold RecommendationEngine.similar_books_of.
  cbn [demo_store RecommendationEngine._get_or_generate_book_embedding
    RecommendationEngine._generate_similarity_reason bind].
  rewrite similarity_value_self_1.
  destruct (Rge_dec 1 0) as [_|Hn]; [|lra].
  cbn [bind fst sorted_by foldr insert_sorted].
  unfold RecommendationEngine.diversify.
  change (py_take (1 * 2) [?x]) with [x].
  rewrite diversify_singleton. reflexivity.
Qed.

(** A first call that excludes a category, a second call one second later
    that excludes nothing. *)
Lemma similar_books_cache_ignores_exclusions_witness :
  let first :=
    RecommendationEngine.get_similar_books (fun _ => "0.3") demo_store "b0" 1 0%R
      (Some ["fiction"]) 0 new_engine in
  (RecommendationEngine.get_similar_books (fun _ => "0.3") demo_store "b0" 1 0%R
     None 1000000 first.2).1 = first.1.
Proof.
  intros first.
  destruct (similar_books_cache_ignores_exclusions (fun _ => "0.3") demo_store
              demo_store "b0" 1 0%R (Some ["fiction"]) None 0 1000000 new_engine)
    as [_ Hsecond].
  apply Hsecond.
  - discriminate.
  - reflexivity.
  - rewrite similar_books_of_demo_store. discriminate.
  - reflexivity.
  - unfold InMemoryCache.timedelta_seconds. lia.
Defined.

(** The store of [demo_store] at an earlier time, when the user had viewed
    one book. *)
Definition viewed_a_novel : RecommendationEngine.interaction :=
  RecommendationEngine.Interaction "b1" (Some a_novel) "view"
    "2024-01-01T00:00:00" 0.5.

Definition earlier_store : RecommendationEngine.services :=
  {| RecommendationEngine.supabase := true;
     RecommendationEngine._get_book_data := fun _ => Some a_novel;
     RecommendationEngine._get_candidate_books := fun _ _ _ => [a_novel];
     RecommendationEngine._get_or_generate_book_embedding := fun _ => Some [1%R];
     RecommendationEngine._get_user_interactions := fun _ => [viewed_a_novel];
     RecommendationEngine._get_user_purchased_books := fun _ => [];
     RecommendationEngine.trending_query :=
       fun _ _ _ => Return [RecommendationEngine.TrendingRow a_novel 7 3 17%R];
     RecommendationEngine._generate_similarity_reason :=
       fun _ _ => Return "Recommended because of similar content themes";
     RecommendationEngine.days_old := fun _ _ => Return 0;
     RecommendationEngine.process_book_text := fun _ => "";
     RecommendationEngine.generate_user_preference_embedding :=
       fun _ => Return [1%R] |}.

Definition recommended_a_novel : book :=
  RecommendationEngine.with_score a_novel (1 / 2)
    "Recommended because you enjoy fiction books, you like books by Bob".

Lemma profile_of_earlier_store :
  RecommendationEngine._build_user_profile earlier_store [viewed_a_novel] 0.1 0
  = {| preference_embedding := PyNone;
       favorite_categories := Val ["fiction"];
       favorite_authors := Val ["Bob"];
       interaction_count := Some 1 |}.
Proof.
  unfold RecommendationEngine._build_user_profile,
    RecommendationEngine._build_user_profile_try.
  cbn [RecommendationEngine.collect viewed_a_novel earlier_store
       RecommendationEngine.interaction_book RecommendationEngine.days_old
       RecommendationEngine.timestamp bind].
  destruct (Rlt_dec 0.5 _) as [Hlt|_].
  { exfalso. revert Hlt. cbn [RecommendationEngine.weight viewed_a_novel].
    rewrite Rmax_right; lra. }
  reflexivity.
Qed.

Lemma recommendations_of_earlier_store :
  RecommendationEngine.recommendations_of earlier_store
    {| preference_embedding := PyNone;
       favorite_categories := Val ["fiction"];
       favorite_authors := Val ["Bob"];
       interaction_count := Some 1 |}
    [a_novel]
  = Return [recommended_a_novel].
Proof.
  cbn [RecommendationEngine.recommendations_of earlier_store
       RecommendationEngine._get_or_generate_book_embedding].
  rewrite (affinity_none_embedding _ _ [1%R] ["fiction"] ["Bob"] "fiction" "Bob")
    by reflexivity.
  replace (SimilarityEngine.best_match 0.7 _ _ 0) with 1%R by reflexivity.
  replace (SimilarityEngine.best_match 0.8 _ _ 0) with 1%R by reflexivity.
  replace (0.3 * 1 + 0.2 * 1)%R with (1 / 2)%R by lra.
  cbn [bind]. destruct (Rlt_dec 0.2 (1 / 2)) as [_|Hn]; [|exfalso; lra].
  reflexivity.
Qed.

Lemma personalized_of_earlier_store :
  RecommendationEngine.get_personalized_recommendations earlier_store "u1" 10 true
    0.1 0 new_engine
  = ([recommended_a_novel],
     RecommendationEngine.update_stats RecommendationEngine.count_generated
       (RecommendationEngine._set_cache
          (RecommendationEngine.personalized_key "u1" 10 true)
          [recommended_a_novel] 1800 0
          (RecommendationEngine.update_stats RecommendationEngine.count_miss
             (RecommendationEngine._get_from_cache
                (RecommendationEngine.personalized_key "u1" 10 true) 0
                (RecommendationEngine.update_stats
                   RecommendationEngine.count_personalized new_engine)).2))).
Proof.
  unfold RecommendationEngine.get_personalized_recommendations.
  set (looked_up := RecommendationEngine._get_from_cache _ _ _).
  assert (looked_up.1 = None) as Hmiss by reflexivity.
  destruct looked_up as [cached e1]. simpl in Hmiss. subst cached.
  cbn [RecommendationEngine.truthy earlier_store
       RecommendationEngine._get_user_interactions
       RecommendationEngine._get_user_purchased_books
       RecommendationEngine._get_candidate_books snd].
  change (RecommendationEngine._get_candidate_books earlier_store None (Some []) None)
    with [a_novel].
  rewrite profile_of_earlier_store, recommendations_of_earlier_store.
  cbn [sorted_by foldr insert_sorted].
  change (py_take (10 * 2) [?x]) with [x].
  unfold RecommendationEngine.diversify. rewrite diversify_singleton.
  reflexivity.
Qed.

(** C5 as stated fails for a user whose history is empty now and whose
    personalized key still holds a list: the cache is read before the
    history.  A first call, when the user had viewed a book, computes and
    caches a recommendation; a second call one second later, on the store
    where the user has no interactions, returns that list, not the
    trending list. *)
Lemma personalized_cold_user_cache_hit :
  let first :=
    RecommendationEngine.get_personalized_recommendations earlier_store "u1" 10 true
      0.1 0 new_engine in
  let second :=
    RecommendationEngine.get_personalized_recommendations demo_store "u1" 10 true
      0.1 1000000 first.2 in
  let trending :=
    RecommendationEngine.get_trending_books demo_store 10 30 5 1000000 first.2 in
  RecommendationEngine._get_user_interactions demo_store "u1" = []
  /\ second.1 = [recommended_a_novel]
  /\ trending.1
     = [RecommendationEngine.with_score a_novel (Rmin 1 (17 / 100))
          "Trending with 7 recent purchases"]
  /\ second.1 <> trending.1.
Proof.
  intros first second trending.
  assert (second.1 = [recommended_a_novel]) as Hsecond.
  { subst second first. rewrite personalized_of_earlier_store. cbn [snd].
    unfold RecommendationEngine.get_personalized_recommendations.
    set (e0 := RecommendationEngine.update_stats RecommendationEngine.count_miss _).
    pose proof (get_after_set_cache
                  (RecommendationEngine.personalized_key "u1" 10 true)
                  [recommended_a_novel] 1800 0 1000000 e0
                  (RecommendationEngine.update_stats
                     RecommendationEngine.count_personalized
                     (RecommendationEngine.update_stats
                        RecommendationEngine.count_generated
                        (RecommendationEngine._set_cache
                           (RecommendationEngine.personalized_key "u1" 10 true)
                           [recommended_a_novel] 1800 0 e0)))) as Hget.
    destruct (RecommendationEngine._get_from_cache _ 1000000 _) as [cached e2].
    simpl in Hget. rewrite Hget; [done|discriminate|reflexivity| |reflexivity].
    unfold InMemoryCache.timedelta_seconds. lia. }
  assert (trending.1
          = [RecommendationEngine.with_score a_novel (Rmin 1 (17 / 100))
               "Trending with 7 recent purchases"]) as Htrending.
  { subst trending first. rewrite personalized_of_earlier_store. reflexivity. }
  split; [reflexivity|]. split; [exact Hsecond|]. split; [exact Htrending|].
  rewrite Hsecond, Htrending. unfold recommended_a_novel.
  unfold RecommendationEngine.with_score. intros Heq. discriminate Heq.
Qed.

(** * Part III: further properties of the code *)

(** ** [InMemoryCache]: the two dicts, deletion, reads, eviction *)

Section PyDictMore.
Context {K V : Type} `{EqDecision K}.
Implicit Types (d : list (K * V)).

Lemma keys_setitem_NoDup k v d :
  NoDup (PyDict.keys d) -> NoDup (PyDict.keys (PyDict.setitem k v d)).
Proof.
  induction d as [|[k' v'] d IH]; simpl; intros Hnd.
  - apply NoDup_singleton.
  - apply NoDup_cons in Hnd as [Hnin Hnd].
    destruct (decide (k' = k)) as [->|Hne]; simpl.
    + by apply NoDup_cons.
    + apply NoDup_cons. split; [|by apply IH].
      intros Hin. apply (keys_setitem k v d k') in Hin as [?|?]; [congruence|done].
Qed.

Lemma keys_pop_NoDup k d :
  NoDup (PyDict.keys d) -> NoDup (PyDict.keys (PyDict.pop k d)).
Proof.
  unfold PyDict.keys, PyDict.pop. intros Hnd.
  refine (sublist_NoDup _ _ Hnd _).
  apply fmap_sublist, sublist_filter.
Qed.

Lemma getitem_setitem k v d : PyDict.getitem k (PyDict.setitem k v d) = Some v.
Proof.
  induction d as [|[k' v'] d IH]; simpl.
  - by rewrite decide_True.
  - destruct (decide (k' = k)) as [->|Hne]; simpl.
    + by rewrite decide_True.
    + by rewrite decide_False.
Qed.

End PyDictMore.

Section InMemoryCacheMore.
Context {V : Type} `{PyValue V}.
Implicit Types (c : InMemoryCache.t V) (key k : string).

Lemma wf_get key now c : wf c -> wf (InMemoryCache.get key now c).2.
Proof.
  intros Hwf. unfold InMemoryCache.get.
  destruct (InMemoryCache.cache c !! key) as [e|] eqn:E; [|done].
  destruct (InMemoryCache.expires_at e >? now); [|by apply wf_delete].
  intros k. simpl. rewrite keys_setitem, (Hwf k).
  split; [intros [->|?]; [by rewrite E|done]|tauto].
Qed.

Lemma wf_set key (v : V) ttl now c : wf c -> wf (InMemoryCache.set key v ttl now c).2.
Proof.
  intros Hwf. unfold InMemoryCache.set.
  set (c1 := if _ >=? _ then _ else c).
  assert (wf c1) as Hwf1.
  { subst c1. destruct (_ >=? _); [|done]. by apply evict_oldest_props. }
  clearbody c1. destruct (InMemoryCache.expiry now ttl); [|exact Hwf1].
  intros k.
  cbn [snd InMemoryCache.cache InMemoryCache.access_times].
  rewrite keys_setitem, (Hwf1 k).
  destruct (decide (k = key)) as [->|Hne].
  - rewrite lookup_insert_eq. split; [eauto|tauto].
  - rewrite lookup_insert_ne by done. tauto.
Qed.

Lemma wf_step c (o : InMemoryCache.op V) : wf c -> wf (InMemoryCache.step c o).
Proof.
  intros Hwf. destruct o as [key now|key v ttl now|key| |key now]; simpl.
  - by apply wf_get.
  - by apply wf_set.
  - by apply wf_delete.
  - apply (wf_init 0).
  - unfold InMemoryCache.exists_.
    pose proof (wf_get key now c Hwf) as Hg.
    by destruct (InMemoryCache.get key now c).
Qed.

Lemma wf_run (ops : list (InMemoryCache.op V)) c :
  wf c -> wf (InMemoryCache.run ops c).
Proof.
  revert c. unfold InMemoryCache.run.
  induction ops as [|o ops IH]; intros c Hwf; simpl; [done|].
  apply IH. by apply wf_step.
Qed.

(** Whatever the capacity and whatever the calls, [access_times] holds a
    time for exactly the keys that [cache] holds an entry for. *)
Theorem access_times_track_cache (max_size : Z) (ops : list (InMemoryCache.op V))
  (k : string) :
  let c := InMemoryCache.run ops (InMemoryCache.init max_size) in
  k ∈ PyDict.keys (InMemoryCache.access_times c)
  <-> is_Some (InMemoryCache.cache c !! k).
Proof. intros c. apply wf_run, wf_init. Qed.

(** After a [set(key, v, ttl)] whose expiry time is a [datetime], so that
    the entry is stored, [delete(key)] returns [True] whether or not the
    entry has expired; then [get(key)] and [exists(key)] miss at any time,
    a second [delete(key)] returns [False], and the entries under the
    other keys are the ones [set] left. *)
Theorem set_delete_get key (v : V) (ttl now now' : Z) c :
  InMemoryCache.in_range now ttl = true ->
  let c1 := (InMemoryCache.set key v ttl now c).2 in
  let d := InMemoryCache.delete key c1 in
  d.1 = true
  /\ (InMemoryCache.get key now' d.2).1 = None
  /\ (InMemoryCache.exists_ key now' d.2).1 = false
  /\ (InMemoryCache.delete key d.2).1 = false
  /\ (forall k, k <> key ->
        InMemoryCache.cache d.2 !! k = InMemoryCache.cache c1 !! k).
Proof.
  intros Hrange c1 d.
  assert (is_Some (InMemoryCache.cache c1 !! key)) as [e E].
  { subst c1. rewrite set_in_range by done. simpl.
    rewrite lookup_insert_eq. eauto. }
  assert (d = (true, InMemoryCache.Make (base.delete key (InMemoryCache.cache c1))
                       (InMemoryCache.max_size c1)
                       (PyDict.pop key (InMemoryCache.access_times c1)))) as Hd.
  { subst d. unfold InMemoryCache.delete. by rewrite E. }
  rewrite Hd. simpl.
  assert (forall now0, InMemoryCache.get key now0
            (InMemoryCache.Make (base.delete key (InMemoryCache.cache c1))
               (InMemoryCache.max_size c1)
               (PyDict.pop key (InMemoryCache.access_times c1)))
          = (None, InMemoryCache.Make (base.delete key (InMemoryCache.cache c1))
                     (InMemoryCache.max_size c1)
                     (PyDict.pop key (InMemoryCache.access_times c1)))) as Hget.
  { intros now0. unfold InMemoryCache.get. simpl. by rewrite lookup_delete_eq. }
  split; [done|]. split; [by rewrite Hget|]. split.
  { unfold InMemoryCache.exists_. by rewrite Hget. }
  split.
  { unfold InMemoryCache.delete. simpl. by rewrite lookup_delete_eq. }
  intros k Hne. by apply lookup_delete_ne.
Qed.

(** What one [get(key)] does.  A hit returns the value of an entry that
    has not expired, leaves [cache] as it was and sets the access time of
    the key to the time of the call; a miss leaves no entry under the key.
    Either way the entries under the other keys and the capacity are
    untouched. *)
Theorem get_effect key (now : Z) c :
  let r := InMemoryCache.get key now c in
  (forall k, k <> key ->
     InMemoryCache.cache r.2 !! k = InMemoryCache.cache c !! k)
  /\ InMemoryCache.max_size r.2 = InMemoryCache.max_size c
  /\ match r.1 with
     | Some v =>
         InMemoryCache.cache r.2 = InMemoryCache.cache c
         /\ PyDict.getitem key (InMemoryCache.access_times r.2) = Some now
         /\ exists e, InMemoryCache.cache c !! key = Some e
                      /\ InMemoryCache.value e = v
                      /\ now < InMemoryCache.expires_at e
     | None => InMemoryCache.cache r.2 !! key = None
     end.
Proof.
  intros r. subst r. unfold InMemoryCache.get.
  destruct (InMemoryCache.cache c !! key) as [e|] eqn:E; simpl.
  - destruct (Z.gtb_spec (InMemoryCache.expires_at e) now) as [Hlive|Hdead]; simpl.
    + split; [done|]. split; [done|]. split; [done|].
      split; [apply getitem_setitem|]. exists e. split; [done|]. split; [done|lia].
    + unfold InMemoryCache.delete. rewrite E. simpl.
      split; [intros k Hne; by apply lookup_delete_ne|].
      split; [done|]. apply lookup_delete_eq.
  - done.
Qed.

(** The keys of [access_times] are distinct, as those of a dict are. *)
Definition distinct_keys c : Prop :=
  NoDup (PyDict.keys (InMemoryCache.access_times c)).

Lemma distinct_keys_delete key c :
  distinct_keys c -> distinct_keys (InMemoryCache.delete key c).2.
Proof.
  unfold distinct_keys, InMemoryCache.delete. intros Hnd.
  destruct (InMemoryCache.cache c !! key); simpl; [|done].
  by apply keys_pop_NoDup.
Qed.

Lemma distinct_keys_delete_all (ks : list string) c :
  distinct_keys c ->
  distinct_keys (foldl (fun c' key => (InMemoryCache.delete key c').2) c ks).
Proof.
  revert c. induction ks as [|k ks IH]; intros c Hnd; simpl; [done|].
  apply IH. by apply distinct_keys_delete.
Qed.

Lemma distinct_keys_evict c :
  distinct_keys c -> distinct_keys (InMemoryCache._evict_oldest c).
Proof.
  intros Hnd. unfold InMemoryCache._evict_oldest.
  destruct (InMemoryCache.access_times c) eqn:E; [done|].
  by apply distinct_keys_delete_all.
Qed.

Lemma distinct_keys_get key now c :
  distinct_keys c -> distinct_keys (InMemoryCache.get key now c).2.
Proof.
  intros Hnd. unfold InMemoryCache.get.
  destruct (InMemoryCache.cache c !! key) as [e|] eqn:E; [|done].
  destruct (InMemoryCache.expires_at e >? now); [|by apply distinct_keys_delete].
  by apply keys_setitem_NoDup.
Qed.

Lemma distinct_keys_step c (o : InMemoryCache.op V) :
  distinct_keys c -> distinct_keys (InMemoryCache.step c o).
Proof.
  intros Hnd. destruct o as [key now|key v ttl now|key| |key now]; simpl.
  - by apply distinct_keys_get.
  - unfold InMemoryCache.set, distinct_keys.
    destruct (InMemoryCache.expiry now ttl); simpl.
    + apply keys_setitem_NoDup.
      destruct (_ >=? _); [by apply distinct_keys_evict|done].
    + destruct (_ >=? _); [by apply distinct_keys_evict|done].
  - by apply distinct_keys_delete.
  - apply NoDup_nil_2.
  - unfold InMemoryCache.exists_.
    pose proof (distinct_keys_get key now c Hnd) as Hg.
    by destruct (InMemoryCache.get key now c).
Qed.

Lemma distinct_keys_run (ops : list (InMemoryCache.op V)) c :
  distinct_keys c -> distinct_keys (InMemoryCache.run ops c).
Proof.
  revert c. unfold InMemoryCache.run.
  induction ops as [|o ops IH]; intros c Hnd; simpl; [done|].
  apply IH. by apply distinct_keys_step.
Qed.

(** With distinct keys the two dicts have the same number of entries. *)
Lemma length_access_times c :
  wf c -> distinct_keys c ->
  length (InMemoryCache.access_times c) = size (InMemoryCache.cache c).
Proof.
  intros Hwf Hnd.
  rewrite <- (length_fmap fst (InMemoryCache.access_times c)).
  change (fst <$> InMemoryCache.access_times c)
    with (PyDict.keys (InMemoryCache.access_times c)).
  rewrite <- (size_dom (D:=gset string) (InMemoryCache.cache c)).
  rewrite <- (size_list_to_set (C:=gset string)
                (PyDict.keys (InMemoryCache.access_times c))) by done.
  f_equal. apply set_eq. intros k.
  rewrite elem_of_list_to_set, elem_of_dom. apply Hwf.
Qed.

(** Deleting distinct keys that are all there removes that many entries. *)
Lemma delete_all_size (ks : list string) c :
  NoDup ks ->
  (forall k, k ∈ ks -> is_Some (InMemoryCache.cache c !! k)) ->
  (size (InMemoryCache.cache
           (foldl (fun c' key => (InMemoryCache.delete key c').2) c ks))
   + length ks)%nat
  = size (InMemoryCache.cache c).
Proof.
  revert c. induction ks as [|k ks IH]; intros c Hnd Hin; simpl; [lia|].
  apply NoDup_cons in Hnd as [Hk Hnd].
  rewrite <- (size_delete_present k c) by (apply Hin; left).
  rewrite <- (IH (InMemoryCache.delete k c).2 Hnd); [lia|].
  intros k' Hk'. destruct (Hin k') as [e E]; [by right|].
  unfold InMemoryCache.delete.
  destruct (InMemoryCache.cache c !! k) eqn:Ek; simpl; [|eauto].
  rewrite lookup_delete_ne; [eauto|]. intros ->. done.
Qed.

Lemma evict_oldest_size c :
  wf c -> distinct_keys c ->
  let n := size (InMemoryCache.cache c) in
  (1 <= n)%nat ->
  size (InMemoryCache.cache (InMemoryCache._evict_oldest c))
  = (n - Nat.max 1 (n / 10))%nat.
Proof.
  intros Hwf Hnd n Hn.
  pose proof (length_access_times c Hwf Hnd) as Hlen. fold n in Hlen.
  unfold InMemoryCache._evict_oldest.
  destruct (InMemoryCache.access_times c) as [|kv l] eqn:E; [simpl in Hlen; lia|].
  rewrite <- E in *. clear E kv l.
  pose proof (sorted_by_perm Z.ltb snd (InMemoryCache.access_times c)) as Hp.
  assert (length (InMemoryCache.keys_to_remove c) = Nat.max 1 (n / 10)) as Hk.
  { unfold InMemoryCache.keys_to_remove.
    rewrite length_map, length_take, (Permutation_length Hp), Hlen.
    assert (n / 10 <= n)%nat by (apply Nat.Div0.div_le_upper_bound; lia).
    lia. }
  pose proof (delete_all_size (InMemoryCache.keys_to_remove c) c) as Hs.
  rewrite Hk in Hs. fold n in Hs.
  assert (Nat.max 1 (n / 10) <= n)%nat.
  { assert (n / 10 <= n)%nat by (apply Nat.Div0.div_le_upper_bound; lia). lia. }
  enough (size (InMemoryCache.cache
                  (foldl (fun c' key => (InMemoryCache.delete key c').2) c
                     (InMemoryCache.keys_to_remove c)))
          + Nat.max 1 (n / 10) = n)%nat by lia.
  apply Hs.
  - unfold InMemoryCache.keys_to_remove.
    assert (NoDup (fst <$> sorted_by Z.ltb snd (InMemoryCache.access_times c)))
      as Hnd' by (rewrite Hp; exact Hnd).
    refine (sublist_NoDup _ _ Hnd' _). apply fmap_sublist, sublist_take.
  - intros k Hin. apply Hwf. unfold InMemoryCache.keys_to_remove in Hin.
    unfold PyDict.keys. rewrite <- Hp.
    refine (elem_of_sublist _ _ _ Hin _). apply fmap_sublist, sublist_take.
Qed.

(** On a cache reached by any calls that holds [n >= 1] entries,
    [_evict_oldest] removes exactly [max(1, n // 10)] of them. *)
Theorem evict_oldest_count (max_size : Z) (ops : list (InMemoryCache.op V)) :
  let c := InMemoryCache.run ops (InMemoryCache.init max_size) in
  let n := size (InMemoryCache.cache c) in
  (1 <= n)%nat ->
  size (InMemoryCache.cache (InMemoryCache._evict_oldest c))
  = (n - Nat.max 1 (n / 10))%nat.
Proof.
  intros c n Hn. apply evict_oldest_size.
  - apply wf_run, wf_init.
  - apply distinct_keys_run. apply NoDup_nil_2.
  - exact Hn.
Qed.

End InMemoryCacheMore.

Lemma set_delete_get_witness :
  let c1 := (InMemoryCache.set "k" 7%nat 60 0 (InMemoryCache.init 1000)).2 in
  let d := InMemoryCache.delete "k" c1 in
  d.1 = true
  /\ (InMemoryCache.get "k" 5 d.2).1 = None
  /\ (InMemoryCache.exists_ "k" 5 d.2).1 = false
  /\ (InMemoryCache.delete "k" d.2).1 = false
  /\ (forall k, k <> "k" ->
        InMemoryCache.cache d.2 !! k = InMemoryCache.cache c1 !! k).
Proof.
  apply (set_delete_get "k" 7%nat 60 0 5 (InMemoryCache.init 1000)).
  reflexivity.
Defined.

Lemma evict_oldest_count_witness :
  let c := InMemoryCache.run
             [InMemoryCache.Set_ "a" 1%nat 60 0; InMemoryCache.Set_ "b" 2%nat 60 1;
              InMemoryCache.Get "a" 2; InMemoryCache.Set_ "c" 3%nat 60 3]
             (InMemoryCache.init 10) in
  size (InMemoryCache.cache (InMemoryCache._evict_oldest c))
  = (size (InMemoryCache.cache c)
     - Nat.max 1 (size (InMemoryCache.cache c) / 10))%nat.
Proof.
  apply (evict_oldest_count 10
           [InMemoryCache.Set_ "a" 1%nat 60 0; InMemoryCache.Set_ "b" 2%nat 60 1;
            InMemoryCache.Get "a" 2; InMemoryCache.Set_ "c" 3%nat 60 3]).
  vm_compute. lia.
Defined.

(** In that run the eviction removes the entry under ["b"]: ["a"] was set
    first but read after ["b"] was set. *)
Example evict_least_recently_read :
  let c := InMemoryCache.run
             [InMemoryCache.Set_ "a" 1%nat 60 0; InMemoryCache.Set_ "b" 2%nat 60 1;
              InMemoryCache.Get "a" 2; InMemoryCache.Set_ "c" 3%nat 60 3]
             (InMemoryCache.init 10) in
  InMemoryCache.keys_to_remove c = ["b"].
Proof. vm_compute. done. Qed.

(** ** [CacheManager]: round trip, counters, invalidation *)

Section CacheManagerMore.
Context {P V : Type} `{PyValue V}.
Context (format : P -> string) (md5_hexdigest : string -> string).
Implicit Types (m : CacheManager.t V) (params : list (string * P)).

Local Abbreviation cache_key := (CacheManager._generate_cache_key format md5_hexdigest).


(** What [get] returns and counts, read off the backend's result. *)
Lemma manager_get_result key params now m :
  let r := CacheManager.get format md5_hexdigest key params now m in
  let b := InMemoryCache.get (cache_key key params) now (CacheManager.cache m) in
  let st := CacheManager.stats_of m in
  CacheManager.cache r.2 = b.2
  /\ match b.1 with
     | Some v =>
         if is_none v
         then r.1 = None
              /\ CacheManager.stats_of r.2
                 = CacheManager.Stats (CacheManager.hits st)
                     (CacheManager.misses st + 1) (CacheManager.sets st)
                     (CacheManager.deletes st) (CacheManager.errors st)
         else r.1 = Some v
              /\ CacheManager.stats_of r.2
                 = CacheManager.Stats (CacheManager.hits st + 1)
                     (CacheManager.misses st) (CacheManager.sets st)
                     (CacheManager.deletes st) (CacheManager.errors st)
     | None =>
         r.1 = None
         /\ CacheManager.stats_of r.2
            = CacheManager.Stats (CacheManager.hits st)
                (CacheManager.misses st + 1) (CacheManager.sets st)
                (CacheManager.deletes st) (CacheManager.errors st)
     end.
Proof.
  intros r b st. subst r b. unfold CacheManager.get.
  destruct (InMemoryCache.get _ now (CacheManager.cache m)) as [[v|] c]; simpl;
    [|done].
  by destruct (is_none v).
Qed.


(** A stored [None] reads as a miss: [get] returns [None] and counts a
    miss, and [exists] is [False]. *)
Lemma manager_get_stored_none key (value : V) (ttl : Z) params (now now' : Z) m :
  is_none value = true ->
  InMemoryCache.in_range now ttl = true ->
  now' < now + InMemoryCache.timedelta_seconds ttl ->
  let m1 := (CacheManager.set format md5_hexdigest key value ttl params now m).2 in
  let r := CacheManager.get format md5_hexdigest key params now' m1 in
  r.1 = None
  /\ CacheManager.misses (CacheManager.stats_of r.2)
     = CacheManager.misses (CacheManager.stats_of m) + 1
  /\ CacheManager.hits (CacheManager.stats_of r.2)
     = CacheManager.hits (CacheManager.stats_of m)
  /\ (CacheManager.exists_ format md5_hexdigest key params now' m1).1 = false.
Proof.
  intros Hval Hrange Hlive m1 r.
  destruct (manager_get_result key params now' m1) as [_ Hres]. fold r in Hres.
  set (k := cache_key key params) in *.
  assert (CacheManager.cache m1
          = (InMemoryCache.set k value ttl now (CacheManager.cache m)).2
          /\ CacheManager.stats_of m1
             = CacheManager.Stats (CacheManager.hits (CacheManager.stats_of m))
                 (CacheManager.misses (CacheManager.stats_of m))
                 (CacheManager.sets (CacheManager.stats_of m) + 1)
                 (CacheManager.deletes (CacheManager.stats_of m))
                 (CacheManager.errors (CacheManager.stats_of m))) as [Hc Hst].
  { subst m1. unfold CacheManager.set. fold k.
    rewrite set_in_range by done. done. }
  pose proof (get_set_live k value ttl now now' (CacheManager.cache m)
                Hrange Hlive) as Hget.
  rewrite Hc, Hget, Hval in Hres.
  destruct Hres as [-> ->]. rewrite Hst. split; [done|]. split; [done|].
  split; [done|].
  unfold CacheManager.exists_, InMemoryCache.exists_. fold k. rewrite Hc.
  destruct (InMemoryCache.get k now' _) as [res c2]. simpl in Hget. subst res.
  simpl. by rewrite Hval.
Qed.






Definition calls (which : CacheManager.op P V -> bool)
  (ops : list (CacheManager.op P V)) : Z :=
  Z.of_nat (length (filter (fun o => which o = true) ops)).


Lemma calls_nonneg which ops : 0 <= calls which ops.
Proof. unfold calls. lia. Qed.






End CacheManagerMore.

Section InvalidationFacts.
Context {V : Type} `{PyValue V} (md5_hexdigest : string -> string).
Implicit Types (m : CacheManager.t V).

(** On the in-memory backend [clear(pattern)] clears nothing. *)
Lemma clear_fails pattern m :
  CacheManager.clear pattern m
  = (false,
     CacheManager.Make
       (CacheManager.Stats (CacheManager.hits (CacheManager.stats_of m))
          (CacheManager.misses (CacheManager.stats_of m))
          (CacheManager.sets (CacheManager.stats_of m))
          (CacheManager.deletes (CacheManager.stats_of m))
          (CacheManager.errors (CacheManager.stats_of m) + 1))
       (CacheManager.cache m)).
Proof. reflexivity. Qed.

Lemma get_after_set (base_key : string) (params : list (string * string))
  (value : V) ttl now now' m m2 :
  is_none value = false ->
  InMemoryCache.in_range now ttl = true ->
  now' < now + InMemoryCache.timedelta_seconds ttl ->
  CacheManager.cache m2
  = CacheManager.cache
      (CacheManager.set CacheManager.as_is md5_hexdigest base_key value ttl
         params now m).2 ->
  (CacheManager.get CacheManager.as_is md5_hexdigest base_key params now' m2).1
  = Some value.
Proof.
  intros Hval Hrange Hlive Hc.
  destruct (manager_get_result CacheManager.as_is md5_hexdigest base_key params
              now' m2) as [_ Hres].
  rewrite Hc in Hres. unfold CacheManager.set in Hres.
  set (k := CacheManager._generate_cache_key _ _ base_key params) in *.
  pose proof (get_set_live k value ttl now now' (CacheManager.cache m)
                Hrange Hlive) as Hget.
  destruct (InMemoryCache.set k value ttl now (CacheManager.cache m)) as [b c1].
  cbn [snd CacheManager.cache] in Hres, Hget.
  rewrite Hget, Hval in Hres. by destruct Hres as [-> _].
Qed.

(** With the in-memory backend the two invalidation methods remove
    nothing.  Each of their [clear(pattern)] calls passes an argument that
    [InMemoryCache.clear] does not take; the [TypeError] is caught, counted
    in [errors], and the store is left as it was.  So a profile cached
    before [invalidate_user_cache], and an embedding cached before
    [invalidate_book_cache] (values other than [None], with an expiry time
    that is a [datetime]), is still returned while it has not expired. *)
Theorem invalidate_keeps_entries (user_id book_id : string) (profile embedding : V)
  (ttl now now' : Z) m :
  is_none profile = false ->
  is_none embedding = false ->
  InMemoryCache.in_range now ttl = true ->
  now' < now + InMemoryCache.timedelta_seconds ttl ->
  let mu := (CacheManager.cache_user_profile md5_hexdigest user_id profile ttl now m).2 in
  let mu' := CacheManager.invalidate_user_cache user_id mu in
  let mb := (CacheManager.cache_book_embedding md5_hexdigest book_id embedding ttl now m).2 in
  let mb' := CacheManager.invalidate_book_cache book_id mb in
  (CacheManager.cache mu' = CacheManager.cache mu
   /\ CacheManager.errors (CacheManager.stats_of mu')
      = CacheManager.errors (CacheManager.stats_of mu) + 2
   /\ (CacheManager.get_user_profile md5_hexdigest user_id now' mu').1 = Some profile)
  /\ (CacheManager.cache mb' = CacheManager.cache mb
      /\ CacheManager.errors (CacheManager.stats_of mb')
         = CacheManager.errors (CacheManager.stats_of mb) + 2
      /\ (CacheManager.get_book_embedding md5_hexdigest book_id now' mb').1
         = Some embedding).
Proof.
  intros Hprofile Hembedding Hrange Hlive mu mu' mb mb'. split.
  - split; [done|]. split; [simpl; lia|].
    by apply (get_after_set "user_profile" [("user_id", user_id)] profile ttl now now' m).
  - split; [done|]. split; [simpl; lia|].
    by apply (get_after_set "book_embedding" [("book_id", book_id)] embedding ttl
                now now' m).
Qed.

End InvalidationFacts.


(** A [set] of [None], and a [set] whose expiry time is past the year
    9999: both read back as a miss, and the second is not counted in
    [sets]. *)
Example manager_set_not_read_back :
  let same := fun v : string => v in
  let stored_none :=
    CacheManager.get same same "recs" []
      1 (CacheManager.set same same "recs" (@None nat) 60 [] 0 CacheManager.init).2 in
  let overflow :=
    CacheManager.get same same "recs" []
      1 (CacheManager.set same same "recs" (Some 7%nat) 1000000000000 [] 0
           CacheManager.init).2 in
  (stored_none.1 = None
   /\ CacheManager.stats_of stored_none.2 = CacheManager.Stats 0 1 1 0 0)
  /\ (overflow.1 = None
      /\ CacheManager.stats_of overflow.2 = CacheManager.Stats 0 1 0 0 0).
Proof. vm_compute. done. Qed.

Lemma invalidate_keeps_entries_witness :
  let md5 := fun v : string => v in
  let m := CacheManager.init (V:=nat) in
  let mu := (CacheManager.cache_user_profile md5 "u1" 5%nat 3600 0 m).2 in
  let mu' := CacheManager.invalidate_user_cache "u1" mu in
  let mb := (CacheManager.cache_book_embedding md5 "b1" 6%nat 3600 0 m).2 in
  let mb' := CacheManager.invalidate_book_cache "b1" mb in
  (CacheManager.cache mu' = CacheManager.cache mu
   /\ CacheManager.errors (CacheManager.stats_of mu')
      = CacheManager.errors (CacheManager.stats_of mu) + 2
   /\ (CacheManager.get_user_profile md5 "u1" 1000000 mu').1 = Some 5%nat)
  /\ (CacheManager.cache mb' = CacheManager.cache mb
      /\ CacheManager.errors (CacheManager.stats_of mb')
         = CacheManager.errors (CacheManager.stats_of mb) + 2
      /\ (CacheManager.get_book_embedding md5 "b1" 1000000 mb').1 = Some 6%nat).
Proof.
  intros md5 m.
  apply (invalidate_keeps_entries md5 "u1" "b1" 5%nat 6%nat 3600 0 1000000 m).
  - reflexivity.
  - reflexivity.
  - reflexivity.
  - reflexivity.
Defined.

(** ** [SimilarityEngine]: the similarity measures *)

Section SortedDescending.
Context {A : Type} (key : A -> R).

Lemma insert_sorted_desc_HdRel (a x : A) l :
  (key x <= key a)%R ->
  HdRel (fun p q => (key q <= key p)%R) a l ->
  HdRel (fun p q => (key q <= key p)%R) a (insert_sorted Rgtb key x l).
Proof.
  intros Hax Hl. destruct l as [|y l]; simpl; [by constructor|].
  inversion Hl; subst. destruct (Rgtb (key y) (key x)); by constructor.
Qed.

(** [xs.sort(key=f, reverse=True)] leaves the keys in descending order. *)
Lemma sorted_by_desc (l : list A) :
  StronglySorted (fun p q => (key q <= key p)%R) (sorted_by Rgtb key l).
Proof.
  apply Sorted_StronglySorted; [intros x y z ??; lra|].
  induction l as [|x l IH]; simpl; [constructor|].
  induction IH as [|y l' Hl' IH' Hy]; simpl; [by repeat constructor|].
  unfold Rgtb at 1. destruct (Rlt_dec (key x) (key y)) as [Hlt|Hge].
  - constructor; [done|]. apply insert_sorted_desc_HdRel; [lra|done].
  - constructor; [by constructor|]. constructor. lra.
Qed.

Lemma py_take_desc (n : Z) (l : list A) :
  StronglySorted (fun p q => (key q <= key p)%R) l ->
  StronglySorted (fun p q => (key q <= key p)%R) (py_take n l).
Proof.
  intros Hs. unfold py_take.
  destruct (0 <=? n).
  - rewrite <- (take_drop (Z.to_nat n) l) in Hs.
    by apply StronglySorted_app_1_l in Hs.
  - rewrite <- (take_drop (length l - Z.to_nat (- n)) l) in Hs.
    by apply StronglySorted_app_1_l in Hs.
Qed.

End SortedDescending.

Lemma py_take_sublist {A} (n : Z) (l : list A) : py_take n l `sublist_of` l.
Proof. unfold py_take. destruct (0 <=? n); apply sublist_take. Qed.

Lemma py_take_length {A} (n : Z) (l : list A) :
  0 <= n -> Z.of_nat (length (py_take n l)) <= n.
Proof.
  intros Hn. unfold py_take. destruct (Z.leb_spec 0 n); [|lia].
  rewrite length_take. lia.
Qed.

Section SimilarityFacts.
Local Open Scope R_scope.

Lemma cosine_similarity_value (a b : option (list R)) :
  exists r, SimilarityEngine.cosine_similarity a b = Return r /\ 0 <= r <= 1.
Proof.
  unfold SimilarityEngine.cosine_similarity, SimilarityEngine.cosine_similarity_try.
  destruct a as [xs|]; simpl; [|exists 0; split; [done|lra]].
  destruct (length xs =? 0)%nat; simpl; [exists 0; split; [done|lra]|].
  destruct b as [ys|]; simpl; [|exists 0; split; [done|lra]].
  destruct (length ys =? 0)%nat; simpl; [exists 0; split; [done|lra]|].
  destruct (length xs =? length ys)%nat; simpl; [|exists 0; split; [done|lra]].
  destruct (SimilarityEngine.cosine xs ys) as [d|]; simpl.
  - eexists. split; [done|apply clamp_range].
  - exists 0. split; [done|lra].
Qed.

Lemma ratio_range (a b : R) : 0 <= a <= b -> 0 < b -> 0 <= a / b <= 1.
Proof.
  intros [Ha Hab] Hb. split.
  - apply Rmult_le_pos; [done|]. left. by apply Rinv_0_lt_compat.
  - apply (Rmult_le_reg_r b); [done|].
    unfold Rdiv. rewrite Rmult_assoc, Rinv_l by lra. lra.
Qed.

Lemma inter_subseteq_union (X Y : gset string) : X ∩ Y ⊆ X ∪ Y.
Proof.
  intros x Hx. apply elem_of_intersection in Hx as [Hx _].
  apply elem_of_union. by left.
Qed.

Lemma inter_comm (X Y : gset string) : Y ∩ X = X ∩ Y.
Proof. apply set_eq. intros x. rewrite !elem_of_intersection. tauto. Qed.

Lemma union_comm (X Y : gset string) : Y ∪ X = X ∪ Y.
Proof. apply set_eq. intros x. rewrite !elem_of_union. tauto. Qed.

Lemma inter_idem (X : gset string) : X ∩ X = X.
Proof. apply set_eq. intros x. rewrite elem_of_intersection. tauto. Qed.

Lemma union_idem (X : gset string) : X ∪ X = X.
Proof. apply set_eq. intros x. rewrite elem_of_union. tauto. Qed.

Lemma size_ratio_range (X Y : gset string) :
  X ⊆ Y -> (0 < size Y)%nat -> 0 <= INR (size X) / INR (size Y) <= 1.
Proof.
  intros Hsub Hpos. apply ratio_range.
  - split; [apply pos_INR|]. apply le_INR. by apply subseteq_size.
  - by apply lt_0_INR.
Qed.

(** *** [category_similarity] *)

Lemma related_score_cases (a b : string) relations :
  SimilarityEngine.related_score a b relations = 0
  \/ SimilarityEngine.related_score a b relations = 0.6
  \/ SimilarityEngine.related_score a b relations = 0.7.
Proof.
  induction relations as [|[main_category related] rest IH]; simpl; [by left|].
  destruct (_ || _); [by right; right|].
  destruct (_ && _); [by right; left|done].
Qed.

Lemma related_score_sym (a b : string) relations :
  SimilarityEngine.related_score a b relations
  = SimilarityEngine.related_score b a relations.
Proof.
  induction relations as [|[main_category related] rest IH]; simpl; [done|].
  rewrite (orb_comm (String.eqb a main_category && _)).
  rewrite (andb_comm (SimilarityEngine.in_list a related)).
  by rewrite IH.
Qed.

Lemma category_similarity_some (ca cb : Ascii.ascii) (sa sb : string) :
  SimilarityEngine.category_similarity (Some (String ca sa)) (Some (String cb sb))
  = if String.eqb (Str.lower (String ca sa)) (Str.lower (String cb sb)) then 1
    else SimilarityEngine.related_score (Str.lower (String ca sa))
           (Str.lower (String cb sb)) SimilarityEngine.category_relations.
Proof. reflexivity. Qed.

Lemma category_similarity_sym (a b : option string) :
  SimilarityEngine.category_similarity a b
  = SimilarityEngine.category_similarity b a.
Proof.
  destruct a as [[|ca sa]|], b as [[|cb sb]|]; try done.
  rewrite !category_similarity_some.
  rewrite (String.eqb_sym (Str.lower (String cb sb))).
  destruct (String.eqb _ _); [done|]. apply related_score_sym.
Qed.

Lemma category_similarity_cases (a b : option string) :
  SimilarityEngine.category_similarity a b = 0
  \/ SimilarityEngine.category_similarity a b = 0.6
  \/ SimilarityEngine.category_similarity a b = 0.7
  \/ SimilarityEngine.category_similarity a b = 1.
Proof.
  destruct a as [[|ca sa]|], b as [[|cb sb]|]; try (by left).
  rewrite category_similarity_some.
  destruct (String.eqb _ _); [by right; right; right|].
  destruct (related_score_cases (Str.lower (String ca sa))
              (Str.lower (String cb sb))
              SimilarityEngine.category_relations) as [H|[H|H]]; tauto.
Qed.

(** [category_similarity] does not depend on the order of its arguments;
    its value is 0, 0.6, 0.7 or 1; and it is 1 exactly when both
    categories are non-empty strings that are equal once lowercased. *)
Theorem category_similarity_props (a b : option string) :
  SimilarityEngine.category_similarity a b
  = SimilarityEngine.category_similarity b a
  /\ (SimilarityEngine.category_similarity a b = 0
      \/ SimilarityEngine.category_similarity a b = 0.6
      \/ SimilarityEngine.category_similarity a b = 0.7
      \/ SimilarityEngine.category_similarity a b = 1)
  /\ (SimilarityEngine.category_similarity a b = 1
      <-> exists sa sb, a = Some sa /\ b = Some sb
                        /\ sa <> EmptyString /\ sb <> EmptyString
                        /\ Str.lower sa = Str.lower sb).
Proof.
  split; [apply category_similarity_sym|].
  split; [apply category_similarity_cases|].
  split.
  - destruct a as [[|ca sa]|], b as [[|cb sb]|];
      try (simpl; intros; exfalso; lra).
    rewrite category_similarity_some.
    destruct (String.eqb_spec (Str.lower (String ca sa))
                (Str.lower (String cb sb))) as [Heq|Hne].
    + intros _. exists (String ca sa), (String cb sb). by repeat split.
    + intros H1.
      destruct (related_score_cases (Str.lower (String ca sa))
                  (Str.lower (String cb sb))
                  SimilarityEngine.category_relations) as [H|[H|H]];
        rewrite H in H1; lra.
  - intros (sa & sb & -> & -> & Ha & Hb & Heq).
    destruct sa as [|ca sa]; [done|]. destruct sb as [|cb sb]; [done|].
    rewrite category_similarity_some, Heq. by rewrite String.eqb_refl.
Qed.

(** *** [author_similarity] and [tags_similarity] *)

Lemma author_similarity_some (ca cb : Ascii.ascii) (sa sb : string) :
  SimilarityEngine.author_similarity (Some (String ca sa)) (Some (String cb sb))
  = if String.eqb (Str.lower (String ca sa)) (Str.lower (String cb sb)) then 1
    else
      let words_a := SimilarityEngine.word_set (Str.lower (String ca sa)) in
      let words_b := SimilarityEngine.word_set (Str.lower (String cb sb)) in
      if bool_decide (words_a ∩ words_b <> ∅) then
        if (0 <? size (words_a ∪ words_b))%nat
        then INR (size (words_a ∩ words_b)) / INR (size (words_a ∪ words_b))
        else 0
      else 0.
Proof. reflexivity. Qed.

Lemma author_similarity_sym (a b : option string) :
  SimilarityEngine.author_similarity a b = SimilarityEngine.author_similarity b a.
Proof.
  destruct a as [[|ca sa]|], b as [[|cb sb]|]; try done.
  rewrite !author_similarity_some.
  rewrite (String.eqb_sym (Str.lower (String cb sb))).
  destruct (String.eqb _ _); [done|]. cbv zeta.
  set (X := SimilarityEngine.word_set (Str.lower (String ca sa))).
  set (Y := SimilarityEngine.word_set (Str.lower (String cb sb))).
  rewrite (inter_comm X Y), (union_comm X Y). done.
Qed.

Lemma author_similarity_range (a b : option string) :
  0 <= SimilarityEngine.author_similarity a b <= 1.
Proof.
  destruct a as [[|ca sa]|], b as [[|cb sb]|]; try (simpl; lra).
  rewrite author_similarity_some.
  destruct (String.eqb _ _); [lra|]. cbv zeta.
  set (X := SimilarityEngine.word_set (Str.lower (String ca sa))).
  set (Y := SimilarityEngine.word_set (Str.lower (String cb sb))).
  destruct (bool_decide _); [|lra].
  destruct (Nat.ltb_spec 0 (size (X ∪ Y))) as [Hpos|_]; [|lra].
  apply size_ratio_range; [apply inter_subseteq_union|done].
Qed.

(** [author_similarity] does not depend on the order of its arguments and
    lies in [[0, 1]]; it is 1 for two non-empty names that are equal once
    lowercased, and 0 when a name is [None] or empty. *)
Theorem author_similarity_props (a b : option string) :
  SimilarityEngine.author_similarity a b = SimilarityEngine.author_similarity b a
  /\ 0 <= SimilarityEngine.author_similarity a b <= 1
  /\ (forall sa sb, a = Some sa -> b = Some sb ->
        sa <> EmptyString -> Str.lower sa = Str.lower sb ->
        SimilarityEngine.author_similarity a b = 1)
  /\ (a = None \/ a = Some EmptyString \/ b = None \/ b = Some EmptyString ->
      SimilarityEngine.author_similarity a b = 0).
Proof.
  split; [apply author_similarity_sym|].
  split; [apply author_similarity_range|].
  split.
  - intros sa sb -> -> Ha Heq.
    destruct sa as [|ca sa]; [done|].
    destruct sb as [|cb sb]; [simpl in Heq; discriminate|].
    rewrite author_similarity_some, Heq. by rewrite String.eqb_refl.
  - intros H. destruct a as [[|? ?]|], b as [[|? ?]|]; try done.
    destruct H as [H|[H|[H|H]]]; discriminate.
Qed.

Definition tag_set (tags : list string) : gset string :=
  list_to_set (map Str.lower tags).

Lemma tags_similarity_some (ta tb : string) (la lb : list string) :
  SimilarityEngine.tags_similarity (Some (ta :: la)) (Some (tb :: lb))
  = if (size (tag_set (ta :: la) ∪ tag_set (tb :: lb)) =? 0)%nat then 0
    else INR (size (tag_set (ta :: la) ∩ tag_set (tb :: lb)))
         / INR (size (tag_set (ta :: la) ∪ tag_set (tb :: lb))).
Proof. reflexivity. Qed.

Lemma tags_similarity_sym (a b : option (list string)) :
  SimilarityEngine.tags_similarity a b = SimilarityEngine.tags_similarity b a.
Proof.
  destruct a as [[|ta la]|], b as [[|tb lb]|]; try done.
  rewrite !tags_similarity_some.
  generalize (tag_set (ta :: la)) (tag_set (tb :: lb)). intros X Y.
  rewrite (inter_comm X Y), (union_comm X Y).
  done.
Qed.

Lemma tags_similarity_range (a b : option (list string)) :
  0 <= SimilarityEngine.tags_similarity a b <= 1.
Proof.
  destruct a as [[|ta la]|], b as [[|tb lb]|]; try (simpl; lra).
  rewrite tags_similarity_some.
  set (X := tag_set (ta :: la)). set (Y := tag_set (tb :: lb)).
  destruct (Nat.eqb_spec (size (X ∪ Y)) 0) as [_|Hne]; [lra|].
  apply size_ratio_range; [apply inter_subseteq_union|lia].
Qed.

(** [tags_similarity], the Jaccard index of the lowercased tags, does not
    depend on the order of its arguments and lies in [[0, 1]]; a non-empty
    list of tags has similarity 1 with itself, and [None] or an empty list
    has similarity 0 with everything. *)
Theorem tags_similarity_props (a b : option (list string)) :
  SimilarityEngine.tags_similarity a b = SimilarityEngine.tags_similarity b a
  /\ 0 <= SimilarityEngine.tags_similarity a b <= 1
  /\ (forall t l, a = Some (t :: l) -> SimilarityEngine.tags_similarity a a = 1)
  /\ (a = None \/ a = Some [] \/ b = None \/ b = Some [] ->
      SimilarityEngine.tags_similarity a b = 0).
Proof.
  split; [apply tags_similarity_sym|].
  split; [apply tags_similarity_range|].
  split.
  - intros t l ->. rewrite tags_similarity_some.
    set (X := tag_set (t :: l)).
    rewrite (inter_idem X), (union_idem X).
    assert (size X <> 0%nat) as Hne.
    { apply size_non_empty_iff. intros Hempty.
      assert (Str.lower t ∈ X) as Hin.
      { subst X. unfold tag_set. apply elem_of_list_to_set. simpl. left. }
      rewrite Hempty in Hin. by apply elem_of_empty in Hin. }
    destruct (Nat.eqb_spec (size X) 0) as [|_]; [done|].
    apply Rinv_r. by apply not_0_INR.
  - intros H. destruct a as [[|? ?]|], b as [[|? ?]|]; try done.
    destruct H as [H|[H|[H|H]]]; discriminate.
Qed.

(** *** [semantic_similarity] *)

(** The default weights, or weights between 0 and 1: sums of four of
    them stay far from the range of the floating-point numbers. *)
Definition weights_ok (weights : option SimilarityEngine.weights) : Prop :=
  match weights with
  | None => True
  | Some w =>
      0 <= SimilarityEngine.w_embedding w <= 1
      /\ 0 <= SimilarityEngine.w_category w <= 1
      /\ 0 <= SimilarityEngine.w_author w <= 1
      /\ 0 <= SimilarityEngine.w_tags w <= 1
  end.

Lemma term_range (s w sim weight : R) (present : bool) :
  0 <= s <= w -> 0 <= sim <= 1 -> 0 <= weight ->
  let acc := if present then (s + sim * weight, w + weight) else (s, w) in
  0 <= acc.1 <= acc.2.
Proof. intros ? ? ?. destruct present; simpl; nra. Qed.

Lemma semantic_similarity_try_range (book_a book_b : book)
  (w : SimilarityEngine.weights) :
  0 <= SimilarityEngine.w_embedding w -> 0 <= SimilarityEngine.w_category w ->
  0 <= SimilarityEngine.w_author w -> 0 <= SimilarityEngine.w_tags w ->
  exists r, SimilarityEngine.semantic_similarity_try book_a book_b w = Return r
            /\ 0 <= r <= 1.
Proof.
  intros He Hc Ha Ht. unfold SimilarityEngine.semantic_similarity_try.
  destruct (cosine_similarity_value (item (embedding book_a))
              (item (embedding book_b))) as (es & Hes & Hesr).
  pose proof (category_similarity_cases (item (category book_a))
                (item (category book_b))) as Hcs.
  pose proof (author_similarity_range (item (author book_a))
                (item (author book_b))) as Has.
  pose proof (tags_similarity_range (item (tags book_a))
                (item (tags book_b))) as Hts.
  set (cs := SimilarityEngine.category_similarity _ _) in *.
  set (as_ := SimilarityEngine.author_similarity _ _) in *.
  set (ts := SimilarityEngine.tags_similarity _ _) in *.
  assert (0 <= cs <= 1) as Hcsr by (destruct Hcs as [Hv|[Hv|[Hv|Hv]]]; rewrite Hv; lra).
  clear Hcs. rewrite Hes. clearbody cs as_ ts.
  set (acc1 := if has_key (embedding book_a) && has_key (embedding book_b)
               then (0 + es * SimilarityEngine.w_embedding w,
                     0 + SimilarityEngine.w_embedding w)
               else (0, 0)).
  assert (0 <= acc1.1 <= acc1.2) as H1.
  { subst acc1. destruct (_ && _); simpl; nra. }
  assert ((if has_key (embedding book_a) && has_key (embedding book_b)
           then embedding_sim <- Return es ;;
                Return (0 + embedding_sim * SimilarityEngine.w_embedding w,
                        0 + SimilarityEngine.w_embedding w)
           else Return (0, 0)) = Return acc1) as ->.
  { subst acc1. by destruct (_ && _). }
  clearbody acc1. destruct acc1 as [s1 w1]. cbn [bind fst snd] in *.
  pose proof (term_range s1 w1 cs (SimilarityEngine.w_category w)
                (has_key (category book_a) && has_key (category book_b))
                H1 Hcsr Hc) as H2.
  cbv zeta in H2.
  set (acc2 := if has_key (category book_a) && has_key (category book_b)
               then _ else _) in *.
  clearbody acc2. destruct acc2 as [s2 w2]. cbn [fst snd] in *.
  pose proof (term_range s2 w2 as_ (SimilarityEngine.w_author w)
                (has_key (author book_a) && has_key (author book_b))
                H2 Has Ha) as H3.
  cbv zeta in H3.
  set (acc3 := if has_key (author book_a) && has_key (author book_b)
               then _ else _) in *.
  clearbody acc3. destruct acc3 as [s3 w3]. cbn [fst snd] in *.
  pose proof (term_range s3 w3 ts (SimilarityEngine.w_tags w)
                (has_key (tags book_a) && has_key (tags book_b))
                H3 Hts Ht) as H4.
  cbv zeta in H4.
  set (acc4 := if has_key (tags book_a) && has_key (tags book_b)
               then _ else _) in *.
  clearbody acc4. destruct acc4 as [s4 w4]. cbn [fst snd] in *.
  destruct (Rlt_dec 0 w4) as [Hpos|_].
  - eexists. split; [done|]. by apply ratio_range.
  - exists 0. split; [done|lra].
Qed.

Lemma semantic_similarity_try_sym (book_a book_b : book)
  (w : SimilarityEngine.weights) :
  SimilarityEngine.semantic_similarity_try book_a book_b w
  = SimilarityEngine.semantic_similarity_try book_b book_a w.
Proof.
  unfold SimilarityEngine.semantic_similarity_try. cbv zeta.
  rewrite (cosine_similarity_sym (item (embedding book_b)) (item (embedding book_a))).
  rewrite (category_similarity_sym (item (category book_b)) (item (category book_a))).
  rewrite (author_similarity_sym (item (author book_b)) (item (author book_a))).
  rewrite (tags_similarity_sym (item (tags book_b)) (item (tags book_a))).
  rewrite (andb_comm (has_key (embedding book_b))).
  rewrite (andb_comm (has_key (category book_b))).
  rewrite (andb_comm (has_key (author book_b))).
  rewrite (andb_comm (has_key (tags book_b))).
  done.
Qed.

(** With the default weights, or weights between 0 and 1,
    [semantic_similarity] returns a value in [[0, 1]] that does not depend
    on the order of the two books; when the books share none of the keys
    ["embedding"], ["category"], ["author"] and ["tags"] the value is 0. *)
Theorem semantic_similarity_props (book_a book_b : book)
  (weights : option SimilarityEngine.weights) :
  weights_ok weights ->
  exists r,
    SimilarityEngine.semantic_similarity book_a book_b weights = Return r
    /\ SimilarityEngine.semantic_similarity book_b book_a weights = Return r
    /\ 0 <= r <= 1
    /\ (has_key (embedding book_a) && has_key (embedding book_b) = false ->
        has_key (category book_a) && has_key (category book_b) = false ->
        has_key (author book_a) && has_key (author book_b) = false ->
        has_key (tags book_a) && has_key (tags book_b) = false ->
        r = 0).
Proof.
  intros Hok. unfold SimilarityEngine.semantic_similarity.
  rewrite (semantic_similarity_try_sym book_b book_a).
  set (w := default SimilarityEngine.default_weights weights).
  assert (0 <= SimilarityEngine.w_embedding w /\ 0 <= SimilarityEngine.w_category w
          /\ 0 <= SimilarityEngine.w_author w /\ 0 <= SimilarityEngine.w_tags w)
    as (He & Hc & Ha & Ht).
  { subst w. destruct weights as [w|]; simpl in *; [|lra].
    destruct Hok as ((? & ?) & (? & ?) & (? & ?) & (? & ?)). done. }
  destruct (semantic_similarity_try_range book_a book_b w He Hc Ha Ht)
    as (r & Hr & Hrange).
  exists r. rewrite Hr. simpl. split; [done|]. split; [done|]. split; [done|].
  intros H1 H2 H3 H4. revert Hr.
  unfold SimilarityEngine.semantic_similarity_try. rewrite H1, H2, H3, H4. simpl.
  destruct (Rlt_dec 0 0) as [Hlt|_]; [lra|]. by intros [= <-].
Qed.

(** *** [rank_by_similarity] *)

Definition ranked_from (query_vector : option (list R)) (min_similarity : R)
  (candidates : list book) (x : book) : Prop :=
  exists candidate similarity,
    candidate ∈ candidates
    /\ has_key (embedding candidate) = true
    /\ SimilarityEngine.cosine_similarity query_vector (item (embedding candidate))
       = Return similarity
    /\ min_similarity <= similarity
    /\ x = SimilarityEngine.with_similarity_score candidate similarity.

Lemma scored_candidates_spec query_vector min_similarity candidates :
  exists scored,
    SimilarityEngine.scored_candidates query_vector min_similarity candidates
    = Return scored
    /\ Forall (ranked_from query_vector min_similarity candidates) scored
    /\ (length scored <= length candidates)%nat.
Proof.
  induction candidates as [|c rest (scored & Hs & Hall & Hlen)]; simpl.
  - exists []. split; [done|]. split; [by apply Forall_nil|simpl; lia].
  - assert (Forall (ranked_from query_vector min_similarity (c :: rest)) scored)
      as Hall'.
    { eapply Forall_impl; [exact Hall|].
      intros x (c0 & s0 & ? & ? & ? & ? & ?). exists c0, s0.
      split; [by right|done]. }
    destruct (has_key (embedding c)) eqn:Hk; simpl.
    + destruct (cosine_similarity_value query_vector (item (embedding c)))
        as (s & Hcs & _).
      rewrite Hcs, Hs. simpl.
      destruct (Rge_dec s min_similarity) as [Hge|_].
      * eexists. split; [done|]. split; [|simpl; lia].
        constructor; [|done]. exists c, s. split; [by left|].
        split; [done|]. split; [done|]. split; [lra|done].
      * exists scored. split; [done|]. split; [done|lia].
    + exists scored. split; [done|]. split; [done|lia].
Qed.

(** [rank_by_similarity] returns on every input.  The list it returns is in
    descending order of [similarity_score]; each element is a copy of a
    candidate that has the key ["embedding"], scored with its cosine
    similarity to the query, which is at least [min_similarity]; there are
    no more elements than candidates, and at most [top_k] when [top_k] is
    not negative. *)
Theorem rank_by_similarity_props (query_vector : option (list R))
  (candidates : list book) (top_k : Z) (min_similarity : R) :
  exists ranked,
    SimilarityEngine.rank_by_similarity query_vector candidates top_k min_similarity
    = Return ranked
    /\ StronglySorted
         (fun x y => SimilarityEngine.score y <= SimilarityEngine.score x) ranked
    /\ Forall (ranked_from query_vector min_similarity candidates) ranked
    /\ (length ranked <= length candidates)%nat
    /\ (0 <= top_k -> Z.of_nat (length ranked) <= top_k)%Z.
Proof.
  unfold SimilarityEngine.rank_by_similarity.
  destruct candidates as [|c rest].
  { exists []. split; [done|]. split; [constructor|].
    split; [by apply Forall_nil|]. split; [done|]. simpl. lia. }
  destruct (scored_candidates_spec query_vector min_similarity (c :: rest))
    as (scored & Hs & Hall & Hlen).
  rewrite Hs. simpl bind. cbn [try_except].
  eexists. split; [done|].
  split; [apply py_take_desc, sorted_by_desc|].
  pose proof (py_take_sublist top_k (sorted_by Rgtb SimilarityEngine.score scored))
    as Hsub.
  pose proof (sorted_by_perm Rgtb SimilarityEngine.score scored) as Hperm.
  split.
  { apply Forall_forall. intros x Hx.
    apply (elem_of_sublist _ _ _ Hx) in Hsub. rewrite Hperm in Hsub.
    by apply (proj1 (Forall_forall _ _) Hall). }
  split.
  { apply sublist_length in Hsub. rewrite (Permutation_length Hperm) in Hsub. lia. }
  apply py_take_length.
Qed.

(** *** [batch_cosine_similarity] *)

Lemma returned_cosine_similarity (a b : option (list R)) :
  exists r,
    SimilarityEngine.returned (SimilarityEngine.cosine_similarity a b) = Some r
    /\ SimilarityEngine.cosine_similarity a b = Return r /\ 0 <= r <= 1.
Proof.
  destruct (cosine_similarity_value a b) as (r & Hr & Hrange).
  exists r. by rewrite Hr.
Qed.

Lemma cosine_similarity_zero (a b : option (list R)) :
  a = None \/ a = Some []
  \/ (exists xs ys, a = Some xs /\ b = Some ys /\ length xs <> length ys) ->
  SimilarityEngine.cosine_similarity a b = Return 0.
Proof.
  unfold SimilarityEngine.cosine_similarity, SimilarityEngine.cosine_similarity_try.
  intros [-> | [-> | (xs & ys & -> & -> & Hlen)] ]; simpl; try done.
  destruct (length xs =? 0)%nat; simpl; [done|].
  destruct (length ys =? 0)%nat; simpl; [done|].
  destruct (Nat.eqb_spec (length xs) (length ys)); [done|]. done.
Qed.

Lemma same_length_rows (first : list R) (others : list (list R)) :
  forallb (fun row => (length row =? length first)%nat) others = true
  <-> Forall (fun row => length row = length first) others.
Proof.
  induction others as [|row others IH]; simpl.
  - split; [constructor|done].
  - rewrite andb_true_iff, IH, Nat.eqb_eq, Forall_cons. tauto.
Qed.

(** The [try] block on rows of one length. *)
Lemma batch_try_rect query_vector first others :
  Forall (fun row => length row = length first) others ->
  SimilarityEngine.batch_cosine_similarity_try query_vector first others
  = match query_vector with
    | None => None
    | Some q =>
        if (length q =? 0)%nat
        then Some (replicate (length (first :: others)) 0)
        else if negb (length first =? length q)%nat
        then Some (replicate (length (first :: others)) 0)
        else mapM (fun candidate =>
                     SimilarityEngine.returned
                       (SimilarityEngine.cosine_similarity (Some q) (Some candidate)))
                  (first :: others)
    end.
Proof.
  intros Hrect. apply same_length_rows in Hrect.
  unfold SimilarityEngine.batch_cosine_similarity_try, SimilarityEngine.columns.
  rewrite Hrect. by destruct query_vector.
Qed.

Lemma batch_try_ragged query_vector first others :
  ~ Forall (fun row => length row = length first) others ->
  SimilarityEngine.batch_cosine_similarity_try query_vector first others = None.
Proof.
  intros Hragged.
  unfold SimilarityEngine.batch_cosine_similarity_try, SimilarityEngine.columns.
  destruct (forallb _ others) eqn:Hrect; [|done].
  by apply same_length_rows in Hrect.
Qed.

Lemma batch_try_spec query_vector first others scores :
  SimilarityEngine.batch_cosine_similarity_try query_vector first others
  = Some scores ->
  Forall (fun row => length row = length first) others
  /\ Forall2 (fun candidate s =>
                SimilarityEngine.cosine_similarity query_vector (Some candidate)
                = Return s)
       (first :: others) scores.
Proof.
  destruct (decide (Forall (fun row => length row = length first) others))
    as [Hrect|Hragged]; [|by rewrite batch_try_ragged].
  rewrite (batch_try_rect _ _ _ Hrect).
  assert (Forall (fun row => length row = length first) (first :: others)) as Hrows
    by (by constructor).
  intros Htry. split; [done|]. revert Htry.
  destruct query_vector as [q|]; [|done].
  destruct (Nat.eqb_spec (length q) 0) as [Hq|Hq].
  { intros [= <-].
    change (0 :: replicate (length others) 0)
      with (replicate (length (first :: others)) 0).
    apply Forall2_replicate_r; [done|].
    apply Forall_forall. intros row _. apply cosine_similarity_zero.
    right; left. by destruct q. }
  destruct (Nat.eqb_spec (length first) (length q)) as [Hn|Hn]; cbn [negb].
  - intros Hm. apply mapM_Some_1 in Hm.
    eapply Forall2_impl; [exact Hm|]. cbv beta. intros row s Hs.
    destruct (SimilarityEngine.cosine_similarity (Some q) (Some row));
      by inversion Hs.
  - intros [= <-].
    change (0 :: replicate (length others) 0)
      with (replicate (length (first :: others)) 0).
    apply Forall2_replicate_r; [done|].
    eapply Forall_impl; [exact Hrows|]. cbv beta. intros row Hrow.
    apply cosine_similarity_zero. right; right.
    exists q, row. split; [done|]. split; [done|]. lia.
Qed.

(** [batch_cosine_similarity] returns one score in [[0, 1]] for each
    candidate vector, whatever the arguments.  When the candidate vectors
    have one length, the score of each is its [cosine_similarity] to the
    query; when they do not, every score is 0. *)
Theorem batch_cosine_similarity_props (query_vector : option (list R))
  (candidate_vectors : list (list R)) :
  let scores :=
    SimilarityEngine.batch_cosine_similarity query_vector candidate_vectors in
  length scores = length candidate_vectors
  /\ Forall (fun s => 0 <= s <= 1) scores
  /\ ((exists n, Forall (fun row => length row = n) candidate_vectors) ->
      Forall2 (fun candidate s =>
                 SimilarityEngine.cosine_similarity query_vector (Some candidate)
                 = Return s)
        candidate_vectors scores)
  /\ (~ (exists n, Forall (fun row => length row = n) candidate_vectors) ->
      scores = replicate (length candidate_vectors) 0).
Proof.
  intros scores. subst scores. unfold SimilarityEngine.batch_cosine_similarity.
  destruct candidate_vectors as [|first others].
  { split; [done|]. split; [by apply Forall_nil|].
    split; [intros _; constructor|done]. }
  destruct (SimilarityEngine.batch_cosine_similarity_try query_vector first others)
    as [scores|] eqn:Htry; simpl default.
  - destruct (batch_try_spec _ _ _ _ Htry) as [Hrows Hspec].
    split; [symmetry; by eapply Forall2_length|].
    split.
    { apply Forall_forall. intros s Hs.
      apply list_elem_of_lookup in Hs as [i Hi].
      destruct (Forall2_lookup_r _ _ _ _ _ Hspec Hi) as (row & _ & Hrow).
      destruct (cosine_similarity_value query_vector (Some row)) as (r & Hr & Hrange).
      rewrite Hr in Hrow. by injection Hrow as <-. }
    split; [done|].
    intros Hragged. exfalso. apply Hragged.
    exists (length first). by constructor.
  - split; [apply (length_replicate (length (first :: others)))|].
    split; [apply (Forall_replicate _ (length (first :: others))); lra|].
    split; [|done].
    intros [n Hrows]. revert Htry.
    rewrite batch_try_rect by (apply Forall_cons in Hrows as [<- Hothers]; done).
    destruct query_vector as [q|].
    + destruct (length q =? 0)%nat; [done|].
      destruct (negb _); [done|].
      intros Hnone. apply mapM_None_1, Exists_exists in Hnone as (row & _ & Hrow).
      destruct (returned_cosine_similarity (Some q) (Some row)) as (r & Hr & _).
      cbv beta in Hrow. congruence.
    + intros _.
      change (0 :: replicate (length others) 0)
        with (replicate (length (first :: others)) 0).
      apply Forall2_replicate_r; [done|].
      apply Forall_forall. intros row _. by apply cosine_similarity_zero; left.
Qed.

End SimilarityFacts.

Lemma semantic_similarity_props_witness :
  let a := Book "a" (Val "A") Absent Absent (Val "Fiction") (Val ["War"; "Epic"])
             Absent None None in
  let b := Book "b" (Val "B") Absent Absent (Val "novel") (Val ["epic"])
             Absent None None in
  exists r,
    SimilarityEngine.semantic_similarity a b None = Return r
    /\ SimilarityEngine.semantic_similarity b a None = Return r
    /\ (0 <= r <= 1)%R
    /\ (has_key (embedding a) && has_key (embedding b) = false ->
        has_key (category a) && has_key (category b) = false ->
        has_key (author a) && has_key (author b) = false ->
        has_key (tags a) && has_key (tags b) = false ->
        r = 0%R).
Proof.
  intros a b. apply (semantic_similarity_props a b None). exact I.
Defined.

(** ** [diversify_results]: what the selection keeps *)

Section PyDictLookup.
Context {K V : Type} `{EqDecision K}.
Implicit Types (d : list (K * V)).

Lemma getitem_setitem_ne k k' v d :
  k <> k' -> PyDict.getitem k' (PyDict.setitem k v d) = PyDict.getitem k' d.
Proof.
  intros Hne. induction d as [|[k0 v0] d IH]; simpl.
  - by rewrite decide_False.
  - destruct (decide (k0 = k)) as [->|Hk0]; simpl.
    + by rewrite !decide_False.
    + destruct (decide (k0 = k')); [done|apply IH].
Qed.

Lemma elem_of_getitem k v d :
  NoDup (PyDict.keys d) -> (k, v) ∈ d -> PyDict.getitem k d = Some v.
Proof.
  induction d as [|[k0 v0] d IH]; simpl; intros Hnd Hin.
  - by apply elem_of_nil in Hin.
  - apply NoDup_cons in Hnd as [Hk0 Hnd].
    apply elem_of_cons in Hin as [[= -> ->]|Hin].
    + by rewrite decide_True.
    + destruct (decide (k0 = k)) as [->|Hne]; [|by apply IH].
      exfalso. apply Hk0. unfold PyDict.keys.
      apply list_elem_of_fmap. by exists (k, v).
Qed.

Lemma getitem_elem_of_keys k v d :
  PyDict.getitem k d = Some v -> (k, v) ∈ d.
Proof.
  induction d as [|[k0 v0] d IH]; simpl; [done|].
  destruct (decide (k0 = k)) as [->|Hne].
  - intros [= ->]. left.
  - intros Hg. right. by apply IH.
Qed.

End PyDictLookup.

Section DiversifyMore.
Context {C S : Type} `{EqDecision C}.
Context (category_of : C -> slot string) (score : C -> S) (gt : S -> S -> bool).

Local Abbreviation for_groups := (SimilarityEngine.for_groups category_of score gt).
Local Abbreviation select_rounds :=
  (SimilarityEngine.select_rounds category_of score gt).
Local Abbreviation group_key := (SimilarityEngine.group_key category_of).
Local Abbreviation group_candidates :=
  (SimilarityEngine.group_candidates category_of).
Local Abbreviation get_category := (SimilarityEngine.get_category category_of).
Local Abbreviation count := (SimilarityEngine.category_count category_of).

(** The candidates still waiting in the buckets. *)
Definition pool (groups : list (option string * list C)) : list C :=
  concat groups.*2.

Lemma pool_cons g items groups : pool ((g, items) :: groups) = items ++ pool groups.
Proof. reflexivity. Qed.

Lemma pool_setitem (k : option string) (c : C) groups :
  pool (PyDict.setitem k (default [] (PyDict.getitem k groups) ++ [c]) groups)
  ≡ₚ pool groups ++ [c].
Proof.
  induction groups as [|[k' v'] groups IH]; simpl; [done|].
  destruct (decide (k' = k)) as [->|Hne]; simpl.
  - rewrite !pool_cons. rewrite <- !(assoc_L (++)).
    apply Permutation_app_head, Permutation_app_comm.
  - rewrite !pool_cons, IH. by rewrite (assoc_L (++)).
Qed.

Lemma group_candidates_snoc (candidates : list C) (c : C) :
  group_candidates (candidates ++ [c])
  = PyDict.setitem (group_key c)
      (default [] (PyDict.getitem (group_key c) (group_candidates candidates))
       ++ [c])
      (group_candidates candidates).
Proof. unfold SimilarityEngine.group_candidates. by rewrite foldl_snoc. Qed.

(** The grouping loop files every candidate in one bucket. *)
Lemma pool_group_candidates (candidates : list C) :
  pool (group_candidates candidates) ≡ₚ candidates.
Proof.
  induction candidates as [|c candidates IH] using rev_ind; [done|].
  by rewrite group_candidates_snoc, pool_setitem, IH.
Qed.

Lemma group_candidates_NoDup (candidates : list C) :
  NoDup (PyDict.keys (group_candidates candidates)).
Proof.
  induction candidates as [|c candidates IH] using rev_ind; [apply NoDup_nil_2|].
  rewrite group_candidates_snoc. by apply keys_setitem_NoDup.
Qed.

(** The bucket of a key holds the candidates with that key, in the order
    of the input. *)
Lemma getitem_group_candidates (g : option string) (candidates : list C) :
  PyDict.getitem g (group_candidates candidates)
  = match filter (fun c => group_key c = g) candidates with
    | [] => None
    | items => Some items
    end.
Proof.
  induction candidates as [|c candidates IH] using rev_ind; [done|].
  rewrite group_candidates_snoc, filter_app.
  destruct (decide (group_key c = g)) as [<-|Hne].
  - rewrite getitem_setitem, IH, filter_cons_True by done. simpl.
    by destruct (filter _ candidates).
  - rewrite getitem_setitem_ne, IH, filter_cons_False by done.
    rewrite filter_nil. by rewrite (right_id_L [] (++)).
Qed.

Lemma group_candidates_bucket (g : option string) (items candidates : list C) :
  (g, items) ∈ group_candidates candidates ->
  items = filter (fun c => group_key c = g) candidates /\ items <> [].
Proof.
  intros Hin.
  apply (elem_of_getitem _ _ _ (group_candidates_NoDup candidates)) in Hin.
  rewrite getitem_group_candidates in Hin.
  destruct (filter _ candidates) as [|x l]; [done|].
  injection Hin as <-. done.
Qed.

Lemma prefix_snoc_l (l1 l2 : list C) (x : C) :
  (l1 ++ [x]) `prefix_of` l2 -> l1 `prefix_of` l2.
Proof. intros [k ->]. exists (x :: k). by rewrite <- (assoc_L (++)). Qed.

(** A pass adds to the end of [diversified], and what it leaves in
    [diversified] and in the buckets was there before. *)
Lemma for_groups_keeps k todo chosen slots added :
  let r := for_groups k todo chosen slots added in
  chosen `prefix_of` SimilarityEngine.diversified r
  /\ SimilarityEngine.diversified r ++ pool (SimilarityEngine.category_groups r)
     ⊆+ chosen ++ pool todo.
Proof.
  revert chosen slots added.
  induction todo as [|[category items] todo IH]; intros chosen slots added; simpl.
  - done.
  - destruct items as [|first others].
    + destruct (IH chosen slots added) as [Hpre Hsub]. simpl. done.
    + destruct (slots <=? 0).
      * destruct (IH chosen slots added) as [Hpre Hsub]. simpl.
        split; [done|]. rewrite !pool_cons.
        rewrite (Permutation_app_swap_app (SimilarityEngine.diversified _)).
        rewrite (Permutation_app_swap_app chosen).
        by apply submseteq_skips_l.
      * set (best := SimilarityEngine.max_by score gt first others).
        set (items1 := SimilarityEngine.remove_first best (first :: others)).
        destruct (IH (chosen ++ [best]) (slots - 1) (added + 1)) as [Hpre Hsub].
        simpl. split; [by apply prefix_snoc_l in Hpre|].
        rewrite !pool_cons.
        assert (best :: items1 ≡ₚ first :: others) as Hperm.
        { apply remove_first_perm, max_by_elem_of. }
        rewrite <- Hperm.
        set (items2 := if _ >=? _ then [] else items1).
        assert (items2 ⊆+ items1) as Hitems.
        { subst items2. destruct (_ >=? _); [apply submseteq_nil_l|done]. }
        rewrite (Permutation_app_swap_app (SimilarityEngine.diversified _)).
        assert (chosen ++ (best :: items1) ++ pool todo
                ≡ₚ items1 ++ (chosen ++ [best]) ++ pool todo) as ->.
        { rewrite (Permutation_app_swap_app items1 (chosen ++ [best])).
          by rewrite <- (assoc_L (++) chosen). }
        by apply submseteq_app.
Qed.

Lemma select_rounds_keeps fuel k groups chosen slots :
  chosen `prefix_of` select_rounds fuel k groups chosen slots
  /\ select_rounds fuel k groups chosen slots ⊆+ chosen ++ pool groups.
Proof.
  revert groups chosen slots.
  induction fuel as [|fuel IH]; intros groups chosen slots; simpl.
  - split; [done|]. by apply submseteq_inserts_r.
  - destruct (_ && _); [|split; [done|by apply submseteq_inserts_r]].
    destruct (for_groups_keeps k groups chosen slots 0) as [Hpre Hsub].
    destruct (_ =? 0).
    + split; [done|]. etrans; [|exact Hsub]. by apply submseteq_inserts_r.
    + destruct (IH (SimilarityEngine.category_groups
                      (for_groups k groups chosen slots 0))
                  (SimilarityEngine.diversified (for_groups k groups chosen slots 0))
                  (SimilarityEngine.remaining_slots
                     (for_groups k groups chosen slots 0))) as [Hpre' Hsub'].
      split; [by etrans|]. by etrans.
Qed.

Lemma diversify_results_sub (candidates : list C) (diversity_factor : R) (k : Z) :
  SimilarityEngine.diversify_results category_of score gt candidates
    diversity_factor k ⊆+ candidates.
Proof.
  unfold SimilarityEngine.diversify_results.
  destruct candidates as [|c candidates]; [done|].
  rewrite sorted_by_perm.
  etrans; [apply select_rounds_keeps|].
  simpl app. by rewrite pool_group_candidates.
Qed.

(** A pass that starts with a slot for each bucket takes a candidate from
    each bucket that is not empty. *)
Lemma for_groups_picks k todo chosen slots added :
  Z.of_nat (length todo) <= slots ->
  (forall g items, (g, items) ∈ todo ->
     items <> [] /\ Forall (fun c => group_key c = g) items) ->
  let r := for_groups k todo chosen slots added in
  forall g, g ∈ todo.*1 ->
    exists x, x ∈ SimilarityEngine.diversified r /\ group_key x = g.
Proof.
  revert chosen slots added.
  induction todo as [|[category items] todo IH];
    intros chosen slots added Hslots Hok; simpl.
  - intros g Hg. by apply elem_of_nil in Hg.
  - destruct (Hok category items) as [Hne Hkeys]; [left|].
    destruct items as [|first others]; [done|].
    destruct (Z.leb_spec slots 0) as [Hle|Hgt]; [simpl in Hslots; lia|].
    set (best := SimilarityEngine.max_by score gt first others).
    assert (forall g items, (g, items) ∈ todo ->
              items <> [] /\ Forall (fun c => group_key c = g) items) as Hok'.
    { intros g items Hin. apply Hok. by right. }
    assert (Z.of_nat (length todo) <= slots - 1) as Hslots'
      by (simpl in Hslots; lia).
    simpl. intros g Hg. apply elem_of_cons in Hg as [->|Hg].
    + exists best. split.
      * destruct (for_groups_keeps k todo (chosen ++ [best]) (slots - 1) (added + 1))
          as [[more ->] _].
        rewrite <- (assoc_L (++)). apply elem_of_app. right.
        apply elem_of_app. left. apply list_elem_of_singleton. done.
      * apply (proj1 (Forall_forall _ _) Hkeys). apply max_by_elem_of.
    + by apply (IH (chosen ++ [best]) (slots - 1) (added + 1) Hslots' Hok').
Qed.

Lemma group_candidates_length (candidates : list C) :
  (length (group_candidates candidates) <= length candidates)%nat.
Proof.
  rewrite <- (Permutation_length (pool_group_candidates candidates)).
  assert (forall g items, (g, items) ∈ group_candidates candidates -> items <> [])
    as Hne.
  { intros g items Hin. by apply group_candidates_bucket in Hin as [_ ?]. }
  revert Hne. generalize (group_candidates candidates). intros groups.
  induction groups as [|[g items] groups IH]; intros Hne; simpl; [lia|].
  rewrite pool_cons, length_app.
  assert (items <> []) as Hitems by (apply (Hne g); left).
  assert (length (pool groups) >= length groups)%nat.
  { apply IH. intros g' items' Hin. apply (Hne g'). by right. }
  destruct items; [done|]. simpl. lia.
Qed.

Lemma diversify_results_covers (candidates : list C) (diversity_factor : R) (k : Z) :
  Forall (fun c =>
            Exists (fun x => group_key x = group_key c)
              (SimilarityEngine.diversify_results category_of score gt candidates
                 diversity_factor k))
    candidates.
Proof.
  apply Forall_forall. intros c Hc.
  unfold SimilarityEngine.diversify_results.
  destruct candidates as [|c0 candidates]; [by apply elem_of_nil in Hc|].
  set (cs := c0 :: candidates) in *.
  set (groups := group_candidates cs).
  assert (exists items, (group_key c, items) ∈ groups) as [items Hitems].
  { pose proof (getitem_group_candidates (group_key c) cs) as Hg.
    destruct (filter (fun c' => group_key c' = group_key c) cs) as [|x l] eqn:Hf.
    - assert (c ∈ filter (fun c' => group_key c' = group_key c) cs) as Hin
        by (by apply list_elem_of_filter).
      rewrite Hf in Hin. by apply elem_of_nil in Hin.
    - exists (x :: l). by apply getitem_elem_of_keys. }
  assert (forall g its, (g, its) ∈ groups ->
            its <> [] /\ Forall (fun c' => group_key c' = g) its) as Hok.
  { intros g its Hin. apply group_candidates_bucket in Hin as [-> Hne].
    split; [done|]. apply Forall_forall. intros x Hx.
    by apply list_elem_of_filter in Hx as [? _]. }
  assert (SimilarityEngine.any_items groups = true) as Hany.
  { unfold SimilarityEngine.any_items. apply existsb_exists.
    exists (group_key c, items). split; [by apply list_elem_of_In|].
    destruct (Hok _ _ Hitems) as [Hne _]. simpl. by destruct items. }
  assert (Z.of_nat (length groups) <= Z.of_nat (length cs)) as Hslots.
  { pose proof (group_candidates_length cs). subst groups. lia. }
  destruct (for_groups_picks k groups [] (Z.of_nat (length cs)) 0 Hslots Hok
              (group_key c)) as (x & Hx & Hkey).
  { apply list_elem_of_fmap. by exists (group_key c, items). }
  apply Exists_exists. exists x. split; [|done].
  rewrite sorted_by_perm.
  change (length cs) with (Datatypes.S (length candidates)) at 1.
  cbn [SimilarityEngine.select_rounds]. fold groups. rewrite Hany.
  replace (Z.of_nat (length cs) >? 0) with true by (symmetry; apply Z.gtb_lt; simpl; lia).
  cbn [andb].
  destruct (_ =? 0); [done|].
  destruct (select_rounds_keeps (length candidates) k
              (SimilarityEngine.category_groups
                 (for_groups k groups [] (Z.of_nat (length cs)) 0))
              (SimilarityEngine.diversified
                 (for_groups k groups [] (Z.of_nat (length cs)) 0))
              (SimilarityEngine.remaining_slots
                 (for_groups k groups [] (Z.of_nat (length cs)) 0)))
    as [[more ->] _].
  apply elem_of_app. by left.
Qed.

(** *** When no bucket is larger than the cap *)

(** Every bucket has room under the cap for the candidates it still
    holds. *)
Definition room (k : Z) (groups : list (option string * list C))
  (taken : list C) : Prop :=
  forall g items, (g, items) ∈ groups ->
    count g taken + Z.of_nat (length items) <= k.

Lemma remove_first_length (x : C) (items : list C) :
  x ∈ items ->
  Datatypes.S (length (SimilarityEngine.remove_first x items)) = length items.
Proof.
  intros Hin. by rewrite <- (Permutation_length (remove_first_perm x items Hin)).
Qed.

Lemma any_items_false (groups : list (option string * list C)) :
  SimilarityEngine.any_items groups = false -> pool groups = [].
Proof.
  unfold SimilarityEngine.any_items.
  induction groups as [|[g items] groups IH]; simpl; [done|].
  destruct items; simpl; [|done]. intros Hf. by rewrite pool_cons, IH.
Qed.

Lemma for_groups_full k todo chosen slots added :
  NoDup todo.*1 ->
  groups_ok category_of todo ->
  room k todo chosen ->
  Z.of_nat (length (pool todo)) <= slots ->
  let r := for_groups k todo chosen slots added in
  (SimilarityEngine.category_groups r).*1 = todo.*1
  /\ groups_ok category_of (SimilarityEngine.category_groups r)
  /\ room k (SimilarityEngine.category_groups r) (SimilarityEngine.diversified r)
  /\ (forall g, g ∉ todo.*1 ->
        count g (SimilarityEngine.diversified r) = count g chosen)
  /\ (length (SimilarityEngine.diversified r)
      + length (pool (SimilarityEngine.category_groups r))
      = length chosen + length (pool todo))%nat
  /\ SimilarityEngine.added_in_round r - added
     = Z.of_nat (length (SimilarityEngine.diversified r))
       - Z.of_nat (length chosen)
  /\ (pool todo <> [] -> added < SimilarityEngine.added_in_round r).
Proof.
  revert chosen slots added.
  induction todo as [|[category items] todo IH];
    intros chosen slots added Hnd Hok Hroom Hslots.
  { simpl. repeat split; try done; try lia. }
  rewrite fmap_cons in Hnd. cbn [fst] in Hnd.
  apply NoDup_cons in Hnd as [Hcat Hnd].
  assert (groups_ok category_of todo) as Hok'.
  { intros g its Hin. apply (Hok g its). by right. }
  pose proof (Hok category items (list_elem_of_here _ _)) as Hitems.
  pose proof (Hroom category items (list_elem_of_here _ _)) as Hroom0.
  rewrite pool_cons, length_app in Hslots.
  destruct items as [|first others].
  - assert (room k todo chosen) as Hroom'.
    { intros g its Hin. apply (Hroom g its). by right. }
    destruct (IH chosen slots added Hnd Hok' Hroom') as (H1 & H2 & H3 & H4 & H5 & H6 & H7).
    { simpl in Hslots. lia. }
    cbv zeta. cbn [SimilarityEngine.for_groups SimilarityEngine.category_groups
                     SimilarityEngine.diversified SimilarityEngine.remaining_slots
                     SimilarityEngine.added_in_round].
    split; [by rewrite fmap_cons, H1|].
    split.
    { intros g its Hin. apply elem_of_cons in Hin as [[= -> ->]|Hin]; [done|].
      by apply (H2 g its). }
    split.
    { intros g its Hin. apply elem_of_cons in Hin as [[= -> ->]|Hin].
      - rewrite (H4 category Hcat). simpl in *. lia.
      - by apply (H3 g its). }
    split.
    { intros g Hg. apply H4. intros Hin. apply Hg. by right. }
    split; [by rewrite !pool_cons|].
    split; [done|]. by rewrite pool_cons.
  - set (items := first :: others) in *.
    set (best := SimilarityEngine.max_by score gt first others).
    assert (best ∈ items) as Hbest by apply max_by_elem_of.
    assert (get_category best = category) as Hbcat.
    { by apply (proj1 (Forall_forall _ _) Hitems) in Hbest as [? _]. }
    set (items1 := SimilarityEngine.remove_first best items).
    pose proof (remove_first_length best items Hbest) as Hlen1. fold items1 in Hlen1.
    assert (forall g, count g (chosen ++ [best])
                      = count g chosen + (if decide (category = g) then 1 else 0))
      as Hcount.
    { intros g. rewrite category_count_snoc, Hbcat. done. }
    assert (room k todo (chosen ++ [best])) as Hroom'.
    { intros g its Hin. rewrite Hcount.
      destruct (decide (category = g)) as [<-|Hne].
      - exfalso. apply Hcat. apply list_elem_of_fmap. by exists (category, its).
      - rewrite Z.add_0_r. apply (Hroom g its). by right. }
    destruct (IH (chosen ++ [best]) (slots - 1) (added + 1) Hnd Hok' Hroom')
      as (H1 & H2 & H3 & H4 & H5 & H6 & H7).
    { subst items. simpl in Hslots. lia. }
    assert ((if count category (chosen ++ [best]) >=? k then [] else items1)
            = items1) as Hkeep.
    { destruct (Z.geb_spec (count category (chosen ++ [best])) k) as [Hge|_];
        [|done].
      rewrite Hcount, decide_True in Hge by done.
      symmetry. apply nil_length_inv. lia. }
    assert (for_groups k ((category, items) :: todo) chosen slots added
            = SimilarityEngine.Selection
                ((category, items1)
                 :: SimilarityEngine.category_groups
                      (for_groups k todo (chosen ++ [best]) (slots - 1) (added + 1)))
                (SimilarityEngine.diversified
                   (for_groups k todo (chosen ++ [best]) (slots - 1) (added + 1)))
                (SimilarityEngine.remaining_slots
                   (for_groups k todo (chosen ++ [best]) (slots - 1) (added + 1)))
                (SimilarityEngine.added_in_round
                   (for_groups k todo (chosen ++ [best]) (slots - 1) (added + 1))))
      as Hstep.
    { subst items. cbn [SimilarityEngine.for_groups].
      destruct (Z.leb_spec slots 0) as [Hle|_]; [simpl in Hslots; lia|].
      fold best. fold items1. by rewrite Hkeep. }
    cbv zeta. rewrite Hstep.
    cbn [SimilarityEngine.category_groups SimilarityEngine.diversified
           SimilarityEngine.remaining_slots SimilarityEngine.added_in_round].
    split; [by rewrite fmap_cons, H1|].
    split.
    { intros g its Hin. apply elem_of_cons in Hin as [[= -> ->]|Hin].
      - apply Forall_forall. intros x Hx.
        apply (proj1 (Forall_forall _ _) Hitems).
        by apply (remove_first_elem_of best).
      - by apply (H2 g its). }
    split.
    { intros g its Hin. apply elem_of_cons in Hin as [[= -> ->]|Hin].
      - rewrite (H4 category Hcat), Hcount, decide_True by done. lia.
      - by apply (H3 g its). }
    split.
    { intros g Hg. rewrite H4, Hcount.
      - rewrite decide_False; [lia|]. intros ->. apply Hg. left.
      - intros Hin. apply Hg. by right. }
    split.
    { rewrite !pool_cons, !length_app. rewrite length_app in H5.
      simpl in H5. lia. }
    split.
    { rewrite length_app in H6. simpl in H6. lia. }
    intros _.
    destruct (for_groups_slots category_of score gt k todo (chosen ++ [best])
                (slots - 1) (added + 1)) as [_ Hle].
    lia.
Qed.

Lemma select_rounds_full fuel k groups chosen slots :
  NoDup groups.*1 ->
  groups_ok category_of groups ->
  room k groups chosen ->
  slots = Z.of_nat (length (pool groups)) ->
  slots <= Z.of_nat fuel ->
  length (select_rounds fuel k groups chosen slots)
  = (length chosen + length (pool groups))%nat.
Proof.
  revert groups chosen slots.
  induction fuel as [|fuel IH]; intros groups chosen slots Hnd Hok Hroom Hslots Hfuel.
  { simpl. lia. }
  cbn [SimilarityEngine.select_rounds].
  destruct (Z.gtb_spec slots 0) as [Hpos|Hnone]; [|simpl; lia].
  destruct (SimilarityEngine.any_items groups) eqn:Hany; cbn [andb].
  2:{ apply any_items_false in Hany. rewrite Hany. simpl. lia. }
  destruct (for_groups_full k groups chosen slots 0 Hnd Hok Hroom)
    as (H1 & H2 & H3 & _ & H5 & H6 & H7); [lia|].
  destruct (for_groups_slots category_of score gt k groups chosen slots 0)
    as [Hrem _].
  assert (pool groups <> []) as Hne by (intros E; rewrite E in Hslots; simpl in Hslots; lia).
  specialize (H7 Hne).
  destruct (Z.eqb_spec (SimilarityEngine.added_in_round
                          (for_groups k groups chosen slots 0)) 0) as [E|_]; [lia|].
  rewrite IH.
  - lia.
  - by rewrite H1.
  - done.
  - done.
  - lia.
  - lia.
Qed.

Lemma diversify_results_within_cap (candidates : list C) (diversity_factor : R)
  (k : Z) :
  Forall (fun c => category_of c <> Absent) candidates ->
  (forall g, Z.of_nat (bucket_size category_of g candidates) <= k) ->
  SimilarityEngine.diversify_results category_of score gt candidates
    diversity_factor k ≡ₚ candidates.
Proof.
  intros Hkeys Hcap.
  apply submseteq_length_Permutation; [apply diversify_results_sub|].
  unfold SimilarityEngine.diversify_results.
  destruct candidates as [|c candidates]; [done|].
  set (cs := c :: candidates) in *.
  rewrite (Permutation_length (sorted_by_perm gt score _)).
  destruct (group_candidates_inv category_of cs Hkeys) as [Hnd Hok].
  rewrite select_rounds_full.
  - simpl. by rewrite (Permutation_length (pool_group_candidates cs)).
  - done.
  - done.
  - intros g items Hin. apply group_candidates_bucket in Hin as [-> _].
    unfold SimilarityEngine.category_count. simpl. apply Hcap.
  - by rewrite (Permutation_length (pool_group_candidates cs)).
  - lia.
Qed.

End DiversifyMore.

(** *** [diversify_results] on book dicts with float scores *)

Section DiversifyBooks.
Local Open Scope R_scope.

Local Abbreviation diversify_books :=
  (SimilarityEngine.diversify_results category SimilarityEngine.score Rgtb).

(** [diversify_results] returns candidates of its input, none more often
    than the input holds it, in descending order of ["similarity_score"]
    (0 where the key is missing). *)
Theorem diversify_results_selects (candidates : list book) (diversity_factor : R)
  (max_per_category : Z) :
  let results := diversify_books candidates diversity_factor max_per_category in
  results ⊆+ candidates
  /\ StronglySorted
       (fun x y => SimilarityEngine.score y <= SimilarityEngine.score x) results.
Proof.
  intros results. split; [apply diversify_results_sub|].
  subst results. unfold SimilarityEngine.diversify_results.
  destruct candidates as [|c candidates]; [constructor|].
  apply sorted_by_desc.
Qed.

(** Whatever [max_per_category] is, zero and negative values included,
    every bucket of the grouping is represented in the result: for each
    candidate the result holds a candidate of the same bucket. *)
Theorem diversify_results_covers_buckets (candidates : list book)
  (diversity_factor : R) (max_per_category : Z) :
  Forall (fun c =>
            Exists (fun x => SimilarityEngine.group_key category x
                             = SimilarityEngine.group_key category c)
              (diversify_books candidates diversity_factor max_per_category))
    candidates.
Proof. apply diversify_results_covers. Qed.

(** When every candidate has the key ["category"] and no bucket holds more
    than [max_per_category] candidates, nothing is dropped: the result is
    the input in another order. *)
Theorem diversify_results_reorders (candidates : list book) (diversity_factor : R)
  (max_per_category : Z) :
  Forall (fun c => category c <> Absent) candidates ->
  (forall bucket,
     (Z.of_nat (bucket_size category bucket candidates) <= max_per_category)%Z) ->
  diversify_books candidates diversity_factor max_per_category ≡ₚ candidates.
Proof. apply diversify_results_within_cap. Qed.

End DiversifyBooks.

Lemma diversify_results_reorders_witness :
  let a := Book "a" Absent Absent Absent (Val "fiction") Absent Absent
             (Some 0.5%R) None in
  let b := Book "b" Absent Absent Absent (Val "fiction") Absent Absent
             (Some 0.9%R) None in
  let c := Book "c" Absent Absent Absent PyNone Absent Absent None None in
  SimilarityEngine.diversify_results category SimilarityEngine.score Rgtb
    [a; b; c] 0.3%R 3 ≡ₚ [a; b; c].
Proof.
  intros a b c. apply (diversify_results_reorders [a; b; c] 0.3%R 3).
  - repeat constructor; discriminate.
  - intros bucket. unfold bucket_size.
    pose proof (length_filter
                  (fun x => SimilarityEngine.group_key category x = bucket)
                  [a; b; c]) as Hlen.
    simpl length in Hlen at 2. lia.
Defined.

(** ** [calculate_user_book_affinity]: the range of the score *)

Section AffinityRange.
Local Open Scope R_scope.

Definition weighted (acc : R * R) : Prop := 0 <= acc.1 <= acc.2.

Lemma best_match_range (partial : R) (target : string) (favs : list string) :
  0 <= partial <= 1 ->
  0 <= SimilarityEngine.best_match partial target favs 0 <= 1.
Proof.
  intros Hp.
  destruct (best_match_cases partial target favs 0) as ([H|[H|H]] & _);
    [lra|lra|..]; cbv zeta in H; rewrite H; lra.
Qed.

Lemma content_term_weighted p b acc :
  weighted acc ->
  exists acc', SimilarityEngine.content_term p b acc = Return acc' /\ weighted acc'.
Proof.
  intros Hacc. unfold SimilarityEngine.content_term.
  destruct (_ && _); [|by exists acc].
  destruct (cosine_similarity_value (item (preference_embedding p))
              (item (embedding b))) as (r & -> & Hr).
  simpl. eexists. split; [done|]. unfold weighted in *. simpl. lra.
Qed.

Lemma category_term_weighted p b acc :
  weighted acc ->
  (exists acc', SimilarityEngine.category_term p b acc = Return acc' /\ weighted acc')
  \/ (exists e, SimilarityEngine.category_term p b acc = Raise e).
Proof.
  intros Hacc. unfold SimilarityEngine.category_term.
  destruct (_ && _); [|left; by exists acc].
  destruct (item (category b)) as [cat|]; simpl; [|right; by eexists].
  destruct (item (favorite_categories p)) as [favs|]; simpl; [|right; by eexists].
  left. eexists. split; [done|].
  pose proof (best_match_range 0.7 (Str.lower cat) favs) as Hm.
  unfold weighted in *. simpl. lra.
Qed.

Lemma author_term_weighted p b acc :
  weighted acc ->
  (exists acc', SimilarityEngine.author_term p b acc = Return acc' /\ weighted acc')
  \/ (exists e, SimilarityEngine.author_term p b acc = Raise e).
Proof.
  intros Hacc. unfold SimilarityEngine.author_term.
  destruct (_ && _); [|left; by exists acc].
  destruct (item (author b)) as [au|]; simpl; [|right; by eexists].
  destruct (item (favorite_authors p)) as [favs|]; simpl; [|right; by eexists].
  left. eexists. split; [done|].
  pose proof (best_match_range 0.8 (Str.lower au) favs) as Hm.
  unfold weighted in *. simpl. lra.
Qed.

(** [calculate_user_book_affinity] returns on every profile and book, and
    the score it returns lies in [[0, 1]]; it is 0 when the profile and the
    book have no pair of keys in common. *)
Theorem affinity_range (p : user_profile) (b : book) :
  exists r,
    SimilarityEngine.calculate_user_book_affinity p b = Return r
    /\ 0 <= r <= 1
    /\ (has_key (preference_embedding p) && has_key (embedding b) = false ->
        has_key (favorite_categories p) && has_key (category b) = false ->
        has_key (favorite_authors p) && has_key (author b) = false ->
        r = 0).
Proof.
  unfold SimilarityEngine.calculate_user_book_affinity,
    SimilarityEngine.calculate_user_book_affinity_try.
  assert (forall m : outcome R,
            (exists r, m = Return r /\ 0 <= r <= 1) \/ (exists e, m = Raise e) ->
            (has_key (preference_embedding p) && has_key (embedding b) = false ->
             has_key (favorite_categories p) && has_key (category b) = false ->
             has_key (favorite_authors p) && has_key (author b) = false ->
             m = Return 0) ->
            exists r, try_except m 0 = Return r /\ 0 <= r <= 1
                      /\ (has_key (preference_embedding p)
                          && has_key (embedding b) = false ->
                          has_key (favorite_categories p)
                          && has_key (category b) = false ->
                          has_key (favorite_authors p)
                          && has_key (author b) = false ->
                          r = 0)) as Hwrap.
  { intros m [(r & -> & Hr)|(e & ->)] Hzero; simpl.
    - exists r. split; [done|]. split; [done|].
      intros H1 H2 H3. specialize (Hzero H1 H2 H3). by injection Hzero.
    - exists 0. split; [done|]. split; [lra|done]. }
  apply Hwrap.
  - destruct (content_term_weighted p b (0, 0)) as (acc1 & -> & H1);
      [unfold weighted; simpl; lra|].
    simpl bind.
    destruct (category_term_weighted p b acc1 H1) as [(acc2 & -> & H2)|(e & ->)];
      [|right; by eexists].
    simpl bind.
    destruct (author_term_weighted p b acc2 H2) as [(acc3 & -> & H3)|(e & ->)];
      [|right; by eexists].
    simpl bind. destruct acc3 as [s w]. unfold weighted in H3. simpl in H3.
    left. destruct (Rlt_dec 0 w) as [Hpos|_].
    + eexists. split; [done|]. by apply ratio_range.
    + exists 0. split; [done|lra].
  - intros H1 H2 H3.
    unfold SimilarityEngine.content_term, SimilarityEngine.category_term,
      SimilarityEngine.author_term.
    rewrite H1. simpl. rewrite H2. simpl. rewrite H3. simpl.
    destruct (Rlt_dec 0 0) as [Hlt|_]; [lra|done].
Qed.

End AffinityRange.

(** ** [EmbeddingService]: the caches of [generate_embedding] *)

Section EmbeddingFacts.
Context (model_encode : string -> list R).
Context (md5_hexdigest normalize_nfc : string -> string).
Implicit Types (s : EmbeddingService.t).

Local Abbreviation generate_embedding :=
  (EmbeddingService.generate_embedding model_encode md5_hexdigest normalize_nfc).
Local Abbreviation _cached_encode := (EmbeddingService._cached_encode model_encode).
Local Abbreviation _prepare_text := (EmbeddingService._prepare_text normalize_nfc).

(** A text with a character that is not whitespace is not blank. *)
Lemma rstrip_head (c : Ascii.ascii) (text : string) :
  Str.is_space c = false -> Str.rstrip (String c text) <> EmptyString.
Proof. intros Hc. simpl. rewrite Hc. by destruct (Str.rstrip text). Qed.

Lemma lstrip_not_all_space (text : string) :
  Str.all_space text = false ->
  exists c rest, Str.lstrip text = String c rest /\ Str.is_space c = false.
Proof.
  induction text as [|c text IH]; simpl; [done|].
  destruct (Str.is_space c) eqn:Hc; simpl; [exact IH|].
  intros _. by exists c, text.
Qed.

Lemma strip_not_all_space (text : string) :
  Str.all_space text = false ->
  Str.is_empty text || Str.is_empty (Str.strip text) = false.
Proof.
  intros Hns. unfold Str.strip.
  destruct (lstrip_not_all_space text Hns) as (c & rest & -> & Hc).
  pose proof (rstrip_head c rest Hc) as Hne.
  destruct text; [done|].
  by destruct (Str.rstrip (String c rest)).
Qed.

(** With the model loaded, [_cached_encode] returns and touches only the
    memo table and the log of model calls. *)
Lemma cached_encode_ready text s :
  EmbeddingService.is_ready s = true ->
  exists e s2,
    _cached_encode text s = (Return e, s2)
    /\ EmbeddingService.model_name s2 = EmbeddingService.model_name s
    /\ EmbeddingService.model s2 = EmbeddingService.model s
    /\ EmbeddingService.model_loaded s2 = EmbeddingService.model_loaded s
    /\ EmbeddingService.embedding_dimension s2
       = EmbeddingService.embedding_dimension s
    /\ EmbeddingService.cache s2 = EmbeddingService.cache s
    /\ EmbeddingService.stats_of s2 = EmbeddingService.stats_of s.
Proof.
  intros Hready. unfold EmbeddingService._cached_encode.
  destruct (PyDict.getitem text (EmbeddingService.lru s)) as [e|].
  - eexists _, _. split; [done|]. by repeat split.
  - rewrite Hready. eexists _, _. split; [done|]. by repeat split.
Qed.

(** A call with [use_cache=True] on a text that is not blank leaves the
    embedding it returns in [self.cache], under the key of the text. *)
Lemma generate_embedding_fills (text : string) (model_version : option string)
  (elapsed : R) s :
  EmbeddingService.is_ready s = true ->
  Str.is_empty text || Str.is_empty (Str.strip text) = false ->
  let r := generate_embedding text model_version true elapsed s in
  exists e,
    r.1 = Return e
    /\ EmbeddingService.is_ready r.2 = true
    /\ EmbeddingService.model_name r.2 = EmbeddingService.model_name s
    /\ EmbeddingService.cache r.2
       !! EmbeddingService._generate_cache_key md5_hexdigest s
            (_prepare_text text) model_version = Some e.
Proof.
  intros Hready Hblank r. subst r. unfold EmbeddingService.generate_embedding.
  rewrite Hready, Hblank. simpl negb. cbv iota.
  set (key := EmbeddingService._generate_cache_key md5_hexdigest s
                (_prepare_text text) model_version).
  destruct (EmbeddingService.cache s !! key) as [e|] eqn:Hkey.
  { exists e. cbn [fst snd]. split; [done|]. split; [exact Hready|]. done. }
  set (s1 := EmbeddingService.Make _ _ _ _ _ _ _ _).
  destruct (cached_encode_ready (_prepare_text text) s1 Hready)
    as (e & s2 & Henc & Hname & Hmodel & Hloaded & Hdim & Hcache & Hstats).
  rewrite Henc. exists e. cbn [fst snd]. split; [done|].
  split.
  { unfold EmbeddingService.is_ready in *. simpl. by rewrite Hmodel, Hloaded. }
  split; [exact Hname|]. simpl. apply lookup_insert_eq.
Qed.

(** A cache hit. *)
Lemma generate_embedding_hit (text : string) (model_version : option string)
  (elapsed : R) s (e : list R) :
  EmbeddingService.is_ready s = true ->
  Str.is_empty text || Str.is_empty (Str.strip text) = false ->
  EmbeddingService.cache s
  !! EmbeddingService._generate_cache_key md5_hexdigest s
       (_prepare_text text) model_version = Some e ->
  let r := generate_embedding text model_version true elapsed s in
  r.1 = Return e
  /\ EmbeddingService.encode_calls r.2 = EmbeddingService.encode_calls s
  /\ EmbeddingService.cache r.2 = EmbeddingService.cache s
  /\ EmbeddingService.lru r.2 = EmbeddingService.lru s
  /\ EmbeddingService.embeddings_generated (EmbeddingService.stats_of r.2)
     = EmbeddingService.embeddings_generated (EmbeddingService.stats_of s).
Proof.
  intros Hready Hblank Hkey r. subst r. unfold EmbeddingService.generate_embedding.
  rewrite Hready, Hblank. simpl negb. cbv iota. rewrite Hkey. done.
Qed.

(** A second [generate_embedding] of the same text, both calls with
    [use_cache=True], returns what the first returned and is served from
    [self.cache]: it does not call the model, and it leaves the caches and
    the count of generated embeddings as the first call left them. *)
Theorem generate_embedding_memoised (text : string) (model_version : option string)
  (elapsed elapsed' : R) s :
  let r1 := generate_embedding text model_version true elapsed s in
  let r2 := generate_embedding text model_version true elapsed' r1.2 in
  r2.1 = r1.1
  /\ EmbeddingService.encode_calls r2.2 = EmbeddingService.encode_calls r1.2
  /\ EmbeddingService.cache r2.2 = EmbeddingService.cache r1.2
  /\ EmbeddingService.lru r2.2 = EmbeddingService.lru r1.2
  /\ EmbeddingService.embeddings_generated (EmbeddingService.stats_of r2.2)
     = EmbeddingService.embeddings_generated (EmbeddingService.stats_of r1.2).
Proof.
  intros r1 r2.
  destruct (EmbeddingService.is_ready s) eqn:Hready.
  2:{ assert (r1 = (Raise RuntimeError, s)) as Hr1.
      { subst r1. unfold EmbeddingService.generate_embedding. by rewrite Hready. }
      subst r2. rewrite Hr1. cbn [snd fst].
      unfold EmbeddingService.generate_embedding. by rewrite Hready. }
  destruct (Str.is_empty text || Str.is_empty (Str.strip text)) eqn:Hblank.
  { assert (r1 = (Return (EmbeddingService.np_zeros
                            (EmbeddingService.embedding_dimension s)), s)) as Hr1.
    { subst r1. unfold EmbeddingService.generate_embedding.
      by rewrite Hready, Hblank. }
    subst r2. rewrite Hr1. cbn [snd fst].
    unfold EmbeddingService.generate_embedding. by rewrite Hready, Hblank. }
  destruct (generate_embedding_fills text model_version elapsed s Hready Hblank)
    as (e & He & Hready1 & Hname & Hkey).
  fold r1 in He, Hready1, Hname, Hkey.
  assert (EmbeddingService._generate_cache_key md5_hexdigest r1.2
            (_prepare_text text) model_version
          = EmbeddingService._generate_cache_key md5_hexdigest s
              (_prepare_text text) model_version) as Hsame.
  { unfold EmbeddingService._generate_cache_key. by rewrite Hname. }
  rewrite <- Hsame in Hkey.
  destruct (generate_embedding_hit text model_version elapsed' r1.2 e
              Hready1 Hblank Hkey) as (H1 & H2 & H3 & H4 & H5).
  fold r2 in H1, H2, H3, H4, H5.
  split; [by rewrite H1, He|]. done.
Qed.

(** After [clear_cache()], [generate_embedding] of a text that is not blank
    calls the model again, whatever was cached before. *)
Theorem clear_cache_forgets (text : string) (model_version : option string)
  (use_cache : bool) (elapsed : R) s :
  EmbeddingService.is_ready s = true ->
  Str.all_space text = false ->
  let r := generate_embedding text model_version use_cache elapsed
             (EmbeddingService.clear_cache s) in
  r.1 = Return (model_encode (_prepare_text text))
  /\ EmbeddingService.encode_calls r.2
     = EmbeddingService.encode_calls s ++ [_prepare_text text].
Proof.
  intros Hready Hns r. subst r. unfold EmbeddingService.generate_embedding.
  unfold EmbeddingService.is_ready, EmbeddingService.clear_cache in *.
  cbn [EmbeddingService.model EmbeddingService.model_loaded EmbeddingService.cache
         EmbeddingService.lru EmbeddingService.stats_of
         EmbeddingService.embedding_dimension EmbeddingService.encode_calls
         EmbeddingService.model_name].
  rewrite Hready, (strip_not_all_space text Hns). simpl negb. cbv iota.
  rewrite lookup_empty.
  assert ((if use_cache then None else None) = (None : option (list R))) as ->
    by (by destruct use_cache).
  unfold EmbeddingService._cached_encode, EmbeddingService.is_ready.
  cbn [EmbeddingService.model EmbeddingService.model_loaded EmbeddingService.cache
         EmbeddingService.lru EmbeddingService.stats_of
         EmbeddingService.embedding_dimension EmbeddingService.encode_calls
         EmbeddingService.model_name PyDict.getitem].
  rewrite Hready. simpl. done.
Qed.

(** *** A book without text *)

Lemma dot_zeros_l (n : nat) (v : list R) :
  SimilarityEngine.dot (replicate n 0%R) v = 0%R.
Proof.
  unfold SimilarityEngine.dot. revert v.
  induction n as [|n IH]; intros [|y v]; simpl; try done.
  rewrite IH. lra.
Qed.

Lemma cosine_zeros_l (n : nat) (v : option (list R)) :
  SimilarityEngine.cosine_similarity (Some (replicate n 0%R)) v = Return 0%R.
Proof.
  unfold SimilarityEngine.cosine_similarity, SimilarityEngine.cosine_similarity_try.
  simpl. destruct (length (replicate n 0%R) =? 0)%nat; [done|]. simpl.
  destruct v as [ys|]; simpl; [|done].
  destruct (length ys =? 0)%nat; [done|]. simpl.
  destruct (negb _); [done|].
  unfold SimilarityEngine.cosine. rewrite !dot_zeros_l.
  destruct (Req_dec_T (0 * SimilarityEngine.dot ys ys) 0) as [_|Hne]; [done|].
  exfalso. apply Hne. lra.
Qed.

(** What [book_data.get(key)] must be for the key to add no text. *)
Definition no_text {A} (empty : A) (v : slot A) : Prop :=
  v = Absent \/ v = PyNone \/ v = Val empty.

(** A book whose name, author, description, category and tags are all
    missing, [None] or empty gets the vector of zeros from
    [generate_book_embedding], without a call of the model; and the cosine
    similarity of that vector to any vector is 0, in both orders. *)
Theorem book_without_text (book_data : book) (elapsed : R) s
  (v : option (list R)) :
  EmbeddingService.is_ready s = true ->
  no_text EmptyString (name book_data) ->
  no_text EmptyString (author book_data) ->
  no_text EmptyString (description book_data) ->
  no_text EmptyString (category book_data) ->
  no_text [] (tags book_data) ->
  let zeros := replicate (EmbeddingService.embedding_dimension s) 0%R in
  EmbeddingService.generate_book_embedding model_encode md5_hexdigest
    normalize_nfc book_data elapsed s = (Return zeros, s)
  /\ SimilarityEngine.cosine_similarity (Some zeros) v = Return 0%R
  /\ SimilarityEngine.cosine_similarity v (Some zeros) = Return 0%R.
Proof.
  intros Hready Hn Ha Hd Hc Ht zeros.
  assert (EmbeddingService.combined_text book_data = EmptyString) as Htext.
  { unfold EmbeddingService.combined_text.
    assert (forall label v0, no_text EmptyString v0 ->
              EmbeddingService.text_part label v0 = []) as Hpart.
    { intros label v0 [-> | [-> | ->] ]; done. }
    rewrite !Hpart by done.
    destruct Ht as [-> | [-> | ->] ]; done. }
  split.
  - unfold EmbeddingService.generate_book_embedding,
      EmbeddingService.generate_embedding.
    rewrite Htext, Hready. done.
  - split; [apply cosine_zeros_l|].
    rewrite cosine_similarity_sym. apply cosine_zeros_l.
Qed.

End EmbeddingFacts.

Lemma clear_cache_forgets_witness :
  let enc := fun _ : string => [1%R] in
  let same := fun t : string => t in
  let r := EmbeddingService.generate_embedding enc same same "a b" None true 0%R
             (EmbeddingService.clear_cache a_service) in
  r.1 = Return (enc (EmbeddingService._prepare_text same "a b"))
  /\ EmbeddingService.encode_calls r.2
     = EmbeddingService.encode_calls a_service
       ++ [EmbeddingService._prepare_text same "a b"].
Proof.
  intros enc same.
  apply (clear_cache_forgets enc same same "a b" None true 0%R a_service);
    reflexivity.
Defined.

Lemma book_without_text_witness :
  let enc := fun _ : string => [1%R] in
  let same := fun t : string => t in
  let b := Book "b1" (Val "") PyNone Absent Absent (Val []) Absent None None in
  let zeros := replicate (EmbeddingService.embedding_dimension a_service) 0%R in
  EmbeddingService.generate_book_embedding enc same same b 0%R a_service
  = (Return zeros, a_service)
  /\ SimilarityEngine.cosine_similarity (Some zeros) (Some [1%R]) = Return 0%R
  /\ SimilarityEngine.cosine_similarity (Some [1%R]) (Some zeros) = Return 0%R.
Proof.
  intros enc same b.
  apply (book_without_text enc same same b 0%R a_service (Some [1%R])).
  - reflexivity.
  - right; right; reflexivity.
  - right; left; reflexivity.
  - left; reflexivity.
  - left; reflexivity.
  - right; right; reflexivity.
Defined.

(** ** [RecommendationEngine]: counters, cached lists, the shape of results *)

Section EngineFacts.
Context (str_of_float : R -> string).
Implicit Types (e : RecommendationEngine.t) (svc : RecommendationEngine.services).

Local Abbreviation get_similar_books :=
  (RecommendationEngine.get_similar_books str_of_float).

Lemma stats_get_from_cache key now e :
  RecommendationEngine.stats_of (RecommendationEngine._get_from_cache key now e).2
  = RecommendationEngine.stats_of e.
Proof.
  unfold RecommendationEngine._get_from_cache.
  destruct (RecommendationEngine.cache_manager e) as [m|]; [|done].
  by destruct (CacheManager.get _ _ key _ now m).
Qed.

Lemma stats_set_cache key data ttl now e :
  RecommendationEngine.stats_of (RecommendationEngine._set_cache key data ttl now e)
  = RecommendationEngine.stats_of e.
Proof.
  unfold RecommendationEngine._set_cache.
  destruct (RecommendationEngine.cache_manager e) as [m|]; [|done].
  by destruct (CacheManager.set _ _ key data ttl _ now m).
Qed.

(** How a call moves the counters: the three request counters by [ds],
    [dp] and [dt]; one cache lookup, hit or miss, for each request; and a
    list generated only after a miss. *)
Definition moved (ds dp dt : Z) (st st' : RecommendationEngine.stats) : Prop :=
  RecommendationEngine.similar_book_requests st'
  = RecommendationEngine.similar_book_requests st + ds
  /\ RecommendationEngine.personalized_requests st'
     = RecommendationEngine.personalized_requests st + dp
  /\ RecommendationEngine.trending_requests st'
     = RecommendationEngine.trending_requests st + dt
  /\ RecommendationEngine.cache_hits st <= RecommendationEngine.cache_hits st'
  /\ RecommendationEngine.cache_misses st <= RecommendationEngine.cache_misses st'
  /\ (RecommendationEngine.cache_hits st' + RecommendationEngine.cache_misses st')
     - (RecommendationEngine.cache_hits st + RecommendationEngine.cache_misses st)
     = ds + dp + dt
  /\ 0 <= RecommendationEngine.recommendations_generated st'
          - RecommendationEngine.recommendations_generated st
     <= RecommendationEngine.cache_misses st' - RecommendationEngine.cache_misses st.

Lemma moved_trending svc limit days min_interactions now e :
  moved 0 0 1 (RecommendationEngine.stats_of e)
    (RecommendationEngine.stats_of
       (RecommendationEngine.get_trending_books svc limit days min_interactions
          now e).2).
Proof.
  unfold RecommendationEngine.get_trending_books.
  pose proof (stats_get_from_cache
                (RecommendationEngine.trending_key limit days min_interactions) now
                (RecommendationEngine.update_stats
                   RecommendationEngine.count_trending e)) as Hst.
  destruct (RecommendationEngine._get_from_cache _ now _) as [cached e1].
  simpl in Hst.
  destruct (RecommendationEngine.truthy cached).
  { unfold moved. simpl. rewrite Hst. simpl. lia. }
  destruct (negb (RecommendationEngine.supabase svc)).
  { unfold moved. simpl. rewrite Hst. simpl. lia. }
  destruct (RecommendationEngine.cutoff now days) as [cutoff_date|].
  2:{ unfold moved. simpl. rewrite Hst. simpl. lia. }
  destruct (RecommendationEngine.trending_query svc _ _ _) as [rows|err].
  - unfold moved. simpl. rewrite stats_set_cache. simpl. rewrite Hst. simpl. lia.
  - unfold moved. simpl. rewrite Hst. simpl. lia.
Qed.

Lemma moved_similar svc book_id limit min_similarity exclude now e :
  moved 1 0 0 (RecommendationEngine.stats_of e)
    (RecommendationEngine.stats_of
       (get_similar_books svc book_id limit min_similarity exclude now e).2).
Proof.
  unfold RecommendationEngine.get_similar_books.
  pose proof (stats_get_from_cache
                (RecommendationEngine.similar_key str_of_float book_id limit
                   min_similarity) now
                (RecommendationEngine.update_stats
                   RecommendationEngine.count_similar e)) as Hst.
  destruct (RecommendationEngine._get_from_cache _ now _) as [cached e1].
  simpl in Hst.
  destruct (RecommendationEngine.truthy cached).
  { unfold moved. simpl. rewrite Hst. simpl. lia. }
  destruct (RecommendationEngine._get_book_data svc book_id) as [target|].
  2:{ unfold moved. simpl. rewrite Hst. simpl. lia. }
  destruct (RecommendationEngine._get_or_generate_book_embedding svc target)
    as [emb|].
  2:{ unfold moved. simpl. rewrite Hst. simpl. lia. }
  destruct (RecommendationEngine.similar_books_of svc target emb min_similarity _)
    as [books|err].
  - unfold moved. simpl. rewrite stats_set_cache. simpl. rewrite Hst. simpl. lia.
  - unfold moved. simpl. rewrite Hst. simpl. lia.
Qed.

(** The cold start of [get_personalized_recommendations]: the lookup of
    the personalized key is a miss and the user has no interactions. *)
Definition cold_start svc (user_id : string) (limit : Z) (exclude_purchased : bool)
  (now : Z) e : bool :=
  negb (RecommendationEngine.truthy
          (RecommendationEngine._get_from_cache
             (RecommendationEngine.personalized_key user_id limit exclude_purchased)
             now
             (RecommendationEngine.update_stats
                RecommendationEngine.count_personalized e)).1)
  && match RecommendationEngine._get_user_interactions svc user_id with
     | [] => true
     | _ => false
     end.

Lemma moved_personalized svc user_id limit exclude_purchased decay now e :
  moved 0 1 (if cold_start svc user_id limit exclude_purchased now e then 1 else 0)
    (RecommendationEngine.stats_of e)
    (RecommendationEngine.stats_of
       (RecommendationEngine.get_personalized_recommendations svc user_id limit
          exclude_purchased decay now e).2).
Proof.
  unfold cold_start.
  unfold RecommendationEngine.get_personalized_recommendations.
  pose proof (stats_get_from_cache
                (RecommendationEngine.personalized_key user_id limit
                   exclude_purchased) now
                (RecommendationEngine.update_stats
                   RecommendationEngine.count_personalized e)) as Hst.
  destruct (RecommendationEngine._get_from_cache _ now _) as [cached e1].
  simpl in Hst.
  cbn [fst].
  destruct (RecommendationEngine.truthy cached).
  { unfold moved. simpl. rewrite Hst. simpl. lia. }
  destruct (RecommendationEngine._get_user_interactions svc user_id) as [|i l].
  { pose proof (moved_trending svc limit 30 5 now
                  (RecommendationEngine.update_stats
                     RecommendationEngine.count_miss e1)) as Hm.
    unfold moved in *. simpl in Hm. rewrite Hst in Hm. simpl in Hm.
    simpl. lia. }
  cbn [negb andb].
  destruct (RecommendationEngine.recommendations_of svc _ _) as [recs|err].
  - unfold moved. simpl. rewrite stats_set_cache. simpl. rewrite Hst. simpl. lia.
  - unfold moved. simpl. rewrite Hst. simpl. lia.
Qed.

(** The public calls, each with the state of the outside services at the
    time of the call. *)
Inductive call :=
| Similar (svc : RecommendationEngine.services) (book_id : string) (limit : Z)
    (min_similarity : R) (exclude_categories : option (list string)) (now : Z)
| Personalized (svc : RecommendationEngine.services) (user_id : string)
    (limit : Z) (exclude_purchased : bool) (time_decay_factor : R) (now : Z)
| Trending (svc : RecommendationEngine.services) (limit time_window_days
    min_interactions : Z) (now : Z).

Definition do_call e (c : call) : RecommendationEngine.t :=
  match c with
  | Similar svc book_id limit min_similarity exclude now =>
      (get_similar_books svc book_id limit min_similarity exclude now e).2
  | Personalized svc user_id limit exclude_purchased decay now =>
      (RecommendationEngine.get_personalized_recommendations svc user_id limit
         exclude_purchased decay now e).2
  | Trending svc limit days min_interactions now =>
      (RecommendationEngine.get_trending_books svc limit days min_interactions
         now e).2
  end.

Definition is_similar (c : call) : bool :=
  match c with Similar _ _ _ _ _ _ => true | _ => false end.

Definition is_personalized (c : call) : bool :=
  match c with Personalized _ _ _ _ _ _ => true | _ => false end.

Definition is_trending (c : call) : bool :=
  match c with Trending _ _ _ _ _ => true | _ => false end.

Definition number_of (which : call -> bool) (calls : list call) : Z :=
  Z.of_nat (length (filter (fun c => which c = true) calls)).

Lemma number_of_cons which c calls :
  number_of which (c :: calls)
  = (if which c then 1 else 0) + number_of which calls.
Proof.
  unfold number_of. rewrite filter_cons.
  destruct (decide (which c = true)) as [Hc|Hc].
  - rewrite Hc. simpl length. lia.
  - apply not_true_is_false in Hc. rewrite Hc. lia.
Qed.

(** The cold starts of a sequence of calls on the engine [e]. *)
Fixpoint cold_starts e (calls : list call) : Z :=
  match calls with
  | [] => 0
  | c :: rest =>
      (match c with
       | Personalized svc user_id limit exclude_purchased _ now =>
           if cold_start svc user_id limit exclude_purchased now e then 1 else 0
       | _ => 0
       end)
      + cold_starts (do_call e c) rest
  end.

Lemma cold_starts_bounds (calls : list call) e :
  0 <= cold_starts e calls <= number_of is_personalized calls.
Proof.
  revert e. induction calls as [|c calls IH]; intros e.
  { unfold number_of. simpl. lia. }
  cbn [cold_starts]. rewrite number_of_cons. specialize (IH (do_call e c)).
  destruct c as [svc book_id limit ms ex now|svc user_id limit ep decay now
                |svc limit days mi now]; cbn [is_personalized]; try lia.
  destruct (cold_start svc user_id limit ep now e); lia.
Qed.

Lemma do_calls_counters (calls : list call) e :
  let st := RecommendationEngine.stats_of e in
  let st' := RecommendationEngine.stats_of (foldl do_call e calls) in
  RecommendationEngine.similar_book_requests st'
  = RecommendationEngine.similar_book_requests st + number_of is_similar calls
  /\ RecommendationEngine.personalized_requests st'
     = RecommendationEngine.personalized_requests st
       + number_of is_personalized calls
  /\ RecommendationEngine.trending_requests st'
     = RecommendationEngine.trending_requests st + number_of is_trending calls
       + cold_starts e calls
  /\ (RecommendationEngine.cache_hits st' + RecommendationEngine.cache_misses st')
     - (RecommendationEngine.cache_hits st + RecommendationEngine.cache_misses st)
     = (RecommendationEngine.similar_book_requests st'
        + RecommendationEngine.personalized_requests st'
        + RecommendationEngine.trending_requests st')
       - (RecommendationEngine.similar_book_requests st
          + RecommendationEngine.personalized_requests st
          + RecommendationEngine.trending_requests st)
  /\ RecommendationEngine.cache_hits st <= RecommendationEngine.cache_hits st'
  /\ 0 <= RecommendationEngine.recommendations_generated st'
          - RecommendationEngine.recommendations_generated st
     <= RecommendationEngine.cache_misses st' - RecommendationEngine.cache_misses st.
Proof.
  revert e. induction calls as [|c calls IH]; intros e.
  { unfold number_of. simpl. lia. }
  specialize (IH (do_call e c)). cbv zeta in IH |- *.
  cbn [foldl cold_starts]. rewrite !number_of_cons.
  destruct c as [svc book_id limit ms ex now|svc user_id limit ep decay now
                |svc limit days mi now]; cbn [is_similar is_personalized is_trending].
  - pose proof (moved_similar svc book_id limit ms ex now e) as Hm.
    unfold moved in Hm. cbn [do_call] in IH |- *. lia.
  - pose proof (moved_personalized svc user_id limit ep decay now e) as Hm.
    unfold moved in Hm. cbn [do_call] in IH |- *.
    destruct (cold_start svc user_id limit ep now e); lia.
  - pose proof (moved_trending svc limit days mi now e) as Hm.
    unfold moved in Hm. cbn [do_call] in IH |- *. lia.
Qed.

(** The counters of an engine that starts at zero, after any sequence of
    [get_similar_books], [get_personalized_recommendations] and
    [get_trending_books] calls, with or without a cache manager and whatever
    the outside services return: [cache_hits + cache_misses] is the sum of
    the three request counters; [similar_book_requests] and
    [personalized_requests] count the calls of their methods, and
    [trending_requests] is the number of [get_trending_books] calls plus
    the number of cold starts of [get_personalized_recommendations], the
    calls that miss the cache and find no interactions;
    [recommendations_generated] is at most [cache_misses]. *)
Theorem engine_counters (calls : list call)
  (cache_manager : option (CacheManager.t (list book))) :
  let e0 := RecommendationEngine.Make (RecommendationEngine.Stats 0 0 0 0 0 0)
              cache_manager in
  let e := foldl do_call e0 calls in
  let st := RecommendationEngine.stats_of e in
  RecommendationEngine.cache_hits st + RecommendationEngine.cache_misses st
  = RecommendationEngine.similar_book_requests st
    + RecommendationEngine.personalized_requests st
    + RecommendationEngine.trending_requests st
  /\ RecommendationEngine.similar_book_requests st = number_of is_similar calls
  /\ RecommendationEngine.personalized_requests st
     = number_of is_personalized calls
  /\ RecommendationEngine.trending_requests st
     = number_of is_trending calls + cold_starts e0 calls
  /\ 0 <= cold_starts e0 calls <= number_of is_personalized calls
  /\ 0 <= RecommendationEngine.cache_hits st
  /\ 0 <= RecommendationEngine.recommendations_generated st
     <= RecommendationEngine.cache_misses st.
Proof.
  intros e0 e st.
  pose proof (do_calls_counters calls e0) as H.
  pose proof (cold_starts_bounds calls e0) as Hc.
  cbv zeta in H. fold e in H. fold st in H.
  change (RecommendationEngine.stats_of e0)
    with (RecommendationEngine.Stats 0 0 0 0 0 0) in H.
  cbn [RecommendationEngine.similar_book_requests
       RecommendationEngine.personalized_requests
       RecommendationEngine.trending_requests RecommendationEngine.cache_hits
       RecommendationEngine.cache_misses
       RecommendationEngine.recommendations_generated] in H.
  lia.
Qed.

(** *** A trending list is computed once per half hour *)

(** After a call of [get_trending_books] that missed the cache, computed
    a list that is not empty and cached it (the expiry time, 1800 seconds
    later, is a [datetime]), a call with the same arguments before the
    1800 seconds have passed returns that list from the cache, whatever
    the outside services would return now: it counts a cache hit and
    generates nothing. *)
Theorem trending_served_from_cache svc svc' (limit days min_interactions : Z)
  (now now' : Z) e :
  let key := RecommendationEngine.trending_key limit days min_interactions in
  let looked_up :=
    RecommendationEngine._get_from_cache key now
      (RecommendationEngine.update_stats RecommendationEngine.count_trending e) in
  let first :=
    RecommendationEngine.get_trending_books svc limit days min_interactions now e in
  let second :=
    RecommendationEngine.get_trending_books svc' limit days min_interactions now'
      first.2 in
  RecommendationEngine.cache_manager e <> None ->
  RecommendationEngine.truthy looked_up.1 = false ->
  first.1 <> [] ->
  InMemoryCache.in_range now 1800 = true ->
  now' < now + InMemoryCache.timedelta_seconds 1800 ->
  second.1 = first.1
  /\ RecommendationEngine.cache_hits (RecommendationEngine.stats_of second.2)
     = RecommendationEngine.cache_hits (RecommendationEngine.stats_of first.2) + 1
  /\ RecommendationEngine.cache_misses (RecommendationEngine.stats_of second.2)
     = RecommendationEngine.cache_misses (RecommendationEngine.stats_of first.2)
  /\ RecommendationEngine.recommendations_generated
       (RecommendationEngine.stats_of second.2)
     = RecommendationEngine.recommendations_generated
         (RecommendationEngine.stats_of first.2).
Proof.
  intros key looked_up first second Hm Hmiss Hne Hrange Hlive.
  assert (RecommendationEngine.cache_manager looked_up.2 <> None) as Hm1.
  { by apply get_from_cache_keeps_manager. }
  assert (exists e0,
            RecommendationEngine.cache_manager e0 <> None
            /\ RecommendationEngine.cache_manager first.2
               = RecommendationEngine.cache_manager
                   (RecommendationEngine._set_cache key first.1 1800 now e0))
    as (e0 & Hm0 & Hcm).
  { subst first. revert Hne.
    unfold RecommendationEngine.get_trending_books. fold key. fold looked_up.
    destruct looked_up as [cached e1]. simpl in Hmiss, Hm1 |- *. rewrite Hmiss.
    destruct (negb (RecommendationEngine.supabase svc)); [done|].
    destruct (RecommendationEngine.cutoff now days) as [cutoff_date|]; [|done].
    destruct (RecommendationEngine.trending_query svc _ _ _) as [rows|err];
      [|done].
    intros _. simpl. eexists. split; [|reflexivity]. exact Hm1. }
  subst second. unfold RecommendationEngine.get_trending_books at 1 2 3 4.
  fold key.
  pose proof (get_after_set_cache key first.1 1800 now now' e0
                (RecommendationEngine.update_stats
                   RecommendationEngine.count_trending first.2)
                Hm0 Hrange Hlive Hcm) as Hget.
  pose proof (stats_get_from_cache key now'
                (RecommendationEngine.update_stats
                   RecommendationEngine.count_trending first.2)) as Hst.
  destruct (RecommendationEngine._get_from_cache key now' _) as [cached e2].
  simpl in Hget, Hst. subst cached.
  destruct first.1 as [|b l] eqn:E; [done|].
  simpl. rewrite Hst. simpl. done.
Qed.

(** *** The lists the engine computes *)

(** A result of the loops over the candidates: a copy of a candidate with
    its score and a reason. *)
Definition scored_copy (candidates : list book) (ok : R -> Prop) (x : book)
  : Prop :=
  exists candidate score reason,
    candidate ∈ candidates
    /\ x = RecommendationEngine.with_score candidate score reason
    /\ ok score.

Lemma scored_copy_score candidates ok x :
  scored_copy candidates ok x -> ok (RecommendationEngine.score_of x).
Proof. by intros (c & s & r & _ & -> & Hs). Qed.

Lemma scored_copy_category candidates ok x :
  Forall (fun c => category c <> Absent) candidates ->
  scored_copy candidates ok x -> category x <> Absent.
Proof.
  intros Hall (c & s & r & Hc & -> & _). simpl.
  by apply (proj1 (Forall_forall _ _) Hall).
Qed.

Lemma scored_copy_mono candidates candidates' ok x :
  (forall c, c ∈ candidates -> c ∈ candidates') ->
  scored_copy candidates ok x -> scored_copy candidates' ok x.
Proof.
  intros Hsub (c & s & r & Hc & Hx & Hs). exists c, s, r. auto.
Qed.

Lemma similarity_value_range (a b : list R) :
  (0 <= RecommendationEngine.similarity_value a b <= 1)%R.
Proof.
  unfold RecommendationEngine.similarity_value.
  destruct (cosine_similarity_value (Some a) (Some b)) as (r & -> & Hr). done.
Qed.

Lemma similar_books_of_spec svc target emb min_similarity candidates books :
  RecommendationEngine.similar_books_of svc target emb min_similarity candidates
  = Return books ->
  Forall (scored_copy candidates (fun s => (min_similarity <= s <= 1)%R)) books.
Proof.
  revert books. induction candidates as [|c rest IH]; intros books; simpl.
  { intros [= <-]. constructor. }
  assert (forall l,
            Forall (scored_copy rest (fun s => (min_similarity <= s <= 1)%R)) l ->
            Forall (scored_copy (c :: rest)
                      (fun s => (min_similarity <= s <= 1)%R)) l) as Hmono.
  { intros l Hl. eapply Forall_impl; [exact Hl|]. intros x.
    apply scored_copy_mono. intros c' Hc'. by right. }
  destruct (RecommendationEngine._get_or_generate_book_embedding svc c) as [ce|].
  2:{ intros H. by apply Hmono, IH. }
  destruct (Rge_dec _ _) as [Hge|_].
  2:{ intros H. by apply Hmono, IH. }
  destruct (RecommendationEngine._generate_similarity_reason svc target c)
    as [reason|err]; simpl; [|done].
  destruct (RecommendationEngine.similar_books_of svc target emb min_similarity rest)
    as [more|err]; simpl; [|done].
  intros [= <-]. constructor; [|by apply Hmono, IH].
  exists c, (RecommendationEngine.similarity_value emb ce), reason.
  split; [left|]. split; [done|].
  pose proof (similarity_value_range emb ce). lra.
Qed.

Lemma affinity_value_range p b a :
  SimilarityEngine.calculate_user_book_affinity p b = Return a ->
  (0 <= a <= 1)%R.
Proof.
  unfold SimilarityEngine.calculate_user_book_affinity,
    SimilarityEngine.calculate_user_book_affinity_try.
  destruct (content_term_weighted p b (0, 0)%R) as (acc1 & -> & H1);
    [unfold weighted; simpl; lra|].
  simpl bind.
  destruct (category_term_weighted p b acc1 H1) as [(acc2 & -> & H2)|(e & ->)];
    [|simpl; intros [= <-]; lra].
  simpl bind.
  destruct (author_term_weighted p b acc2 H2) as [(acc3 & -> & H3)|(e & ->)];
    [|simpl; intros [= <-]; lra].
  simpl bind. destruct acc3 as [s w]. unfold weighted in H3. simpl in H3.
  destruct (Rlt_dec 0 w) as [Hpos|_]; simpl; intros [= <-]; [|lra].
  by apply ratio_range.
Qed.

Lemma recommendations_of_spec svc p candidates books :
  RecommendationEngine.recommendations_of svc p candidates = Return books ->
  Forall (scored_copy candidates (fun s => (0.2 < s <= 1)%R)) books.
Proof.
  revert books. induction candidates as [|c rest IH]; intros books; simpl.
  { intros [= <-]. constructor. }
  assert (forall l,
            Forall (scored_copy rest (fun s => (0.2 < s <= 1)%R)) l ->
            Forall (scored_copy (c :: rest) (fun s => (0.2 < s <= 1)%R)) l)
    as Hmono.
  { intros l Hl. eapply Forall_impl; [exact Hl|]. intros x.
    apply scored_copy_mono. intros c' Hc'. by right. }
  destruct (RecommendationEngine._get_or_generate_book_embedding svc c) as [ce|].
  2:{ intros H. by apply Hmono, IH. }
  destruct (SimilarityEngine.calculate_user_book_affinity p _) as [a|err] eqn:Ha;
    simpl; [|done].
  destruct (Rlt_dec 0.2 a) as [Hgt|_].
  2:{ intros H. by apply Hmono, IH. }
  destruct (RecommendationEngine._generate_personalized_reason p c)
    as [reason|err]; simpl; [|done].
  destruct (RecommendationEngine.recommendations_of svc p rest)
    as [more|err]; simpl; [|done].
  intros [= <-]. constructor; [|by apply Hmono, IH].
  exists c, a, reason. split; [left|]. split; [done|].
  pose proof (affinity_value_range _ _ _ Ha). lra.
Qed.

(** What the ranking pipeline of the two methods keeps: sort, cut at
    [2 * limit], diversify, cut at [limit]. *)
Definition well_ranked (candidates : list book) (ok : R -> Prop) (limit : Z)
  (results : list book) : Prop :=
  StronglySorted
    (fun x y => (RecommendationEngine.score_of y <= RecommendationEngine.score_of x)%R)
    results
  /\ Forall (scored_copy candidates ok) results
  /\ (0 <= limit -> Z.of_nat (length results) <= limit)
  /\ (Forall (fun c => category c <> Absent) candidates ->
      forall bucket, (bucket_size category bucket results <= 3)%nat).

Lemma bucket_size_sublist {C} (category_of : C -> slot string) bucket
  (l1 l2 : list C) :
  l1 `sublist_of` l2 ->
  (bucket_size category_of bucket l1 <= bucket_size category_of bucket l2)%nat.
Proof.
  intros Hsub. unfold bucket_size.
  induction Hsub as [|x l1 l2 Hsub IH|x l1 l2 Hsub IH]; [done|..];
    rewrite ?filter_cons; destruct (decide _); simpl; lia.
Qed.

Lemma pipeline_well_ranked candidates ok limit factor (scored : list book) :
  Forall (scored_copy candidates ok) scored ->
  well_ranked candidates ok limit
    (py_take limit
       (RecommendationEngine.diversify
          (py_take (limit * 2)
             (sorted_by Rgtb RecommendationEngine.score_of scored)) factor)).
Proof.
  intros Hall.
  set (cut := py_take (limit * 2) _).
  assert (Forall (scored_copy candidates ok) cut) as Hcut.
  { apply Forall_forall. intros x Hx.
    apply (proj1 (Forall_forall _ _) Hall).
    rewrite <- (sorted_by_perm Rgtb RecommendationEngine.score_of scored).
    eapply elem_of_sublist; [exact Hx|apply py_take_sublist]. }
  unfold RecommendationEngine.diversify.
  set (div := SimilarityEngine.diversify_results _ _ _ cut factor 3).
  assert (div ⊆+ cut) as Hsub by apply diversify_results_sub.
  split.
  { apply py_take_desc. subst div. unfold SimilarityEngine.diversify_results.
    destruct cut; [constructor|]. apply sorted_by_desc. }
  split.
  { apply Forall_forall. intros x Hx.
    apply (proj1 (Forall_forall _ _) Hcut).
    eapply elem_of_submseteq; [|exact Hsub].
    eapply elem_of_sublist; [exact Hx|apply py_take_sublist]. }
  split; [apply py_take_length|].
  intros Hkeys bucket.
  etrans; [apply bucket_size_sublist, py_take_sublist|].
  assert (Forall (fun c => category c <> Absent) cut) as Hcutkeys.
  { eapply Forall_impl; [exact Hcut|]. intros x.
    by apply scored_copy_category. }
  pose proof (diversify_cap_with_categories category
                RecommendationEngine.score_of Rgtb cut factor 3 bucket
                ltac:(lia) Hcutkeys) as Hcap.
  fold div in Hcap. lia.
Qed.

(** [get_similar_books] returns the cached list on a hit.  On a miss the
    list it returns is in descending order of score; each book in it is a
    copy of a candidate row, scored between [min_similarity] and 1; there
    are at most [limit] of them when [limit] is not negative; and, when
    every candidate row has the key ["category"], at most 3 of a
    category. *)
Theorem similar_books_shape svc (book_id : string) (limit : Z)
  (min_similarity : R) (exclude_categories : option (list string)) (now : Z) e :
  let key :=
    RecommendationEngine.similar_key str_of_float book_id limit min_similarity in
  let looked_up :=
    RecommendationEngine._get_from_cache key now
      (RecommendationEngine.update_stats RecommendationEngine.count_similar e) in
  let results :=
    (get_similar_books svc book_id limit min_similarity exclude_categories now e).1 in
  (RecommendationEngine.truthy looked_up.1 = true /\ Some results = looked_up.1)
  \/ (RecommendationEngine.truthy looked_up.1 = false
      /\ well_ranked
           (RecommendationEngine._get_candidate_books svc (Some book_id) None
              exclude_categories)
           (fun s => (min_similarity <= s <= 1)%R) limit results).
Proof.
  intros key looked_up results. subst results.
  unfold RecommendationEngine.get_similar_books. fold key. fold looked_up.
  destruct looked_up as [cached e1]. cbn [fst snd].
  destruct (RecommendationEngine.truthy cached) eqn:Hhit.
  { left. split; [done|]. by destruct cached as [[|b l]|]. }
  right. split; [done|].
  assert (forall cs ok, well_ranked cs ok limit []) as Hnil.
  { intros cs ok. split; [constructor|]. split; [constructor|].
    split; [simpl; lia|]. intros _ bucket. unfold bucket_size. simpl. lia. }
  destruct (RecommendationEngine._get_book_data svc book_id) as [target|];
    [|apply Hnil].
  destruct (RecommendationEngine._get_or_generate_book_embedding svc target)
    as [emb|]; [|apply Hnil].
  destruct (RecommendationEngine.similar_books_of svc target emb min_similarity _)
    as [books|err] eqn:Hbooks; [|apply Hnil].
  cbn [fst]. apply pipeline_well_ranked.
  by apply (similar_books_of_spec svc target emb).
Qed.

(** [get_personalized_recommendations] returns the cached list on a hit
    and the result of [get_trending_books] for a user without
    interactions.  Otherwise the list it returns is in descending order of
    affinity; each book in it is a copy of a candidate row with an affinity
    above 0.2 and at most 1; there are at most [limit] of them when [limit]
    is not negative; and, when every candidate row has the key
    ["category"], at most 3 of a category. *)
Theorem personalized_shape svc (user_id : string) (limit : Z)
  (exclude_purchased : bool) (time_decay_factor : R) (now : Z) e :
  let key := RecommendationEngine.personalized_key user_id limit exclude_purchased in
  let looked_up :=
    RecommendationEngine._get_from_cache key now
      (RecommendationEngine.update_stats RecommendationEngine.count_personalized e) in
  let results :=
    (RecommendationEngine.get_personalized_recommendations svc user_id limit
       exclude_purchased time_decay_factor now e).1 in
  (RecommendationEngine.truthy looked_up.1 = true /\ Some results = looked_up.1)
  \/ (RecommendationEngine.truthy looked_up.1 = false
      /\ RecommendationEngine._get_user_interactions svc user_id = []
      /\ results
         = (RecommendationEngine.get_trending_books svc limit 30 5 now
              (RecommendationEngine.update_stats RecommendationEngine.count_miss
                 looked_up.2)).1)
  \/ (RecommendationEngine.truthy looked_up.1 = false
      /\ RecommendationEngine._get_user_interactions svc user_id <> []
      /\ well_ranked
           (RecommendationEngine._get_candidate_books svc None
              (Some (if exclude_purchased
                     then RecommendationEngine._get_user_purchased_books svc user_id
                     else []))
              None)
           (fun s => (0.2 < s <= 1)%R) limit results).
Proof.
  intros key looked_up results. subst results.
  unfold RecommendationEngine.get_personalized_recommendations.
  fold key. fold looked_up.
  destruct looked_up as [cached e1]. cbn [fst snd].
  destruct (RecommendationEngine.truthy cached) eqn:Hhit.
  { left. split; [done|]. by destruct cached as [[|b l]|]. }
  right.
  destruct (RecommendationEngine._get_user_interactions svc user_id) as [|i l]
    eqn:Hint.
  { left. done. }
  right. split; [done|]. split; [done|].
  assert (forall cs ok, well_ranked cs ok limit []) as Hnil.
  { intros cs ok. split; [constructor|]. split; [constructor|].
    split; [simpl; lia|]. intros _ bucket. unfold bucket_size. simpl. lia. }
  destruct (RecommendationEngine.recommendations_of svc _ _)
    as [books|err] eqn:Hbooks; [|apply Hnil].
  cbn [fst]. apply pipeline_well_ranked.
  by apply (recommendations_of_spec svc _ _ _ Hbooks).
Qed.

End EngineFacts.

Lemma trending_served_from_cache_witness :
  let first := RecommendationEngine.get_trending_books demo_store 10 30 5 0 new_engine in
  let second :=
    RecommendationEngine.get_trending_books demo_store 10 30 5 1799999999 first.2 in
  second.1 = first.1
  /\ RecommendationEngine.cache_hits (RecommendationEngine.stats_of second.2)
     = RecommendationEngine.cache_hits (RecommendationEngine.stats_of first.2) + 1
  /\ RecommendationEngine.cache_misses (RecommendationEngine.stats_of second.2)
     = RecommendationEngine.cache_misses (RecommendationEngine.stats_of first.2)
  /\ RecommendationEngine.recommendations_generated
       (RecommendationEngine.stats_of second.2)
     = RecommendationEngine.recommendations_generated
         (RecommendationEngine.stats_of first.2).
Proof.
  apply (trending_served_from_cache demo_store demo_store 10 30 5 0 1799999999
           new_engine).
  - discriminate.
  - reflexivity.
  - rewrite trending_of_demo_store. discriminate.
  - reflexivity.
  - unfold InMemoryCache.timedelta_seconds. lia.
Defined.

(** ** [_build_user_profile]: the favourites of a profile *)

Section ProfileFacts.
Context (svc : RecommendationEngine.services).

Local Abbreviation collect := (RecommendationEngine.collect svc).

(** A book of an interaction carries [v] under a key: a string that is
    not empty. *)
Definition carried (field : book -> slot string)
  (interactions : list RecommendationEngine.interaction) (v : string) : Prop :=
  v <> ""
  /\ exists i bk,
       i ∈ interactions
       /\ RecommendationEngine.interaction_book i = Some bk
       /\ field bk = Val v.

Lemma carried_cons field i interactions v :
  carried field interactions v -> carried field (i :: interactions) v.
Proof.
  intros (Hne & i' & bk & Hin & Hbk & Hv). split; [done|].
  exists i', bk. split; [by right|done].
Qed.

Lemma tally_NoDup (v : slot string) (w : R) d :
  NoDup (PyDict.keys d) -> NoDup (PyDict.keys (RecommendationEngine.tally v w d)).
Proof.
  intros Hnd. unfold RecommendationEngine.tally.
  destruct v as [| |[|c k]]; try done. by apply keys_setitem_NoDup.
Qed.

Lemma tally_keys (v : slot string) (w : R) d x :
  x ∈ PyDict.keys (RecommendationEngine.tally v w d) ->
  x ∈ PyDict.keys d \/ (v = Val x /\ x <> "").
Proof.
  unfold RecommendationEngine.tally.
  destruct v as [| |[|c k]]; try (by left).
  intros Hin. apply keys_setitem in Hin as [->|Hin]; [right|by left]. done.
Qed.

Lemma collect_tallies time_decay_factor now interactions acc acc' :
  collect time_decay_factor now interactions acc = Return acc' ->
  (NoDup (PyDict.keys (RecommendationEngine.categories acc)) ->
   NoDup (PyDict.keys (RecommendationEngine.categories acc')))
  /\ (NoDup (PyDict.keys (RecommendationEngine.authors acc)) ->
      NoDup (PyDict.keys (RecommendationEngine.authors acc')))
  /\ (forall x, x ∈ PyDict.keys (RecommendationEngine.categories acc') ->
        x ∈ PyDict.keys (RecommendationEngine.categories acc)
        \/ carried category interactions x)
  /\ (forall x, x ∈ PyDict.keys (RecommendationEngine.authors acc') ->
        x ∈ PyDict.keys (RecommendationEngine.authors acc)
        \/ carried author interactions x).
Proof.
  revert acc. induction interactions as [|i rest IH]; intros acc; simpl.
  { intros [= <-]. repeat split; auto. }
  destruct (RecommendationEngine.interaction_book i) as [bk|] eqn:Hbk.
  2:{ intros H. destruct (IH _ H) as (H1 & H2 & H3 & H4).
      repeat split; [done|done|..]; intros x Hx.
      - destruct (H3 x Hx) as [?|?]; [by left|right; by apply carried_cons].
      - destruct (H4 x Hx) as [?|?]; [by left|right; by apply carried_cons]. }
  destruct (RecommendationEngine.days_old svc now _) as [days|err]; simpl; [|done].
  intros H. destruct (IH _ H) as (H1 & H2 & H3 & H4). simpl in H1, H2, H3, H4.
  repeat split.
  - intros Hnd. by apply H1, tally_NoDup.
  - intros Hnd. by apply H2, tally_NoDup.
  - intros x Hx. destruct (H3 x Hx) as [Hin|Hc]; [|right; by apply carried_cons].
    apply tally_keys in Hin as [Hin|[Hv Hne]]; [by left|right].
    split; [done|]. exists i, bk. split; [by left|done].
  - intros x Hx. destruct (H4 x Hx) as [Hin|Hc]; [|right; by apply carried_cons].
    apply tally_keys in Hin as [Hin|[Hv Hne]]; [by left|right].
    split; [done|]. exists i, bk. split; [by left|done].
Qed.

Lemma top_sublist (n : nat) (d : list (string * R)) :
  exists l, RecommendationEngine.top n d `sublist_of` l /\ l ≡ₚ PyDict.keys d.
Proof.
  exists (map fst (sorted_by Rgtb snd d)). split.
  - unfold RecommendationEngine.top. apply fmap_sublist, sublist_take.
  - unfold PyDict.keys. apply fmap_Permutation, sorted_by_perm.
Qed.

Lemma top_length (n : nat) (d : list (string * R)) :
  (length (RecommendationEngine.top n d) <= n)%nat.
Proof.
  unfold RecommendationEngine.top. rewrite length_map, length_take. lia.
Qed.

Lemma top_NoDup (n : nat) (d : list (string * R)) :
  NoDup (PyDict.keys d) -> NoDup (RecommendationEngine.top n d).
Proof.
  intros Hnd. destruct (top_sublist n d) as (l & Hsub & Hperm).
  refine (sublist_NoDup _ _ _ Hsub). by rewrite Hperm.
Qed.

Lemma top_elem_of (n : nat) (d : list (string * R)) x :
  x ∈ RecommendationEngine.top n d -> x ∈ PyDict.keys d.
Proof.
  intros Hx. destruct (top_sublist n d) as (l & Hsub & Hperm).
  rewrite <- Hperm. eapply elem_of_sublist; [exact Hx|exact Hsub].
Qed.

(** [_build_user_profile] does not raise.  It returns the empty dict
    (when a timestamp cannot be read or the embedding service raises), or
    a profile whose [interaction_count] is the number of interactions and
    whose [favorite_categories] and [favorite_authors] hold at most 5 and at
    most 3 names, none of them twice, each the non-empty [category]
    ([author]) of the book of one of the interactions. *)
Theorem build_user_profile_shape
  (interactions : list RecommendationEngine.interaction)
  (time_decay_factor : R) (now : Z) :
  let p :=
    RecommendationEngine._build_user_profile svc interactions time_decay_factor
      now in
  p = Profile Absent Absent Absent None
  \/ exists categories authors,
       favorite_categories p = Val categories
       /\ favorite_authors p = Val authors
       /\ interaction_count p = Some (Z.of_nat (length interactions))
       /\ preference_embedding p <> Absent
       /\ (length categories <= 5)%nat /\ NoDup categories
       /\ Forall (carried category interactions) categories
       /\ (length authors <= 3)%nat /\ NoDup authors
       /\ Forall (carried author interactions) authors.
Proof.
  intros p. subst p.
  unfold RecommendationEngine._build_user_profile,
    RecommendationEngine._build_user_profile_try.
  destruct (collect time_decay_factor now interactions
              (RecommendationEngine.Tallies [] [] [])) as [acc|err] eqn:Hacc;
    simpl; [|by left].
  destruct (collect_tallies _ _ _ _ _ Hacc) as (H1 & H2 & H3 & H4).
  simpl in H1, H2, H3, H4.
  assert (forall pe : slot (list R), pe <> Absent ->
            exists categories authors,
              Val (RecommendationEngine.top 5 (RecommendationEngine.categories acc))
              = Val categories
              /\ Val (RecommendationEngine.top 3 (RecommendationEngine.authors acc))
                 = Val authors
              /\ Some (Z.of_nat (length interactions))
                 = Some (Z.of_nat (length interactions))
              /\ pe <> Absent
              /\ (length categories <= 5)%nat /\ NoDup categories
              /\ Forall (carried category interactions) categories
              /\ (length authors <= 3)%nat /\ NoDup authors
              /\ Forall (carried author interactions) authors) as Hshape.
  { intros pe Hpe. eexists _, _. split; [reflexivity|]. split; [reflexivity|].
    split; [done|]. split; [done|].
    split; [apply top_length|]. split; [apply top_NoDup, H1, NoDup_nil_2|].
    split.
    { apply Forall_forall. intros x Hx. apply top_elem_of in Hx.
      destruct (H3 x Hx) as [Hin|Hc]; [|done]. by apply elem_of_nil in Hin. }
    split; [apply top_length|]. split; [apply top_NoDup, H2, NoDup_nil_2|].
    apply Forall_forall. intros x Hx. apply top_elem_of in Hx.
    destruct (H4 x Hx) as [Hin|Hc]; [|done]. by apply elem_of_nil in Hin. }
  destruct (RecommendationEngine.interaction_texts acc) as [|t ts].
  { simpl. right. by apply Hshape. }
  destruct (RecommendationEngine.generate_user_preference_embedding svc _)
    as [v|err]; simpl; [|by left].
  right. by apply Hshape.
Qed.

End ProfileFacts.

(** ** [TextProcessor.normalize_myanmar_text]: Myanmar digits *)

Section MyanmarDigits.

(** A Myanmar digit, U+1040 to U+1049. *)
Definition myanmar_digit (c : Z) : bool := (0x1040 <=? c) && (c <=? 0x1049).

(** The ASCII digit of the same value. *)
Definition to_ascii_digit (c : Z) : Z :=
  if myanmar_digit c then c - 0x1040 + 0x30 else c.

(** The replacements, one after the other, act on each character by
    itself. *)
Lemma replace_each (table : list (Z * Z)) (text : list Z) :
  foldl (fun text '(mm_digit, ascii_digit) =>
           TextProcessor.replace mm_digit ascii_digit text)
    text table
  = map (fun c =>
           foldl (fun c '(mm_digit, ascii_digit) =>
                    if decide (c = mm_digit) then ascii_digit else c)
             c table)
      text.
Proof.
  revert text. induction table as [|[old new] table IH]; intros text.
  - simpl. by rewrite map_id.
  - cbn [foldl]. rewrite IH. unfold TextProcessor.replace. apply map_map.
Qed.

Lemma replace_other (table : list (Z * Z)) (c : Z) :
  Forall (fun p => c <> p.1) table ->
  foldl (fun c '(mm_digit, ascii_digit) =>
           if decide (c = mm_digit) then ascii_digit else c)
    c table = c.
Proof.
  induction 1 as [|[old new] table Hc _ IH]; [done|].
  cbn [foldl]. simpl in Hc. by rewrite decide_False.
Qed.

Lemma replace_all_digits (text : list Z) :
  foldl (fun text '(mm_digit, ascii_digit) =>
           TextProcessor.replace mm_digit ascii_digit text)
    text TextProcessor.myanmar_to_ascii
  = map to_ascii_digit text.
Proof.
  rewrite replace_each. apply map_ext. intros c.
  unfold to_ascii_digit, myanmar_digit.
  destruct (Z.leb_spec 0x1040 c) as [Hlo|Hlo];
    [destruct (Z.leb_spec c 0x1049) as [Hhi|Hhi]|]; cbn [andb].
  - assert (c = 0x1040 \/ c = 0x1041 \/ c = 0x1042 \/ c = 0x1043 \/ c = 0x1044
            \/ c = 0x1045 \/ c = 0x1046 \/ c = 0x1047 \/ c = 0x1048
            \/ c = 0x1049) as Hc by lia.
    repeat (destruct Hc as [Hc|Hc]; [rewrite Hc; vm_compute; reflexivity|]).
    rewrite Hc. vm_compute. reflexivity.
  - apply replace_other. unfold TextProcessor.myanmar_to_ascii.
    repeat constructor; simpl; lia.
  - apply replace_other. unfold TextProcessor.myanmar_to_ascii.
    repeat constructor; simpl; lia.
Qed.

Lemma no_myanmar_no_digit (text : list Z) :
  TextProcessor.contains_myanmar text = false ->
  Forall (fun c => myanmar_digit c = false) text.
Proof.
  induction text as [|c text IH]; simpl; [constructor|].
  unfold TextProcessor.myanmar_unicode_range, TextProcessor.myanmar_extended_range.
  cbn [fst snd].
  destruct (_ || _) eqn:E; [done|]. intros H. constructor; [|by apply IH].
  apply orb_false_iff in E as [E _]. unfold myanmar_digit.
  destruct (Z.leb_spec 0x1000 c), (Z.leb_spec c 0x109F),
    (Z.leb_spec 0x1040 c), (Z.leb_spec c 0x1049); simpl in *; try done; lia.
Qed.

Lemma to_ascii_digit_id (text : list Z) :
  Forall (fun c => myanmar_digit c = false) text -> map to_ascii_digit text = text.
Proof.
  induction 1 as [|c text Hc _ IH]; simpl; [done|].
  rewrite IH. unfold to_ascii_digit. by rewrite Hc.
Qed.

Lemma normalize_myanmar_text_map (text : list Z) :
  TextProcessor.normalize_myanmar_text text = map to_ascii_digit text.
Proof.
  unfold TextProcessor.normalize_myanmar_text.
  destruct (TextProcessor.contains_myanmar text) eqn:E; simpl.
  - apply replace_all_digits.
  - symmetry. by apply to_ascii_digit_id, no_myanmar_no_digit.
Qed.

Lemma to_ascii_digit_not_digit (c : Z) : myanmar_digit (to_ascii_digit c) = false.
Proof.
  unfold to_ascii_digit, myanmar_digit.
  destruct (Z.leb_spec 0x1040 c), (Z.leb_spec c 0x1049); simpl;
    repeat match goal with |- context [Z.leb ?a ?b] => destruct (Z.leb_spec a b) end;
    simpl; try done; lia.
Qed.

(** [normalize_myanmar_text] changes the Myanmar digits U+1040 to U+1049
    into the ASCII digits of the same value, in place, and nothing else:
    the text keeps its length, no Myanmar digit is left, and normalising
    again changes nothing. *)
Theorem normalize_myanmar_text_digits (text : list Z) :
  let r := TextProcessor.normalize_myanmar_text text in
  length r = length text
  /\ (forall (i : nat) (c : Z),
        text !! i = Some c ->
        r !! i = Some (if (0x1040 <=? c) && (c <=? 0x1049)
                       then c - 0x1040 + 0x30 else c))
  /\ Forall (fun c => (0x1040 <=? c) && (c <=? 0x1049) = false) r
  /\ TextProcessor.normalize_myanmar_text r = r.
Proof.
  intros r. subst r. rewrite !normalize_myanmar_text_map.
  split; [by rewrite length_map|].
  split.
  { intros i c Hi. rewrite list_lookup_fmap, Hi. done. }
  split.
  { apply Forall_forall. intros c Hc. apply list_elem_of_fmap in Hc as (c' & -> & _).
    apply to_ascii_digit_not_digit. }
  apply to_ascii_digit_id. apply Forall_forall. intros c Hc.
  apply list_elem_of_fmap in Hc as (c' & -> & _). apply to_ascii_digit_not_digit.
Qed.

End MyanmarDigits.

(** ** [EmbeddingService._prepare_text]: the prepared text is clean *)

Section PrepareText.
Context (normalize_nfc : string -> string).

Local Abbreviation _prepare_text := (EmbeddingService._prepare_text normalize_nfc).

Fixpoint no_space (s : string) : bool :=
  match s with
  | EmptyString => true
  | String c s' => negb (Str.is_space c) && no_space s'
  end.

(** A word: characters that are not spaces, at least one. *)
Definition word (w : string) : Prop := w <> EmptyString /\ no_space w = true.

(** The last character, if there is one, is not a space. *)
Fixpoint ends_clean (s : string) : bool :=
  match s with
  | EmptyString => true
  | String c EmptyString => negb (Str.is_space c)
  | String c s' => ends_clean s'
  end.

Lemma app_nil_l (b : string) : EmptyString +:+ b = b.
Proof. reflexivity. Qed.

Lemma app_cons (c : Ascii.ascii) (a b : string) :
  String c a +:+ b = String c (a +:+ b).
Proof. reflexivity. Qed.

Lemma app_empty_r (s : string) : s +:+ EmptyString = s.
Proof. induction s as [|c s IH]; [done|]. by rewrite app_cons, IH. Qed.

Lemma app_snoc (a : string) (c : Ascii.ascii) (b : string) :
  (a +:+ String c EmptyString) +:+ b = a +:+ String c b.
Proof. induction a as [|x a IH]; [done|]. by rewrite !app_cons, IH. Qed.

Lemma app_not_empty_r (a b : string) : b <> EmptyString -> a +:+ b <> EmptyString.
Proof. destruct a; [by rewrite app_nil_l|]. intros _. by rewrite app_cons. Qed.

Lemma no_space_snoc (a : string) (c : Ascii.ascii) :
  no_space a = true -> Str.is_space c = false ->
  no_space (a +:+ String c EmptyString) = true.
Proof.
  intros Ha Hc. induction a as [|x a IH].
  - rewrite app_nil_l. simpl. by rewrite Hc.
  - rewrite app_cons. simpl in *.
    apply andb_true_iff in Ha as [Hx Ha]. rewrite Hx. simpl. by apply IH.
Qed.

Lemma split_go_words (cur s : string) :
  no_space cur = true -> Forall word (Str.split_go cur s).
Proof.
  revert cur. induction s as [|c s IH]; intros cur Hcur; simpl.
  - destruct cur; [constructor|]. by repeat constructor.
  - destruct (Str.is_space c) eqn:Hc.
    + destruct cur; [by apply IH|].
      constructor; [by split|]. by apply IH.
    + by apply IH, no_space_snoc.
Qed.

Lemma split_go_word (cur w s : string) :
  no_space w = true ->
  Str.split_go cur (w +:+ s) = Str.split_go (cur +:+ w) s.
Proof.
  revert cur. induction w as [|c w IH]; intros cur Hw.
  - by rewrite app_nil_l, app_empty_r.
  - simpl in Hw. apply andb_true_iff in Hw as [Hc Hw]. apply negb_true_iff in Hc.
    rewrite app_cons. cbn [Str.split_go]. rewrite Hc, (IH _ Hw).
    by rewrite app_snoc.
Qed.

Lemma concat_cons (w w' : string) (ws : list string) :
  String.concat " " (w :: w' :: ws)
  = w +:+ " " +:+ String.concat " " (w' :: ws).
Proof. reflexivity. Qed.

Lemma concat_cons_word (w : string) (ws : list string) :
  word w -> String.concat " " (w :: ws) <> EmptyString.
Proof.
  intros [Hne _]. destruct w as [|c w]; [done|].
  destruct ws; [done|]. by rewrite concat_cons, app_cons.
Qed.

(** Splitting the joined words gives the words back. *)
Lemma split_concat (ws : list string) :
  Forall word ws -> Str.split (String.concat " " ws) = ws.
Proof.
  induction 1 as [|w ws Hw Hws IH]; [done|].
  destruct Hw as [Hne Hns]. unfold Str.split in *.
  destruct ws as [|w' ws].
  - cbn [String.concat]. rewrite <- (app_empty_r w) at 1.
    rewrite split_go_word, app_nil_l by done. simpl. by destruct w.
  - rewrite concat_cons, split_go_word, app_nil_l, app_cons, app_nil_l by done.
    cbn [Str.split_go].
    match goal with
    | |- context [Str.is_space ?c] => change (Str.is_space c) with true
    end.
    cbv iota. rewrite IH. by destruct w.
Qed.

Lemma rstrip_ends_clean (s : string) : ends_clean s = true -> Str.rstrip s = s.
Proof.
  induction s as [|c s IH]; [done|]. cbn [ends_clean Str.rstrip].
  destruct s as [|c' s'].
  - simpl. intros Hc. apply negb_true_iff in Hc. by rewrite Hc.
  - intros Hs. rewrite (IH Hs). done.
Qed.

Lemma ends_clean_word (w : string) : no_space w = true -> ends_clean w = true.
Proof.
  induction w as [|c w IH]; [done|]. cbn [no_space ends_clean].
  intros H. apply andb_true_iff in H as [Hc Hw].
  destruct w; [done|]. by apply IH.
Qed.

Lemma ends_clean_app (a b : string) :
  b <> EmptyString -> ends_clean (a +:+ b) = ends_clean b.
Proof.
  intros Hb. induction a as [|c a IH]; [done|].
  rewrite app_cons. cbn [ends_clean].
  destruct (a +:+ b) eqn:E; [|done].
  by apply (app_not_empty_r a b) in Hb.
Qed.

Lemma ends_clean_concat (ws : list string) :
  Forall word ws -> ends_clean (String.concat " " ws) = true.
Proof.
  induction 1 as [|w ws Hw Hws IH]; [done|].
  destruct ws as [|w' ws].
  - apply ends_clean_word, Hw.
  - rewrite concat_cons, ends_clean_app by discriminate.
    rewrite app_cons, app_nil_l. cbn [ends_clean].
    destruct (String.concat " " (w' :: ws)) eqn:E; [|done].
    apply Forall_cons in Hws as [Hw' _].
    by apply (concat_cons_word w' ws) in Hw'.
Qed.

Lemma lstrip_concat (ws : list string) :
  Forall word ws -> Str.lstrip (String.concat " " ws) = String.concat " " ws.
Proof.
  intros Hws. destruct Hws as [|w ws [Hne Hns] Hws]; [done|].
  destruct w as [|c w]; [done|]. simpl in Hns.
  apply andb_true_iff in Hns as [Hc _]. apply negb_true_iff in Hc.
  destruct ws as [|w' ws].
  - cbn [String.concat Str.lstrip]. by rewrite Hc.
  - rewrite concat_cons, app_cons. cbn [Str.lstrip]. by rewrite Hc.
Qed.

Lemma strip_concat (ws : list string) :
  Forall word ws -> Str.strip (String.concat " " ws) = String.concat " " ws.
Proof.
  intros Hws. unfold Str.strip. rewrite lstrip_concat by done.
  by apply rstrip_ends_clean, ends_clean_concat.
Qed.

(** The text [_prepare_text] returns is clean, whatever the Unicode
    normalisation does: [strip()] leaves it as it is, and so does splitting
    it at white space and joining the words with single spaces.  Preparing
    it a second time changes nothing when the normalisation leaves it
    unchanged. *)
Theorem prepare_text_clean (text : string) :
  let r := _prepare_text text in
  Str.strip r = r
  /\ String.concat " " (Str.split r) = r
  /\ Forall word (Str.split r)
  /\ (normalize_nfc r = r -> _prepare_text r = r).
Proof.
  intros r.
  assert (exists ws, Forall word ws /\ r = String.concat " " ws) as (ws & Hws & Hr).
  { subst r. unfold EmbeddingService._prepare_text.
    destruct text as [|c text]; [by exists []|].
    eexists. split; [|reflexivity]. by apply split_go_words. }
  assert (Str.strip r = r) as Hstrip by (rewrite Hr; by apply strip_concat).
  assert (Str.split r = ws) as Hsplit by (rewrite Hr; by apply split_concat).
  split; [done|]. split; [by rewrite Hsplit|]. split; [by rewrite Hsplit|].
  intros Hnfc. unfold EmbeddingService._prepare_text.
  destruct r as [|c r'] eqn:E; [done|].
  rewrite Hstrip, Hnfc, Hsplit. done.
Qed.

End PrepareText.
